(** * Categorical DQN (C51): replay buffer, projection and agent loop

    A shallow embedding of [06.categorical_dqn.ipynb]: the classes
    [ReplayBuffer], [Network] and [DQNAgent] become modules of the same
    names, their methods become functions of the same names.

    Conventions of the embedding.
    - float32/float64 values are rationals [Q]: arithmetic is exact, there
      is no rounding, no [inf] and no [nan].  A float division by zero has
      no value here and is reported as [FloatingPointError].
    - Python objects are mutable and exceptions leave the mutated object
      behind, so methods live in a state-and-exception monad [M S A]: a
      method maps the state before the call to an outcome ([Ok] or [Raise])
      and the state after it.
    - The collaborators that the notebook imports (the gym environment,
      numpy's global random state, the torch layers, softmax, log and the
      Adam optimizer) are interfaces: type classes whose methods the model
      calls and never inspects. *)

From Stdlib Require Import QArith Qround Qminmax Lqa Lia ZArith.
From stdpp Require Import base tactics option list.

Local Open Scope Z_scope.

(** ** Exceptions and the state-and-exception monad *)

Inductive exn : Set :=
  | IndexError | ZeroDivisionError | ValueError | TypeError
  | RuntimeError | FloatingPointError.

Inductive result (A : Type) : Type :=
  | Ok (a : A)
  | Raise (e : exn).
Arguments Ok {A} a.
Arguments Raise {A} e.

Global Instance result_ret : MRet result := fun A => @Ok A.
Global Instance result_bind : MBind result := fun A B k r =>
  match r with Ok a => k a | Raise e => Raise e end.

Definition M (S A : Type) : Type := S -> result A * S.

Definition ret {S A} (a : A) : M S A := fun s => (Ok a, s).
Definition raise {S A} (e : exn) : M S A := fun s => (Raise e, s).
Definition bind {S A B} (m : M S A) (k : A -> M S B) : M S B :=
  fun s => match m s with
           | (Ok a, s') => k a s'
           | (Raise e, s') => (Raise e, s')
           end.
Definition get {S} : M S S := fun s => (Ok s, s).
Definition gets {S A} (f : S -> A) : M S A := fun s => (Ok (f s), s).
Definition modify {S} (f : S -> S) : M S unit := fun s => (Ok tt, f s).
Definition lift {S A} (r : result A) : M S A := fun s => (r, s).

(** Run a method of a sub-object: [prj] reads the sub-object out of the
    enclosing state, [upd] writes it back. *)
Definition zoom {S T A} (prj : T -> S) (upd : S -> T -> T) (m : M S A) : M T A :=
  fun t => let (r, s') := m (prj t) in (r, upd s' t).

Global Instance M_ret {S} : MRet (M S) := fun A => @ret S A.
Global Instance M_bind {S} : MBind (M S) := fun A B k m => bind m k.

Definition is_Ok {A} (r : result A) : Prop :=
  match r with Ok _ => True | Raise _ => False end.

(** ** Float helpers *)

(** [float(n)] of a Python int, [tensor.float()] of a long tensor. *)
Definition float (n : Z) : Q := inject_Z n.
(** A bool stored into a float32 array. *)
Definition float_of_bool (b : bool) : Q := if b then 1%Q else 0%Q.
(** [tensor.long()]: truncation towards zero. *)
Definition long (q : Q) : Z := if Qle_bool 0 q then Qfloor q else Qceiling q.
(** [tensor.clamp(min=lo, max=hi)]: first raise to [lo], then cut at [hi]. *)
Definition clamp (lo hi x : Q) : Q := Qmin (Qmax x lo) hi.
Definition Qsum (l : list Q) : Q := foldr Qplus 0%Q l.
(** [x < y] on floats. *)
Definition Qlt_bool (x y : Q) : bool := negb (Qle_bool y x).

(** ** Collaborator interfaces *)

(** Observations are float32 vectors of the environment's dimension;
    [np_zeros d] is the row [np.zeros([d])]. *)
Class Observation (Obs : Type) := np_zeros : nat -> Obs.

(** numpy's global [RandomState]. [random] is [np.random.random()];
    [random_interval i] is the bounded draw that [shuffle] uses. *)
Class RandomState (R : Type) := {
  random : R -> Q * R;
  random_interval : nat -> R -> nat * R
}.

(** ** numpy indexing *)

(** [a[i] = x] on the first axis. *)
Definition setitem {A} (a : list A) (i : nat) (x : A) : result (list A) :=
  if decide (i < length a)%nat then Ok (<[i := x]> a) else Raise IndexError.

(** [a[idxs]] with an index array. *)
Definition getitem {A} (a : list A) (i : nat) : result A :=
  match a !! i with Some x => Ok x | None => Raise IndexError end.

Fixpoint getitems {A} (a : list A) (idxs : list nat) : result (list A) :=
  match idxs with
  | [] => Ok []
  | i :: idxs' => x ← getitem a i; xs ← getitems a idxs'; Ok (x :: xs)
  end.

(** ** np.random.choice(n, size=k, replace=False)

    numpy refuses a negative [k] and a [k] above [n], shuffles [arange(n)]
    (Fisher-Yates: for [i] from the last position down to 1, exchange
    positions [i] and [random_interval(i)]) and returns the first [k]
    entries. *)
Section Choice.
Context {R : Type} `{RandomState R}.

Definition swap (x : list nat) (i j : nat) : list nat :=
  match x !! i, x !! j with
  | Some xi, Some xj => <[i := xj]> (<[j := xi]> x)
  | _, _ => x
  end.

Fixpoint shuffle (i : nat) (x : list nat) : M R (list nat) :=
  match i with
  | O => ret x
  | S i' =>
      j ← (fun r => let (j, r') := random_interval i r in (Ok (j mod (S i))%nat, r'));
      shuffle i' (swap x i j)
  end.

Definition permutation (n : nat) : M R (list nat) :=
  shuffle (n - 1) (seq 0 n).

Definition choice (n : nat) (k : Z) : M R (list nat) :=
  if k <? 0 then raise ValueError
  else if Z.of_nat n <? k then raise ValueError
  else idx ← permutation n; ret (take (Z.to_nat k) idx).

End Choice.

(** ** class ReplayBuffer *)

Module ReplayBuffer.
Section Def.
Context {Obs : Type} `{Observation Obs}.

Record t : Type := mk {
  obs_buf : list Obs;
  next_obs_buf : list Obs;
  acts_buf : list Q;
  rews_buf : list Q;
  done_buf : list Q;
  max_size : nat;
  batch_size : Z;
  ptr : nat;
  size : nat
}.

Definition set_obs_buf (a : list Obs) (s : t) : t :=
  mk a (next_obs_buf s) (acts_buf s) (rews_buf s) (done_buf s)
     (max_size s) (batch_size s) (ptr s) (size s).
Definition set_next_obs_buf (a : list Obs) (s : t) : t :=
  mk (obs_buf s) a (acts_buf s) (rews_buf s) (done_buf s)
     (max_size s) (batch_size s) (ptr s) (size s).
Definition set_acts_buf (a : list Q) (s : t) : t :=
  mk (obs_buf s) (next_obs_buf s) a (rews_buf s) (done_buf s)
     (max_size s) (batch_size s) (ptr s) (size s).
Definition set_rews_buf (a : list Q) (s : t) : t :=
  mk (obs_buf s) (next_obs_buf s) (acts_buf s) a (done_buf s)
     (max_size s) (batch_size s) (ptr s) (size s).
Definition set_done_buf (a : list Q) (s : t) : t :=
  mk (obs_buf s) (next_obs_buf s) (acts_buf s) (rews_buf s) a
     (max_size s) (batch_size s) (ptr s) (size s).
Definition set_ptr (p : nat) (s : t) : t :=
  mk (obs_buf s) (next_obs_buf s) (acts_buf s) (rews_buf s) (done_buf s)
     (max_size s) (batch_size s) p (size s).
Definition set_size (n : nat) (s : t) : t :=
  mk (obs_buf s) (next_obs_buf s) (acts_buf s) (rews_buf s) (done_buf s)
     (max_size s) (batch_size s) (ptr s) n.

(** [__init__(obs_dim, size, batch_size)]. [np.zeros] refuses a negative
    dimension; nothing else is checked. *)
Definition init (obs_dim : nat) (size batch_size : Z) : result t :=
  if size <? 0 then Raise ValueError
  else
    let n := Z.to_nat size in
    Ok (mk (replicate n (np_zeros obs_dim)) (replicate n (np_zeros obs_dim))
           (replicate n 0%Q) (replicate n 0%Q) (replicate n 0%Q)
           n batch_size 0 0).

(** [self.buf[self.ptr] = x]: one in-place write, which raises when the
    cursor is not a row of the array. *)
Definition write {A} (buf : t -> list A) (set : list A -> t -> t) (x : A) : M t unit :=
  self ← get;
  a ← lift (setitem (buf self) (ptr self) x);
  modify (set a).

Definition store (obs : Obs) (act : Z) (rew : Q) (next_obs : Obs) (done_ : bool)
  : M t unit :=
  write obs_buf set_obs_buf obs;;
  write next_obs_buf set_next_obs_buf next_obs;;
  write acts_buf set_acts_buf (float act);;
  write rews_buf set_rews_buf rew;;
  write done_buf set_done_buf (float_of_bool done_);;
  self ← get;
  (if decide (max_size self = 0)%nat then raise ZeroDivisionError
   else modify (set_ptr ((ptr self + 1) mod max_size self)%nat));;
  modify (fun self => set_size (Nat.min (size self + 1) (max_size self)) self).

(** The dict that [sample_batch] returns. *)
Record Batch : Type := mkBatch {
  b_obs : list Obs;
  b_next_obs : list Obs;
  b_acts : list Q;
  b_rews : list Q;
  b_done : list Q
}.

Definition gather (self : t) (idxs : list nat) : result Batch :=
  o ← getitems (obs_buf self) idxs;
  o' ← getitems (next_obs_buf self) idxs;
  a ← getitems (acts_buf self) idxs;
  r ← getitems (rews_buf self) idxs;
  d ← getitems (done_buf self) idxs;
  Ok (mkBatch o o' a r d).

(** [sample_batch()]: reads the buffer, advances numpy's random state. *)
Definition sample_batch {R} `{RandomState R} (self : t) : M R Batch :=
  idxs ← choice (size self) (batch_size self);
  lift (gather self idxs).

Definition len (self : t) : nat := size self.

End Def.
Arguments t Obs : clear implicits.
Arguments Batch Obs : clear implicits.
End ReplayBuffer.

(** ** The environment, and torch

    (The gym environment: observation and action space sizes, [reset],
    [step], [action_space.sample] and [close].  Environment failures are
    not part of the model.) *)
Class Env (Obs E : Type) := {
  observation_dim : E -> nat;
  action_n : E -> nat;
  env_reset : E -> Obs * E;
  env_step : Z -> E -> (Obs * Q * bool) * E;
  action_space_sample : E -> Z * E;
  env_close : E -> E
}.

(** The function approximator and its optimizer.  [new_layers i o g] is a
    freshly initialised [nn.Sequential] from [i] inputs to [o] outputs drawn
    from torch's generator [g]; [layers] is its forward pass on one
    observation; [Adam] creates the optimizer state and [optimizer_step]
    is [zero_grad(); loss.backward(); step()] for the loss seen as a
    function of the trained parameters. *)
Class Torch (Obs P O G : Type) := {
  new_layers : nat -> nat -> G -> P * G;
  layers : P -> Obs -> list Q;
  softmax : list Q -> list Q;
  log : Q -> Q;
  Adam : P -> O;
  optimizer_step : (P -> Q) -> P -> O -> P * O
}.

(** [torch.linspace(start, end, steps)], in exact arithmetic
    ([Float.linspace] below rounds as the float32 tensor does). *)
Definition linspace (start end_ : Q) (steps : Z) : result (list Q) :=
  if steps <? 0 then Raise RuntimeError
  else Ok (map (fun i => start + float (Z.of_nat i) * ((end_ - start) / float (steps - 1)))%Q
               (seq 0 (Z.to_nat steps))).

(** [x.argmax()] of a one-dimensional tensor: the first maximal position. *)
Fixpoint argmax_from (best : Q) (besti i : nat) (x : list Q) : nat :=
  match x with
  | [] => besti
  | v :: x' =>
      if Qle_bool v best then argmax_from best besti (S i) x'
      else argmax_from v i (S i) x'
  end.

Definition argmax (x : list Q) : result nat :=
  match x with
  | [] => Raise RuntimeError
  | v :: x' => Ok (argmax_from v 0 1 x')
  end.

(** Indexing with a Python int: negative positions count from the end. *)
Definition getitemZ {A} (a : list A) (i : Z) : result A :=
  if (0 <=? i) then getitem a (Z.to_nat i)
  else if (- Z.of_nat (length a) <=? i) then getitem a (Z.to_nat (Z.of_nat (length a) + i))
  else Raise IndexError.

(** [acc.index_add_(0, index, source)] on flat tensors. *)
Fixpoint index_add_ (acc : list Q) (index : list Z) (source : list Q) : result (list Q) :=
  match index, source with
  | [], [] => Ok acc
  | j :: index', x :: source' =>
      if (0 <=? j) && (j <? Z.of_nat (length acc)) then
        index_add_ (alter (fun y => y + x)%Q (Z.to_nat j) acc) index' source'
      else Raise IndexError
  | _, _ => Raise RuntimeError
  end.

(** [flat.view(n, width)]: row [k] is the slice [k*width, (k+1)*width). *)
Definition rows_of {A} (width n : nat) (flat : list A) : list (list A) :=
  map (fun k => take width (drop (k * width) flat)) (seq 0 n).

Fixpoint mapM {A B} (f : A -> result B) (l : list A) : result (list B) :=
  match l with
  | [] => Ok []
  | x :: l' => y ← f x; ys ← mapM f l'; Ok (y :: ys)
  end.

(** ** class Network *)

Module Network.
Section Def.
Context {Obs P O G : Type} `{Torch Obs P O G}.

Record t : Type := mk {
  support : list Q;
  out_dim : nat;
  atom_size : Z;
  params : P
}.

(** [__init__]: the last [nn.Linear] has [out_dim * atom_size] outputs and
    refuses a negative size. *)
Definition init (in_dim out_dim : nat) (atom_size : Z) (support : list Q) (g : G)
  : result (t * G) :=
  if Z.of_nat out_dim * atom_size <? 0 then Raise RuntimeError
  else
    let (p, g') := new_layers in_dim (Z.to_nat (Z.of_nat out_dim * atom_size)) g in
    Ok (mk support out_dim atom_size p, g').

(** [self.layers(x).view(-1, out_dim, atom_size)] for one observation. *)
Definition q_atoms (self : t) (x : Obs) : result (list (list Q)) :=
  let raw := layers (params self) x in
  let width := Z.to_nat (atom_size self) in
  if decide (length raw = out_dim self * width /\ length raw <> 0)%nat
  then Ok (rows_of width (out_dim self) raw)
  else Raise RuntimeError.

(** [dist]: softmax over the atoms of each action, floored at [1e-3]. *)
Definition dist (self : t) (x : list Obs) : result (list (list (list Q))) :=
  mapM (fun xi =>
          qa ← q_atoms self xi;
          Ok (map (fun row => map (fun p => Qmax p (1 # 1000)) (softmax row)) qa)) x.

(** [torch.sum(row * support)] for one row of [dist]: the product
    broadcasts its operands, which torch refuses when their lengths differ
    and neither is 1. *)
Definition weighted_sum (row support : list Q) : result Q :=
  if decide (length row = length support) then Ok (Qsum (zip_with Qmult row support))
  else
    match row, support with
    | [p], _ => Ok (Qsum (map (fun z => p * z)%Q support))
    | _, [z] => Ok (Qsum (map (fun p => p * z)%Q row))
    | _, _ => Raise RuntimeError
    end.

(** [forward]: the expected value of each action's distribution,
    [torch.sum(dist * self.support, dim=2)].  [dist] has [atom_size] entries
    in its last dimension, and the product is refused, for a batch of any
    size, unless the support has as many or one of the two sizes is 1. *)
Definition forward (self : t) (x : list Obs) : result (list (list Q)) :=
  d ← dist self x;
  if decide (Z.to_nat (atom_size self) = length (support self)
             \/ Z.to_nat (atom_size self) = 1 \/ length (support self) = 1)%nat
  then mapM (mapM (fun row => weighted_sum row (support self))) d
  else Raise RuntimeError.

Definition state_dict (self : t) : P := params self.
Definition load_state_dict (sd : P) (self : t) : t :=
  mk (support self) (out_dim self) (atom_size self) sd.

End Def.
Arguments t P : clear implicits.
End Network.

(** ** The categorical projection

    The line that computes [delta_z] and the body of the
    [torch.no_grad()] block of [DQNAgent._compute_dqn_loss], from [t_z] on,
    as functions of the hyper-parameters, of [delta_z] (the argument [dz])
    and of the tensors [reward], [done] (both [B x 1]) and [next_dist]
    ([B x atom_size]).  Each definition is named after the local variable it
    computes.  The tensors hold exact rationals here; [Projection32] below
    evaluates the same lines with the rounding of float32. *)

Module Projection.

(** [delta_z = float(v_max - v_min) / (atom_size - 1)], a Python division. *)
Definition delta_z (v_min v_max : Q) (atom_size : Z) : result Q :=
  if atom_size - 1 =? 0 then Raise ZeroDivisionError
  else Ok ((v_max - v_min) / float (atom_size - 1))%Q.

(** [t_z = (reward + (1 - done) * gamma * support).clamp(v_min, v_max)]. *)
Definition t_z (v_min v_max gamma : Q) (support reward done_ : list Q) : list (list Q) :=
  zip_with (fun r d => map (fun z => clamp v_min v_max (r + (1 - d) * gamma * z))%Q support)
           reward done_.

(** [b = (t_z - v_min) / delta_z], a tensor division: dividing by zero
    gives [nan] or [inf], which the rationals do not have. *)
Definition b (v_min dz : Q) (tz : list (list Q)) : result (list (list Q)) :=
  if Qeq_bool dz 0 then Raise FloatingPointError
  else Ok (map (map (fun t => (t - v_min) / dz)%Q) tz).

Definition l (b : list (list Q)) : list (list Z) := map (map Qfloor) b.
Definition u (b : list (list Q)) : list (list Z) := map (map Qceiling) b.

(** [offset = linspace(0, (batch_size - 1) * atom_size, batch_size).long()
              .unsqueeze(1).expand(batch_size, atom_size)]. *)
Definition offset (batch_size atom_size : Z) : result (list (list Z)) :=
  lin ← linspace 0 (float ((batch_size - 1) * atom_size)) batch_size;
  if atom_size <? 0 then Raise RuntimeError
  else Ok (map (fun x => replicate (Z.to_nat atom_size) (long x)) lin).

(** Elementwise operations on two tensors of the same shape.  (torch also
    broadcasts a dimension of size one; in [_compute_dqn_loss] the operands
    have the shape [batch_size x atom_size] on both sides.) *)
Definition elementwise {A B C} (f : A -> B -> C) (x : list (list A)) (y : list (list B))
  : result (list (list C)) :=
  if decide (map length x = map length y) then Ok (zip_with (zip_with f) x y)
  else Raise RuntimeError.

Fixpoint unflatten {A} (shape : list nat) (flat : list A) : list (list A) :=
  match shape with
  | [] => []
  | n :: shape' => take n flat :: unflatten shape' (drop n flat)
  end.

(** The two index tensors [(l + offset, u + offset)] of the scatter-add. *)
Definition indices (v_min v_max gamma : Q) (support : list Q) (atom_size batch_size : Z)
    (dz : Q) (reward done_ : list Q) : result (list (list Z) * list (list Z)) :=
  bb ← b v_min dz (t_z v_min v_max gamma support reward done_);
  off ← offset batch_size atom_size;
  lo ← elementwise Z.add (l bb) off;
  uo ← elementwise Z.add (u bb) off;
  Ok (lo, uo).

(** The two source tensors [next_dist * (u.float() - b)] and
    [next_dist * (b - l.float())]. *)
Definition sources (v_min v_max gamma : Q) (support : list Q) (dz : Q)
    (reward done_ : list Q) (next_dist : list (list Q))
  : result (list (list Q) * list (list Q)) :=
  bb ← b v_min dz (t_z v_min v_max gamma support reward done_);
  wl ← elementwise (fun bi ui => float ui - bi)%Q bb (u bb);
  wu ← elementwise (fun bi li => bi - float li)%Q bb (l bb);
  sl ← elementwise Qmult next_dist wl;
  su ← elementwise Qmult next_dist wu;
  Ok (sl, su).

(** [proj_dist]: zeros of the shape of [next_dist], then the two
    [index_add_] calls on the flattened view. *)
Definition proj_dist (v_min v_max gamma : Q) (support : list Q) (atom_size batch_size : Z)
    (dz : Q) (reward done_ : list Q) (next_dist : list (list Q)) : result (list (list Q)) :=
  '(lo, uo) ← indices v_min v_max gamma support atom_size batch_size dz reward done_;
  '(sl, su) ← sources v_min v_max gamma support dz reward done_ next_dist;
  let zeros := replicate (length (concat next_dist)) 0%Q in
  acc ← index_add_ zeros (concat lo) (concat sl);
  acc ← index_add_ acc (concat uo) (concat su);
  Ok (unflatten (map length next_dist) acc).

End Projection.

(** ** Binary floating point

    The definitions above compute with exact rationals.  Where rounding
    decides what the code does, the same lines are evaluated below as torch
    and Python evaluate them: every operation returns the exact result
    rounded to the nearest number of its format, ties to the even one.
    Python's [float] is binary64, a torch tensor here is float32, and a
    Python number that meets a float32 tensor is converted to float32
    first.  Infinities and [nan] are outside the model: no computation
    below overflows, and a division by zero is refused. *)

Module Float.

(** [2^e] for an integer [e]. *)
Definition pow2 (e : Z) : Q :=
  if 0 <=? e then inject_Z (2 ^ e) else 1 # Z.to_pos (2 ^ (- e)).

Definition abs (x : Q) : Q := if Qle_bool 0 x then x else (- x)%Q.

(** [floor (log2 x)] for [0 < x]: the difference of the bit lengths of
    numerator and denominator, or one less. *)
Definition ilog2 (x : Q) : Z :=
  let e0 := Z.log2 (Qnum x) - Z.log2 (Zpos (Qden x)) in
  if Qle_bool (pow2 e0) x then e0 else e0 - 1.

(** The nearest integer, ties to the even one. *)
Definition nearest_even (x : Q) : Z :=
  let f := Qfloor x in
  match (x - inject_Z f ?= 1 # 2)%Q with
  | Lt => f
  | Gt => f + 1
  | Eq => if Z.even f then f else f + 1
  end.

(** Rounding to [prec] bits of significand; below [2^emin] the spacing is
    that of the subnormal numbers. *)
Definition round_binary (prec emin : Z) (x : Q) : Q :=
  if Qeq_bool x 0 then 0%Q
  else
    let e := Z.max (ilog2 (abs x)) emin in
    let ulp := pow2 (e - (prec - 1)) in
    (inject_Z (nearest_even (x / ulp)) * ulp)%Q.

Definition f32 : Q -> Q := round_binary 24 (-126).
Definition f64 : Q -> Q := round_binary 53 (-1022).

(** [torch.linspace(start, end, steps)] as a float32 tensor, by ATen's
    formula for one element: from [start] upwards in the first half, from
    [end] downwards in the second.  (ATen also fills groups of elements
    from a rounded base; the two ways agree wherever the products and sums
    are exact, as they are for the row offsets of the projection as long as
    [(batch_size - 1) * atom_size] is below [2^24], and on tensors of one
    or two elements.) *)
Definition linspace (start end_ : Q) (steps : Z) : result (list Q) :=
  if steps <? 0 then Raise RuntimeError
  else if steps =? 1 then Ok [f32 start]
  else
    let s := f32 start in
    let e := f32 end_ in
    let step := f32 (f32 (e - s) / f32 (float (steps - 1))) in
    Ok (map (fun i : nat =>
               if Z.of_nat i <? steps / 2
               then f32 (s + f32 (step * f32 (float (Z.of_nat i))))
               else f32 (e - f32 (step * f32 (float (steps - Z.of_nat i - 1)))))%Q
            (seq 0 (Z.to_nat steps))).

(** [acc.index_add_(0, index, source)] on flat float32 tensors: one
    rounded addition per entry of [index], in order. *)
Fixpoint index_add_ (acc : list Q) (index : list Z) (source : list Q) : result (list Q) :=
  match index, source with
  | [], [] => Ok acc
  | j :: index', x :: source' =>
      if (0 <=? j) && (j <? Z.of_nat (length acc)) then
        index_add_ (alter (fun y => f32 (y + x))%Q (Z.to_nat j) acc) index' source'
      else Raise IndexError
  | _, _ => Raise RuntimeError
  end.

End Float.

(** ** The categorical projection in float32

    The lines of [Projection], operation by operation, on float32 tensors.
    [v_min], [v_max] and [gamma] are Python floats, [delta_z] is computed
    in binary64, and [reward], [done], [support] and [next_dist] hold
    float32 values. *)

Module Projection32.
Import Float.

(** [delta_z = float(v_max - v_min) / (atom_size - 1)], in binary64. *)
Definition delta_z (v_min v_max : Q) (atom_size : Z) : result Q :=
  if atom_size - 1 =? 0 then Raise ZeroDivisionError
  else Ok (f64 (f64 (v_max - v_min) / float (atom_size - 1)))%Q.

(** [t_z = (reward + (1 - done) * gamma * support).clamp(v_min, v_max)]. *)
Definition t_z (v_min v_max gamma : Q) (support reward done_ : list Q) : list (list Q) :=
  zip_with (fun r d =>
              map (fun z => clamp (f32 v_min) (f32 v_max)
                              (f32 (r + f32 (f32 (f32 (1 - d) * f32 gamma) * z))))%Q
                  support)
           reward done_.

(** [b = (t_z - v_min) / delta_z]. *)
Definition b (v_min dz : Q) (tz : list (list Q)) : result (list (list Q)) :=
  if Qeq_bool (f32 dz) 0 then Raise FloatingPointError
  else Ok (map (map (fun t => f32 (f32 (t - f32 v_min) / f32 dz))%Q) tz).

(** [offset]: the float32 [linspace], then [.long()]. *)
Definition offset (batch_size atom_size : Z) : result (list (list Z)) :=
  lin ← linspace 0 (float ((batch_size - 1) * atom_size)) batch_size;
  if atom_size <? 0 then Raise RuntimeError
  else Ok (map (fun x => replicate (Z.to_nat atom_size) (long x)) lin).

Definition indices (v_min v_max gamma : Q) (support : list Q) (atom_size batch_size : Z)
    (dz : Q) (reward done_ : list Q) : result (list (list Z) * list (list Z)) :=
  bb ← b v_min dz (t_z v_min v_max gamma support reward done_);
  off ← offset batch_size atom_size;
  lo ← Projection.elementwise Z.add (Projection.l bb) off;
  uo ← Projection.elementwise Z.add (Projection.u bb) off;
  Ok (lo, uo).

(** [next_dist * (u.float() - b)] and [next_dist * (b - l.float())]. *)
Definition sources (v_min v_max gamma : Q) (support : list Q) (dz : Q)
    (reward done_ : list Q) (next_dist : list (list Q))
  : result (list (list Q) * list (list Q)) :=
  bb ← b v_min dz (t_z v_min v_max gamma support reward done_);
  wl ← Projection.elementwise (fun bi ui => f32 (f32 (float ui) - bi))%Q bb (Projection.u bb);
  wu ← Projection.elementwise (fun bi li => f32 (bi - f32 (float li)))%Q bb (Projection.l bb);
  sl ← Projection.elementwise (fun p w => f32 (p * w))%Q next_dist wl;
  su ← Projection.elementwise (fun p w => f32 (p * w))%Q next_dist wu;
  Ok (sl, su).

Definition proj_dist (v_min v_max gamma : Q) (support : list Q) (atom_size batch_size : Z)
    (dz : Q) (reward done_ : list Q) (next_dist : list (list Q)) : result (list (list Q)) :=
  '(lo, uo) ← indices v_min v_max gamma support atom_size batch_size dz reward done_;
  '(sl, su) ← sources v_min v_max gamma support dz reward done_ next_dist;
  let zeros := replicate (length (concat next_dist)) 0%Q in
  acc ← index_add_ zeros (concat lo) (concat sl);
  acc ← index_add_ acc (concat uo) (concat su);
  Ok (Projection.unflatten (map length next_dist) acc).

End Projection32.

(** ** class DQNAgent *)

Module DQNAgent.
Section Def.
Context {Obs E P O G R : Type}.
Context `{Observation Obs} `{Env Obs E} `{Torch Obs P O G} `{RandomState R}.

(** The entries of the Python list [self.transition]. *)
Inductive item : Type :=
  | IObs (o : Obs)
  | IAct (a : Z)
  | IFloat (r : Q)
  | IBool (b : bool).

(** The attributes that [__init__] sets and no method reassigns. *)
Record hyper : Type := mkHyper {
  batch_size : Z;
  epsilon_decay : Q;
  max_epsilon : Q;
  min_epsilon : Q;
  target_update : Z;
  gamma : Q;
  v_min : Q;
  v_max : Q;
  atom_size : Z;
  support : list Q
}.

(** The agent, with the two pieces of global state its methods touch: the
    environment object and numpy's random state. *)
Record t : Type := mk {
  hp : hyper;
  env : E;
  memory : ReplayBuffer.t Obs;
  epsilon : Q;
  dqn : Network.t P;
  dqn_target : Network.t P;
  optimizer : O;
  transition : list item;
  is_test : bool;
  np_random : R
}.

Definition set_env (x : E) (s : t) : t :=
  mk (hp s) x (memory s) (epsilon s) (dqn s) (dqn_target s) (optimizer s)
     (transition s) (is_test s) (np_random s).
Definition set_memory (x : ReplayBuffer.t Obs) (s : t) : t :=
  mk (hp s) (env s) x (epsilon s) (dqn s) (dqn_target s) (optimizer s)
     (transition s) (is_test s) (np_random s).
Definition set_epsilon (x : Q) (s : t) : t :=
  mk (hp s) (env s) (memory s) x (dqn s) (dqn_target s) (optimizer s)
     (transition s) (is_test s) (np_random s).
Definition set_dqn (x : Network.t P) (s : t) : t :=
  mk (hp s) (env s) (memory s) (epsilon s) x (dqn_target s) (optimizer s)
     (transition s) (is_test s) (np_random s).
Definition set_dqn_target (x : Network.t P) (s : t) : t :=
  mk (hp s) (env s) (memory s) (epsilon s) (dqn s) x (optimizer s)
     (transition s) (is_test s) (np_random s).
Definition set_optimizer (x : O) (s : t) : t :=
  mk (hp s) (env s) (memory s) (epsilon s) (dqn s) (dqn_target s) x
     (transition s) (is_test s) (np_random s).
Definition set_transition (x : list item) (s : t) : t :=
  mk (hp s) (env s) (memory s) (epsilon s) (dqn s) (dqn_target s) (optimizer s)
     x (is_test s) (np_random s).
Definition set_is_test (x : bool) (s : t) : t :=
  mk (hp s) (env s) (memory s) (epsilon s) (dqn s) (dqn_target s) (optimizer s)
     (transition s) x (np_random s).
Definition set_np_random (x : R) (s : t) : t :=
  mk (hp s) (env s) (memory s) (epsilon s) (dqn s) (dqn_target s) (optimizer s)
     (transition s) (is_test s) x.

(** A call that cannot raise, on a piece of global state. *)
Definition call {S A} (f : S -> A * S) : M S A :=
  fun s => let (a, s') := f s in (Ok a, s').

(** [__init__].  [g] is torch's generator, [r] numpy's random state. *)
Definition init (env : E) (memory_size batch_size target_update : Z)
    (epsilon_decay max_epsilon min_epsilon gamma v_min v_max : Q) (atom_size : Z)
    (g : G) (r : R) : result t :=
  let obs_dim := observation_dim env in
  let action_dim := action_n env in
  memory ← ReplayBuffer.init obs_dim memory_size batch_size;
  support ← linspace v_min v_max atom_size;
  '(dqn, g) ← Network.init obs_dim action_dim atom_size support g;
  '(dqn_target, g) ← Network.init obs_dim action_dim atom_size support g;
  let dqn_target := Network.load_state_dict (Network.state_dict dqn) dqn_target in
  Ok (mk (mkHyper batch_size epsilon_decay max_epsilon min_epsilon target_update
                  gamma v_min v_max atom_size support)
         env memory max_epsilon dqn dqn_target (Adam (Network.params dqn))
         [] false r).

(** [select_action]: epsilon-greedy choice; the pending transition is set
    only outside test mode. *)
Definition select_action (state : Obs) : M t Z :=
  self ← get;
  x ← zoom np_random set_np_random (call random);
  selected_action ←
    (if Qlt_bool x (epsilon self) then
       zoom env set_env (call action_space_sample)
     else
       q ← lift (Network.forward (dqn self) [state]);
       a ← lift (argmax (concat q));
       mret (Z.of_nat a));
  (if negb (is_test self)
   then modify (set_transition [IObs state; IAct selected_action])
   else mret tt);;
  mret selected_action.

(** [step]: outside test mode the pending transition is completed and
    passed to [store] as its five positional arguments, which Python
    refuses ([TypeError]) when the list does not have exactly five
    entries. *)
Definition step (action : Z) : M t (Obs * Q * bool) :=
  '(next_state, reward, done_) ← zoom env set_env (call (env_step action));
  self ← get;
  (if negb (is_test self) then
     modify (fun self =>
       set_transition (transition self ++ [IFloat reward; IObs next_state; IBool done_]) self);;
     self ← get;
     match transition self with
     | [IObs o; IAct a; IFloat r; IObs o'; IBool d] =>
         zoom memory set_memory (ReplayBuffer.store o a r o' d)
     | _ => raise TypeError
     end
   else mret tt);;
  mret (next_state, reward, done_).

(** [t[range(batch_size), idx]]: row [k], entry [idx[k]]. *)
Definition pick (batch_size : Z) (d : list (list (list Q))) (idx : list Z)
  : result (list (list Q)) :=
  if decide (length idx = Z.to_nat batch_size) then
    mapM (fun ka => row ← getitem d ka.1; getitemZ row ka.2)
         (zip (seq 0 (length idx)) idx)
  else Raise IndexError.

(** [_compute_dqn_loss]: the cross-entropy of the projected target
    against the online distribution of the actions taken.  The mean over an
    empty batch is [nan], which the rationals do not have: the model stops
    there, where the code goes on with [nan]. *)
Definition _compute_dqn_loss (self : t) (samples : ReplayBuffer.Batch Obs) : result Q :=
  let state := ReplayBuffer.b_obs samples in
  let next_state := ReplayBuffer.b_next_obs samples in
  let action := map long (ReplayBuffer.b_acts samples) in
  let reward := ReplayBuffer.b_rews samples in
  let done_ := ReplayBuffer.b_done samples in
  let h := hp self in
  delta_z ← Projection.delta_z (v_min h) (v_max h) (atom_size h);
  next_q ← Network.forward (dqn_target self) next_state;
  next_action ← mapM argmax next_q;
  next_dist ← Network.dist (dqn_target self) next_state;
  next_dist ← pick (batch_size h) next_dist (map Z.of_nat next_action);
  proj_dist ← Projection.proj_dist (v_min h) (v_max h) (gamma h) (support h)
                 (atom_size h) (batch_size h) delta_z reward done_ next_dist;
  dist ← Network.dist (dqn self) state;
  chosen ← pick (batch_size h) dist action;
  prod ← Projection.elementwise (fun p q => p * log q)%Q proj_dist chosen;
  let sums := map Qsum prod in
  if decide (sums = []) then Raise FloatingPointError
  else Ok (- (Qsum sums / float (Z.of_nat (length sums))))%Q.

(** [update_model]: one sampled batch, one optimizer step on the online
    network. *)
Definition update_model : M t Q :=
  self ← get;
  samples ← zoom np_random set_np_random (ReplayBuffer.sample_batch (memory self));
  self ← get;
  loss ← lift (_compute_dqn_loss self samples);
  modify (fun self =>
    let loss_of θ :=
      match _compute_dqn_loss (set_dqn (Network.load_state_dict θ (dqn self)) self) samples with
      | Ok v => v
      | Raise _ => 0%Q
      end in
    let (θ', o') := optimizer_step loss_of (Network.params (dqn self)) (optimizer self) in
    set_optimizer o' (set_dqn (Network.load_state_dict θ' (dqn self)) self));;
  mret loss.

(** [_target_hard_update]: target <- online. *)
Definition _target_hard_update : M t unit :=
  modify (fun self =>
    set_dqn_target (Network.load_state_dict (Network.state_dict (dqn self)) (dqn_target self))
                   self).

(** The local variables of [train]. *)
Record locals : Type := mkLocals {
  state : Obs;
  update_cnt : Z;
  epsilons : list Q;
  losses : list Q;
  scores : list Q;
  score : Q;
  mov_avg : list Q
}.

(** [np.mean(x)] of a non-empty list. *)
Definition mean (x : list Q) : Q := (Qsum x / float (Z.of_nat (length x)))%Q.
(** [x[-n:]]. *)
Definition last_n {A} (n : nat) (x : list A) : list A := drop (length x - n) x.

(** The epsilon of the next update: the linear decrease, floored. *)
Definition decayed (h : hyper) (eps : Q) : Q :=
  Qmax (min_epsilon h) (eps - (max_epsilon h - min_epsilon h) * epsilon_decay h)%Q.

(** The [if len(self.memory) >= self.batch_size:] block of [train]. *)
Definition train_update (loc : locals) : M t locals :=
  loss ← update_model;
  let losses' := losses loc ++ [loss] in
  let update_cnt' := update_cnt loc + 1 in
  modify (fun self => set_epsilon (decayed (hp self) (epsilon self)) self);;
  self ← get;
  let epsilons' := epsilons loc ++ [epsilon self] in
  (if target_update (hp self) =? 0 then raise ZeroDivisionError
   else if update_cnt' mod target_update (hp self) =? 0 then _target_hard_update
   else mret tt);;
  mret (mkLocals (state loc) update_cnt' epsilons' losses' (scores loc) (score loc)
                 (mov_avg loc)).

(** One iteration of the [for frame_idx in range(1, num_frames + 1)] loop. *)
Definition train_frame (plotting_interval frame_idx : Z) (loc : locals) : M t locals :=
  action ← select_action (state loc);
  '(next_state, reward, done_) ← step action;
  let score' := (score loc + reward)%Q in
  loc ← (if done_ : bool then
           st ← zoom env set_env (call env_reset);
           let scores' := scores loc ++ [score'] in
           mret (mkLocals st (update_cnt loc) (epsilons loc) (losses loc) scores' 0%Q
                          (mov_avg loc ++ [mean (last_n 5 scores')]))
         else
           mret (mkLocals next_state (update_cnt loc) (epsilons loc) (losses loc)
                          (scores loc) score' (mov_avg loc)));
  self ← get;
  loc ← (if batch_size (hp self) <=? Z.of_nat (ReplayBuffer.len (memory self))
         then train_update loc else mret loc);
  (if plotting_interval =? 0 then raise ZeroDivisionError else mret tt);;
  mret loc.

Fixpoint train_loop (plotting_interval : Z) (frames : list Z) (loc : locals) : M t locals :=
  match frames with
  | [] => mret loc
  | frame_idx :: frames' =>
      loc ← train_frame plotting_interval frame_idx loc;
      train_loop plotting_interval frames' loc
  end.

(** [range(a, b)]. *)
Definition range (a b : Z) : list Z :=
  map (fun i => a + Z.of_nat i) (seq 0 (Z.to_nat (b - a))).

(** [train(num_frames, plotting_interval)]; the model returns the local
    variables where the source returns [None]. *)
Definition train (num_frames plotting_interval : Z) : M t locals :=
  modify (set_is_test false);;
  st ← zoom env set_env (call env_reset);
  loc ← train_loop plotting_interval (range 1 (num_frames + 1))
          (mkLocals st 0 [] [] [] 0%Q []);
  modify (fun self => set_env (env_close (env self)) self);;
  mret loc.

End Def.
Arguments t Obs E P O R : clear implicits.
Arguments item Obs : clear implicits.
Arguments locals Obs : clear implicits.
End DQNAgent.

(** ** Notions used to state the properties *)

Section Notions.
Context {Obs E P O G R : Type}.
Context `{Observation Obs} `{Env Obs E} `{Torch Obs P O G} `{RandomState R}.

(** The class invariant of [ReplayBuffer]: the five arrays have [max_size]
    rows, [size] does not exceed it, and the cursor is a row whenever there
    is one. *)
Definition buffer_inv (b : ReplayBuffer.t Obs) : Prop :=
  length (ReplayBuffer.obs_buf b) = ReplayBuffer.max_size b /\
  length (ReplayBuffer.next_obs_buf b) = ReplayBuffer.max_size b /\
  length (ReplayBuffer.acts_buf b) = ReplayBuffer.max_size b /\
  length (ReplayBuffer.rews_buf b) = ReplayBuffer.max_size b /\
  length (ReplayBuffer.done_buf b) = ReplayBuffer.max_size b /\
  (ReplayBuffer.size b <= ReplayBuffer.max_size b)%nat /\
  ((0 < ReplayBuffer.max_size b)%nat -> (ReplayBuffer.ptr b < ReplayBuffer.max_size b)%nat).

(** The arguments of one [store] call, and the row they leave in the
    float32 arrays. *)
Definition store_args : Type := Obs * Z * Q * Obs * bool.
Definition stored_row : Type := Obs * Q * Q * Obs * Q.

Definition stored (x : store_args) : stored_row :=
  let '(o, a, r, o', d) := x in (o, float a, r, o', float_of_bool d).

(** The transition held in row [i] of the arrays. *)
Definition transition_at (b : ReplayBuffer.t Obs) (i : nat) : option stored_row :=
  o ← ReplayBuffer.obs_buf b !! i;
  a ← ReplayBuffer.acts_buf b !! i;
  r ← ReplayBuffer.rews_buf b !! i;
  o' ← ReplayBuffer.next_obs_buf b !! i;
  d ← ReplayBuffer.done_buf b !! i;
  Some (o, a, r, o', d).

(** The buffer that a successful [store] leaves. *)
Definition after_store (b : ReplayBuffer.t Obs)
    (o : Obs) (a : Z) (r : Q) (o' : Obs) (d : bool) : ReplayBuffer.t Obs :=
  let p := ReplayBuffer.ptr b in
  ReplayBuffer.mk
    (<[p := o]> (ReplayBuffer.obs_buf b))
    (<[p := o']> (ReplayBuffer.next_obs_buf b))
    (<[p := float a]> (ReplayBuffer.acts_buf b))
    (<[p := r]> (ReplayBuffer.rews_buf b))
    (<[p := float_of_bool d]> (ReplayBuffer.done_buf b))
    (ReplayBuffer.max_size b) (ReplayBuffer.batch_size b)
    ((p + 1) mod ReplayBuffer.max_size b)%nat
    (Nat.min (ReplayBuffer.size b + 1) (ReplayBuffer.max_size b)).

(** A sequence of [store] calls. *)
Fixpoint stores (xs : list store_args) : M (ReplayBuffer.t Obs) unit :=
  match xs with
  | [] => mret tt
  | (o, a, r, o', d) :: xs' => ReplayBuffer.store o a r o' d;; stores xs'
  end.

(** A sequence of [select_action] and [step] calls on an agent. *)
Inductive agent_call : Type :=
  | SelectAction (state : Obs)
  | Step (action : Z).

Fixpoint run_calls (cs : list agent_call) : M (DQNAgent.t Obs E P O R) unit :=
  match cs with
  | [] => mret tt
  | SelectAction x :: cs' => DQNAgent.select_action x;; run_calls cs'
  | Step a :: cs' => DQNAgent.step a;; run_calls cs'
  end.

(** The two networks were built with the same arguments. *)
Definition same_arch (n1 n2 : Network.t P) : Prop :=
  Network.support n1 = Network.support n2 /\
  Network.out_dim n1 = Network.out_dim n2 /\
  Network.atom_size n1 = Network.atom_size n2.

End Notions.

(** Row-wise scatter-add: row [k] of [rows] accumulates [src[k]] at the
    row-local positions [idx[k]]. *)
Fixpoint rows_add (rows : list (list Q)) (idx : list (list Z)) (src : list (list Q))
  : result (list (list Q)) :=
  match rows, idx, src with
  | [], [], [] => Ok []
  | row :: rows', ix :: idx', sx :: src' =>
      row' ← index_add_ row ix sx;
      rest ← rows_add rows' idx' src';
      Ok (row' :: rest)
  | _, _, _ => Raise RuntimeError
  end.

(** The flat positions of row-local positions: row [k] is moved by
    [base + k * width]. *)
Fixpoint shift_rows (base width : Z) (idx : list (list Z)) : list (list Z) :=
  match idx with
  | [] => []
  | ix :: idx' => map (fun j => j + base) ix :: shift_rows (base + width) width idx'
  end.

(** A batch given row by row, each row with its reward, its done flag and
    its next-state distribution, and the three tensors it stands for. *)
Definition rewards (rows : list (Q * Q * list Q)) : list Q := map (fun x => x.1.1) rows.
Definition dones (rows : list (Q * Q * list Q)) : list Q := map (fun x => x.1.2) rows.
Definition next_dists (rows : list (Q * Q * list Q)) : list (list Q) := map (fun x => x.2) rows.

(** The value of a computation that is known to succeed. *)
Definition value {A} (d : A) (r : result A) : A :=
  match r with Ok a => a | Raise _ => d end.

Section RowNotions.
Variables (v_min v_max gamma : Q) (support : list Q) (atom_size : Z).

(** The quantities of the projection for one batch row [x]: its
    fractional positions, its two index rows, its two source rows, and its
    accumulator after the first and after the second scatter-add. *)
Definition b_row (x : Q * Q * list Q) : list Q :=
  map (fun z => (clamp v_min v_max (x.1.1 + (1 - x.1.2) * gamma * z) - v_min)
                / ((v_max - v_min) / float (atom_size - 1)))%Q
      support.
Definition l_row (x : Q * Q * list Q) : list Z := map Qfloor (b_row x).
Definition u_row (x : Q * Q * list Q) : list Z := map Qceiling (b_row x).
Definition sl_row (x : Q * Q * list Q) : list Q :=
  zip_with Qmult x.2 (zip_with (fun bi ui => float ui - bi)%Q (b_row x) (u_row x)).
Definition su_row (x : Q * Q * list Q) : list Q :=
  zip_with Qmult x.2 (zip_with (fun bi li => bi - float li)%Q (b_row x) (l_row x)).
Definition pass1 (x : Q * Q * list Q) : list Q :=
  value [] (index_add_ (replicate (length x.2) 0%Q) (l_row x) (sl_row x)).
Definition pass2 (x : Q * Q * list Q) : list Q :=
  value [] (index_add_ (pass1 x) (u_row x) (su_row x)).

End RowNotions.

(** The epsilons of [n] successive updates that start from [eps]. *)
Definition decay_chain (f : Q -> Q) (eps : Q) (n : nat) : list Q :=
  map (fun i => Nat.iter (S i) f eps) (seq 0 n).

(** A one-hot distribution over [n] atoms. *)
Definition one_hot (n i : nat) : list Q :=
  map (fun k => if decide (k = i) then 1%Q else 0%Q) (seq 0 n).

(** ** A small concrete world

    A deterministic stand-in for each collaborator, on which the model runs
    by computation: scalar observations, a counter as environment, one
    trainable weight, and a counter as random state.  [softmax] and [log]
    have no rational values; their stand-ins are the uniform distribution
    and [q - 1]. *)

Module Toy.

Global Instance obs : Observation Q := fun _ => 0%Q.

Global Instance env : Env Q nat := {|
  observation_dim := fun _ => 1%nat;
  action_n := fun _ => 2%nat;
  env_reset := fun e => (0%Q, e);
  env_step := fun a e => ((float (Z.of_nat e), 1%Q, (e mod 3 =? 2)%nat), S e);
  action_space_sample := fun e => (Z.of_nat (e mod 2), S e);
  env_close := fun e => e
|}.

Global Instance torch : Torch Q (nat * Q) unit nat := {|
  new_layers := fun _ o g => ((o, float (Z.of_nat g)), S g);
  layers := fun θ x => map (fun i => θ.2 * x + float (Z.of_nat i))%Q (seq 0 θ.1);
  softmax := fun row => map (fun _ => 1 / float (Z.of_nat (length row)))%Q row;
  log := fun q => (q - 1)%Q;
  Adam := fun _ => tt;
  optimizer_step := fun _ θ o => ((θ.1, θ.2 - (1 # 10))%Q, o)
|}.

Global Instance rng : RandomState nat := {|
  random := fun r => ((Z.of_nat (r mod 10) # 10)%Q, S r);
  random_interval := fun i r => ((7 * r + 3)%nat, S r)
|}.

(** [DQNAgent(env, memory_size, batch_size, target_update, epsilon_decay,
    max_epsilon, min_epsilon, gamma, v_min, v_max, atom_size)] on the toy
    collaborators, each started in its state [0]. *)
Definition agent (memory_size batch_size target_update : Z)
    (epsilon_decay max_epsilon min_epsilon gamma v_min v_max : Q) (atom_size : Z)
  : result (DQNAgent.t Q nat (nat * Q) unit nat) :=
  DQNAgent.init (0%nat : nat) memory_size batch_size target_update epsilon_decay
    max_epsilon min_epsilon gamma v_min v_max atom_size (0%nat : nat) (0%nat : nat).

(** A full buffer of capacity 2, cursor on row 0. *)
Definition buffer2 : ReplayBuffer.t Q :=
  ReplayBuffer.mk [1%Q; 2%Q] [2%Q; 3%Q] [0%Q; 1%Q] [1%Q; 1%Q] [0%Q; 0%Q] 2 2 0 2.

End Toy.

(** ** Evaluation

    The method [test] of [DQNAgent].  It needs one more collaborator, the
    renderer of the environment, and is kept in a module of its own.  Its
    [print] of the score writes to the console only and is left out. *)

(** [env.render(mode="rgb_array")]: the frame of the current state. *)
Class Render (E F : Type) := env_render : E -> F * E.

Module Evaluation.
Section Def.
Context {Obs E P O G R F : Type}.
Context `{Observation Obs} `{Env Obs E} `{Torch Obs P O G} `{RandomState R} `{Render E F}.
Import DQNAgent.

(** The [while not done:] loop of [test], which runs for as long as the
    episode does: [fuel] bounds the number of iterations, and [None] says
    that the loop was still running when it ran out. *)
Fixpoint test_loop (fuel : nat) (state : Obs) (score : Q) (frames : list F)
  : M (DQNAgent.t Obs E P O R) (option (list F)) :=
  match fuel with
  | 0%nat => mret None
  | S fuel' =>
      frame ← zoom env set_env (call env_render);
      let frames := frames ++ [frame] in
      action ← select_action state;
      '(next_state, reward, done_) ← step action;
      let score := (score + reward)%Q in
      if done_ : bool then mret (Some frames)
      else test_loop fuel' next_state score frames
  end.

(** [test()]: one episode in test mode; returns the rendered frames. *)
Definition test (fuel : nat) : M (DQNAgent.t Obs E P O R) (option (list F)) :=
  modify (set_is_test true);;
  state ← zoom env set_env (call env_reset);
  r ← test_loop fuel state 0%Q [];
  match r with
  | Some frames =>
      modify (fun self => set_env (env_close (env self)) self);;
      mret (Some frames)
  | None => mret None
  end.

(** One pass through the body of the loop: a frame is rendered, an action
    selected and one step taken. *)
Definition test_iteration (state : Obs)
  : M (DQNAgent.t Obs E P O R) (F * (Obs * Q * bool)) :=
  frame ← zoom env set_env (call env_render);
  action ← select_action state;
  r ← step action;
  mret (frame, r).

(** [episode state s its s']: from [state] and the agent [s], the loop
    makes the passes [its], each with the frame it rendered and the answer
    of its step, none of which raises; the last one, and only that one,
    reports [done], and leaves the agent [s']. *)
Inductive episode
  : Obs -> DQNAgent.t Obs E P O R -> list (F * (Obs * Q * bool))
    -> DQNAgent.t Obs E P O R -> Prop :=
  | episode_done state s frame o rew s1 :
      test_iteration state s = (Ok (frame, (o, rew, true)), s1) ->
      episode state s [(frame, (o, rew, true))] s1
  | episode_step state s frame o rew s1 its s2 :
      test_iteration state s = (Ok (frame, (o, rew, false)), s1) ->
      episode o s1 its s2 ->
      episode state s ((frame, (o, rew, false)) :: its) s2.

End Def.
End Evaluation.

(** ** Further notions *)

(** Row [k] of a sampled batch. *)
Definition batch_at {Obs} (batch : ReplayBuffer.Batch Obs) (k : nat)
  : option (Obs * Q * Q * Obs * Q) :=
  o ← ReplayBuffer.b_obs batch !! k;
  a ← ReplayBuffer.b_acts batch !! k;
  r ← ReplayBuffer.b_rews batch !! k;
  o' ← ReplayBuffer.b_next_obs batch !! k;
  d ← ReplayBuffer.b_done batch !! k;
  Some (o, a, r, o', d).

Section LearningState.
Context {Obs E P O R : Type}.

(** What an agent keeps through an evaluation episode. *)
Definition learning_state (s : DQNAgent.t Obs E P O R) :=
  (DQNAgent.hp s, DQNAgent.memory s, DQNAgent.epsilon s, DQNAgent.dqn s,
   DQNAgent.dqn_target s, DQNAgent.optimizer s, DQNAgent.transition s,
   DQNAgent.is_test s).

End LearningState.

(** ** More of the small concrete world: a renderer and four transitions *)

Module ToyEpisode.

Global Instance render : Render nat nat := fun e => (e, e).

Definition transitions : list (Q * Z * Q * Q * bool) :=
  [(0%Q, 1, 1%Q, 1%Q, false); (1%Q, 0, 1%Q, 2%Q, false);
   (2%Q, 1, 1%Q, 3%Q, true); (0%Q, 0, 1%Q, 1%Q, false)].

End ToyEpisode.

(** * Properties *)

Ltac rsimpl := cbv beta iota delta [mbind result_bind].
Ltac msimpl :=
  cbv [mbind M_bind bind mret M_ret ret raise get gets modify lift zoom
       DQNAgent.call result_bind result_ret] in *.

(** ** Lists as ring buffers *)

Section Ring.
Context {A : Type}.
Implicit Types (l : list A) (x : A) (p : nat).

(** Overwriting the oldest row and advancing the cursor drops the head of
    the oldest-first view and appends the new row. *)
Lemma ring_write l p x :
  (p < length l)%nat ->
  rotate ((p + 1) mod length l) (<[p := x]> l) = drop 1 (rotate p l) ++ [x].
Proof.
  intros Hp. unfold rotate. rewrite length_insert.
  rewrite (Nat.mod_small p) by done.
  rewrite Nat.Div0.mod_mod.
  destruct (lookup_lt_is_Some_2 l p Hp) as [y Hy].
  rewrite (drop_S l y p Hy). cbn [app drop]. rewrite drop_0.
  destruct (decide (p + 1 = length l)%nat) as [Heq|Hne].
  - rewrite Heq, Nat.Div0.mod_same. rewrite drop_0, take_0, app_nil_r.
    rewrite insert_take_drop by done.
    rewrite (drop_ge l (S p)) by lia. by rewrite app_nil_l.
  - rewrite (Nat.mod_small (p + 1)) by lia.
    replace (p + 1)%nat with (S p) by lia.
    rewrite drop_insert_lt by lia.
    rewrite (take_S_r (<[p:=x]> l) p x) by (by apply list_lookup_insert_eq).
    rewrite take_insert_ge by lia.
    by rewrite <- app_assoc.
Qed.

Lemma ring_write_many l p x (xs : list A) (n : nat) :
  (0 < length l)%nat ->
  drop n (drop 1 (rotate p l) ++ [x] ++ xs)
  = drop (S n) (rotate p l ++ x :: xs).
Proof.
  intros Hl.
  assert (Hr : (0 < length (rotate p l))%nat) by (rewrite length_rotate; lia).
  destruct (rotate p l) as [|y ys]; [simpl in Hr; lia|].
  reflexivity.
Qed.

Lemma ring_lookup l p j :
  (j < length l)%nat ->
  rotate p l !! j = l !! ((p + j) mod length l)%nat.
Proof.
  intros Hj. rewrite lookup_rotate_r by done. f_equal.
  unfold rotate_nat_add. rewrite <- Nat2Z.inj_add, <- Nat2Z.inj_mod.
  apply Nat2Z.id.
Qed.

End Ring.

(** ** ReplayBuffer *)

Section ReplayBufferProps.
Context {Obs : Type} `{Observation Obs}.
Implicit Types (b : ReplayBuffer.t Obs) (x : store_args (Obs := Obs)).

Import ReplayBuffer.

Lemma write_ok {A} (buf : t Obs -> list A) set (v : A) b :
  (ptr b < length (buf b))%nat ->
  write buf set v b = (Ok tt, set (<[ptr b := v]> (buf b)) b).
Proof.
  intros Hp. unfold write, setitem. msimpl.
  destruct (decide (ptr b < length (buf b))%nat); [done|lia].
Qed.

Lemma write_fail {A} (buf : t Obs -> list A) set (v : A) b :
  (length (buf b) <= ptr b)%nat ->
  write buf set v b = (Raise IndexError, b).
Proof.
  intros Hp. unfold write, setitem. msimpl.
  destruct (decide (ptr b < length (buf b))%nat); [lia|done].
Qed.

Lemma store_ok b o a r o' d :
  buffer_inv b -> (0 < max_size b)%nat ->
  store o a r o' d b = (Ok tt, after_store b o a r o' d).
Proof.
  intros (H1 & H2 & H3 & H4 & H5 & Hs & Hp) Hpos. specialize (Hp Hpos).
  unfold store. msimpl.
  rewrite write_ok by lia. cbn.
  rewrite write_ok by (cbn; lia). cbn.
  rewrite write_ok by (cbn; lia). cbn.
  rewrite write_ok by (cbn; lia). cbn.
  rewrite write_ok by (cbn; lia). cbn.
  destruct (decide (max_size b = 0)%nat); [lia|]. reflexivity.
Qed.

Lemma store_empty b o a r o' d :
  buffer_inv b -> max_size b = 0%nat ->
  store o a r o' d b = (Raise IndexError, b).
Proof.
  intros (H1 & _) H0. unfold store. msimpl.
  rewrite write_fail by lia. reflexivity.
Qed.

Lemma init_inv obs_dim n bs b :
  init obs_dim n bs = Ok b ->
  buffer_inv b /\ max_size b = Z.to_nat n /\ batch_size b = bs /\
  ptr b = 0%nat /\ size b = 0%nat.
Proof.
  unfold init. destruct (n <? 0); [done|]. intros [= <-]. cbn.
  unfold buffer_inv. cbn. rewrite !length_replicate. repeat split; lia.
Qed.

Lemma after_store_inv b o a r o' d :
  buffer_inv b -> (0 < max_size b)%nat -> buffer_inv (after_store b o a r o' d).
Proof.
  intros (H1 & H2 & H3 & H4 & H5 & Hs & Hp) Hpos.
  unfold buffer_inv, after_store. cbn. rewrite !length_insert.
  repeat split; try lia. intros _. apply Nat.mod_upper_bound. lia.
Qed.

(** After a sequence of [store] calls, each array, read oldest-first from
    the cursor, is the old view followed by the stored values, minus as many
    leading rows as were stored. *)
Lemma stores_spec xs : forall b,
  buffer_inv b -> (0 < max_size b)%nat ->
  exists b', stores xs b = (Ok tt, b') /\ buffer_inv b' /\
    max_size b' = max_size b /\ batch_size b' = batch_size b /\
    size b' = Nat.min (size b + length xs) (max_size b) /\
    ptr b' = ((ptr b + length xs) mod max_size b)%nat /\
    rotate (ptr b') (obs_buf b')
      = drop (length xs) (rotate (ptr b) (obs_buf b) ++ map (fun x => (stored x).1.1.1.1) xs) /\
    rotate (ptr b') (acts_buf b')
      = drop (length xs) (rotate (ptr b) (acts_buf b) ++ map (fun x => (stored x).1.1.1.2) xs) /\
    rotate (ptr b') (rews_buf b')
      = drop (length xs) (rotate (ptr b) (rews_buf b) ++ map (fun x => (stored x).1.1.2) xs) /\
    rotate (ptr b') (next_obs_buf b')
      = drop (length xs) (rotate (ptr b) (next_obs_buf b) ++ map (fun x => (stored x).1.2) xs) /\
    rotate (ptr b') (done_buf b')
      = drop (length xs) (rotate (ptr b) (done_buf b) ++ map (fun x => (stored x).2) xs).
Proof.
  induction xs as [|[[[[o a] r] o'] d] xs IH]; intros b Hinv Hpos.
  - exists b. cbn. rewrite !app_nil_r, !drop_0, !Nat.add_0_r.
    destruct Hinv as (? & ? & ? & ? & ? & ? & Hp).
    specialize (Hp Hpos). rewrite Nat.min_l by lia. rewrite Nat.mod_small by lia.
    repeat split; auto.
  - pose proof (after_store_inv b o a r o' d Hinv Hpos) as Hinv1.
    destruct (IH (after_store b o a r o' d) Hinv1 Hpos)
      as (b' & Hrun & Hinv' & Hmax & Hbs & Hsize & Hptr & Ho & Ha & Hr & Ho' & Hd).
    exists b'. cbn [stores]. msimpl. rewrite store_ok by done.
    destruct Hinv as (L1 & L2 & L3 & L4 & L5 & Hs & Hp). specialize (Hp Hpos).
    cbn in Hmax, Hbs, Hsize, Hptr.
    split_and!; try done.
    + rewrite Hsize. cbn [length]. lia.
    + rewrite Hptr. cbn [length]. rewrite Nat.Div0.add_mod_idemp_l. f_equal. lia.
    + rewrite Ho. cbn [after_store obs_buf ptr].
      rewrite <- L1 at 1. rewrite ring_write by lia.
      rewrite <- app_assoc. cbn [length map]. apply ring_write_many. lia.
    + rewrite Ha. cbn [after_store acts_buf ptr].
      rewrite <- L3 at 1. rewrite ring_write by lia.
      rewrite <- app_assoc. cbn [length map]. apply ring_write_many. lia.
    + rewrite Hr. cbn [after_store rews_buf ptr].
      rewrite <- L4 at 1. rewrite ring_write by lia.
      rewrite <- app_assoc. cbn [length map]. apply ring_write_many. lia.
    + rewrite Ho'. cbn [after_store next_obs_buf ptr].
      rewrite <- L2 at 1. rewrite ring_write by lia.
      rewrite <- app_assoc. cbn [length map]. apply ring_write_many. lia.
    + rewrite Hd. cbn [after_store done_buf ptr].
      rewrite <- L5 at 1. rewrite ring_write by lia.
      rewrite <- app_assoc. cbn [length map]. apply ring_write_many. lia.
Qed.

(** [store] keeps the class invariant, whether it succeeds or raises. *)
Lemma store_keeps_inv b o a r o' d :
  buffer_inv b -> buffer_inv (store o a r o' d b).2.
Proof.
  intros Hinv. destruct (decide (0 < max_size b)%nat) as [Hpos|Hz].
  - rewrite store_ok by done. by apply after_store_inv.
  - rewrite store_empty by (done || lia). done.
Qed.

Lemma transition_at_after_store b o a r o' d i :
  buffer_inv b -> (0 < max_size b)%nat ->
  transition_at (after_store b o a r o' d) i
  = if decide (i = ptr b) then Some (stored (o, a, r, o', d)) else transition_at b i.
Proof.
  intros (L1 & L2 & L3 & L4 & L5 & Hs & Hp) Hpos. specialize (Hp Hpos).
  unfold transition_at, after_store. cbn.
  destruct (decide (i = ptr b)) as [->|Hne].
  - rewrite !list_lookup_insert_eq by lia. reflexivity.
  - rewrite !list_lookup_insert_ne by done. reflexivity.
Qed.

(** C5, as amended: on every buffer of capacity at least one, [store]
    succeeds, writes the transition into row [ptr] and no other row, sets
    [ptr] to [(ptr + 1) mod capacity] and [size] to
    [min (size + 1) capacity]; and after at least [capacity] calls
    [len()] is the capacity and the rows, read from the cursor on, are the
    last [capacity] stored transitions, oldest first. *)
Theorem store_ring_buffer b :
  buffer_inv b -> (0 < max_size b)%nat ->
  (forall o a r o' d, exists b1,
      store o a r o' d b = (Ok tt, b1) /\
      transition_at b1 (ptr b) = Some (stored (o, a, r, o', d)) /\
      (forall i, i <> ptr b -> transition_at b1 i = transition_at b i) /\
      ptr b1 = ((ptr b + 1) mod max_size b)%nat /\
      size b1 = Nat.min (size b + 1) (max_size b) /\
      max_size b1 = max_size b) /\
  (forall xs, (max_size b <= length xs)%nat ->
      exists b', stores xs b = (Ok tt, b') /\
        len b' = max_size b /\
        forall j, (j < max_size b)%nat ->
          transition_at b' ((ptr b' + j) mod max_size b)%nat
          = (stored <$> xs) !! (length xs - max_size b + j)%nat).
Proof.
  intros Hinv Hpos. split.
  - intros o a r o' d. exists (after_store b o a r o' d).
    split; [by apply store_ok|].
    split; [rewrite transition_at_after_store by done; by rewrite decide_True|].
    split; [|done].
    intros i Hi. rewrite transition_at_after_store by done. by rewrite decide_False.
  - intros xs Hlen.
    destruct (stores_spec xs b Hinv Hpos)
      as (b' & Hrun & Hinv' & Hmax & Hbs & Hsize & Hptr & Ho & Ha & Hr & Ho' & Hd).
    exists b'. split; [done|]. split; [unfold len; lia|].
    intros j Hj.
    destruct Hinv as (L1 & L2 & L3 & L4 & L5 & _).
    destruct Hinv' as (M1 & M2 & M3 & M4 & M5 & _). rewrite Hmax in M1, M2, M3, M4, M5.
    assert (Hview : forall {A} (arr arr' : list A) (f : store_args -> A),
      length arr = max_size b -> length arr' = max_size b ->
      rotate (ptr b') arr' = drop (length xs) (rotate (ptr b) arr ++ map f xs) ->
      arr' !! ((ptr b' + j) mod max_size b)%nat
      = f <$> xs !! (length xs - max_size b + j)%nat).
    { intros A arr arr' f La La' Hrot.
      rewrite <- La' at 1. rewrite <- ring_lookup by lia. rewrite Hrot.
      rewrite drop_app_ge by (rewrite length_rotate; lia).
      rewrite length_rotate, La, lookup_drop, list_lookup_fmap. done. }
    unfold transition_at.
    rewrite (Hview _ _ _ _ L1 M1 Ho), (Hview _ _ _ _ L3 M3 Ha),
            (Hview _ _ _ _ L4 M4 Hr), (Hview _ _ _ _ L2 M2 Ho'),
            (Hview _ _ _ _ L5 M5 Hd).
    rewrite list_lookup_fmap.
    destruct (xs !! (length xs - max_size b + j)%nat) as [[[[[o a] r] o'] d]|]; done.
Qed.

End ReplayBufferProps.

(** ** Sampling without replacement *)

Section Sampling.
Context {Obs R : Type} `{Observation Obs} `{RandomState R}.
Implicit Types (b : ReplayBuffer.t Obs) (r : R).

Lemma swap_perm (x : list nat) i j : swap x i j ≡ₚ x.
Proof.
  unfold swap.
  destruct (x !! i) as [xi|] eqn:Hi; [|done].
  destruct (x !! j) as [xj|] eqn:Hj; [|done].
  by apply Permutation_insert_swap.
Qed.

(** The shuffle never raises and permutes its argument. *)
Lemma shuffle_perm i : forall (x : list nat) r,
  exists x' r', shuffle i x r = (Ok x', r') /\ x' ≡ₚ x.
Proof.
  induction i as [|i IH]; intros x r.
  - exists x, r. done.
  - cbn [shuffle]. msimpl.
    destruct (random_interval (S i) r) as [j r1].
    destruct (IH (swap x (S i) (j mod S (S i))%nat) r1) as (x' & r' & Hrun & Hperm).
    exists x', r'. split; [done|]. by rewrite Hperm, swap_perm.
Qed.

Lemma choice_ok n k r :
  0 <= k <= Z.of_nat n ->
  exists idxs r', choice n k r = (Ok idxs, r') /\
    length idxs = Z.to_nat k /\ NoDup idxs /\ forall i, i ∈ idxs -> (i < n)%nat.
Proof.
  intros Hk. unfold choice, permutation.
  destruct (Z.ltb_spec k 0); [lia|].
  destruct (Z.ltb_spec (Z.of_nat n) k); [lia|].
  destruct (shuffle_perm (n - 1) (seq 0 n) r) as (x' & r' & Hrun & Hperm).
  msimpl. rewrite Hrun. exists (take (Z.to_nat k) x'), r'.
  split; [done|].
  assert (Hlen : length x' = n) by (by rewrite Hperm, length_seq).
  split; [rewrite length_take; lia|].
  assert (Hnd : NoDup x') by (rewrite Hperm; apply NoDup_seq).
  split.
  - rewrite <- (take_drop (Z.to_nat k) x') in Hnd. by apply NoDup_app in Hnd as [? _].
  - intros i Hi. apply elem_of_take in Hi as (j & Hj & _).
    apply list_elem_of_lookup_2 in Hj. rewrite Hperm in Hj.
    apply elem_of_seq in Hj. lia.
Qed.

Lemma choice_short n k r :
  Z.of_nat n < k -> choice n k r = (Raise ValueError, r).
Proof.
  intros Hk. unfold choice.
  destruct (Z.ltb_spec k 0); [lia|].
  destruct (Z.ltb_spec (Z.of_nat n) k); [done|lia].
Qed.

Lemma getitems_ok {A} (a : list A) idxs :
  (forall i, i ∈ idxs -> (i < length a)%nat) ->
  exists xs, getitems a idxs = Ok xs /\ Some <$> xs = (a !!.) <$> idxs.
Proof.
  induction idxs as [|i idxs IH]; intros Hin.
  - by exists [].
  - destruct IH as (xs & Hxs & Hmap).
    { intros j Hj. apply Hin. by right. }
    destruct (lookup_lt_is_Some_2 a i) as [x Hx].
    { apply Hin. by left. }
    exists (x :: xs). cbn [getitems]. unfold getitem. rewrite Hx, Hxs.
    split; [done|]. cbn. by rewrite Hx, Hmap.
Qed.

(** C6: on a buffer that satisfies the class invariant, [sample_batch]
    with [0 <= batch_size <= size] draws [batch_size] pairwise distinct
    indices below [size] and returns, array by array, the rows at these
    indices in the order drawn; with [batch_size > size] it raises (numpy's
    [ValueError]) and leaves the random state alone. *)
Theorem sample_batch_without_replacement b r :
  buffer_inv b ->
  (0 <= ReplayBuffer.batch_size b <= Z.of_nat (ReplayBuffer.size b) ->
     exists idxs batch r',
       ReplayBuffer.sample_batch b r = (Ok batch, r') /\
       length idxs = Z.to_nat (ReplayBuffer.batch_size b) /\
       NoDup idxs /\
       (forall i, i ∈ idxs -> (i < ReplayBuffer.size b)%nat) /\
       Some <$> ReplayBuffer.b_obs batch = (ReplayBuffer.obs_buf b !!.) <$> idxs /\
       Some <$> ReplayBuffer.b_next_obs batch = (ReplayBuffer.next_obs_buf b !!.) <$> idxs /\
       Some <$> ReplayBuffer.b_acts batch = (ReplayBuffer.acts_buf b !!.) <$> idxs /\
       Some <$> ReplayBuffer.b_rews batch = (ReplayBuffer.rews_buf b !!.) <$> idxs /\
       Some <$> ReplayBuffer.b_done batch = (ReplayBuffer.done_buf b !!.) <$> idxs) /\
  (Z.of_nat (ReplayBuffer.size b) < ReplayBuffer.batch_size b ->
     ReplayBuffer.sample_batch b r = (Raise ValueError, r)).
Proof.
  intros (L1 & L2 & L3 & L4 & L5 & Hs & _). split.
  - intros Hk.
    destruct (choice_ok (ReplayBuffer.size b) (ReplayBuffer.batch_size b) r Hk)
      as (idxs & r' & Hrun & Hlen & Hnd & Hlt).
    destruct (getitems_ok (ReplayBuffer.obs_buf b) idxs) as (o & Ho & Ho').
    { intros i Hi. specialize (Hlt i Hi). lia. }
    destruct (getitems_ok (ReplayBuffer.next_obs_buf b) idxs) as (n & Hn & Hn').
    { intros i Hi. specialize (Hlt i Hi). lia. }
    destruct (getitems_ok (ReplayBuffer.acts_buf b) idxs) as (a & Ha & Ha').
    { intros i Hi. specialize (Hlt i Hi). lia. }
    destruct (getitems_ok (ReplayBuffer.rews_buf b) idxs) as (w & Hw & Hw').
    { intros i Hi. specialize (Hlt i Hi). lia. }
    destruct (getitems_ok (ReplayBuffer.done_buf b) idxs) as (d & Hd & Hd').
    { intros i Hi. specialize (Hlt i Hi). lia. }
    exists idxs, (ReplayBuffer.mkBatch o n a w d), r'.
    split; [|done].
    unfold ReplayBuffer.sample_batch, ReplayBuffer.gather. msimpl.
    rewrite Hrun, Ho, Hn, Ha, Hw, Hd. done.
  - intros Hk. unfold ReplayBuffer.sample_batch. msimpl.
    by rewrite choice_short.
Qed.

End Sampling.

(** ** The flattened scatter-add *)

Section ScatterAdd.
Implicit Types (acc pre mid post : list Q) (ix : list Z) (sx : list Q).

Lemma index_add_length ix : forall acc sx acc',
  index_add_ acc ix sx = Ok acc' -> length acc' = length acc /\ length ix = length sx.
Proof.
  induction ix as [|j ix IH]; intros acc [|x sx] acc' Hrun; cbn in Hrun; try done.
  - by injection Hrun as <-.
  - destruct ((0 <=? j) && (j <? Z.of_nat (length acc))); [|done].
    apply IH in Hrun as [Hl Hl2]. rewrite length_alter in Hl. cbn. split; [done|lia].
Qed.

Lemma index_add_app ix1 : forall acc sx1 ix2 sx2,
  length ix1 = length sx1 ->
  index_add_ acc (ix1 ++ ix2) (sx1 ++ sx2)
  = acc' ← index_add_ acc ix1 sx1; index_add_ acc' ix2 sx2.
Proof.
  induction ix1 as [|j ix1 IH]; intros acc [|x sx1] ix2 sx2 Hlen; cbn in Hlen; try done.
  cbn. destruct ((0 <=? j) && (j <? Z.of_nat (length acc))); [|done].
  apply IH. lia.
Qed.

(** A scatter-add whose positions all fall into one slice of the
    accumulator is a scatter-add on that slice. *)
Lemma index_add_slice ix : forall pre mid post sx mid',
  index_add_ mid ix sx = Ok mid' ->
  index_add_ (pre ++ mid ++ post) (map (fun j => j + Z.of_nat (length pre)) ix) sx
  = Ok (pre ++ mid' ++ post).
Proof.
  induction ix as [|j ix IH]; intros pre mid post [|x sx] mid' Hrun; cbn in Hrun; try done.
  - by injection Hrun as <-.
  - destruct (Z.leb_spec 0 j) as [H0|]; [|done].
    destruct (Z.ltb_spec j (Z.of_nat (length mid))) as [H1|]; [|done].
    cbn [andb] in Hrun.
    cbn [map index_add_]. rewrite !length_app.
    destruct (Z.leb_spec 0 (j + Z.of_nat (length pre))); [|lia].
    destruct (Z.ltb_spec (j + Z.of_nat (length pre))
                (Z.of_nat (length pre + (length mid + length post)))); [|lia].
    cbn [andb].
    replace (Z.to_nat (j + Z.of_nat (length pre)))
      with (length pre + Z.to_nat j)%nat by lia.
    rewrite alter_app_r, alter_app_l by lia.
    apply IH. done.
Qed.

Lemma index_add_ok ix : forall acc sx,
  length ix = length sx ->
  Forall (fun j => 0 <= j < Z.of_nat (length acc)) ix ->
  exists acc', index_add_ acc ix sx = Ok acc'.
Proof.
  induction ix as [|j ix IH]; intros acc [|x sx] Hlen Hall; cbn in Hlen; try done.
  - by exists acc.
  - apply Forall_cons in Hall as [[H0 H1] Hall]. cbn.
    apply Z.leb_le in H0. apply Z.ltb_lt in H1. rewrite H0, H1. cbn.
    apply IH; [lia|]. by rewrite length_alter.
Qed.

Lemma rows_add_length rows : forall idx src rows',
  rows_add rows idx src = Ok rows' ->
  map length rows' = map length rows /\ map length idx = map length src.
Proof.
  induction rows as [|row rows IH]; intros [|ix idx] [|sx src] rows' Hrun;
    cbn in Hrun; try done.
  - by injection Hrun as <-.
  - destruct (index_add_ row ix sx) as [row'|] eqn:Hrow; [|done].
    destruct (rows_add rows idx src) as [rest|] eqn:Hrest; [|done].
    cbn in Hrun. injection Hrun as <-.
    apply index_add_length in Hrow as [Hr1 Hr2].
    apply IH in Hrest as [Hs1 Hs2]. cbn. by rewrite Hr1, Hr2, Hs1, Hs2.
Qed.

(** The flattened scatter-add with per-row offsets is the row-wise
    scatter-add: nothing crosses a row boundary. *)
Lemma index_add_rows (width : nat) rows : forall idx src rows' pre,
  Forall (fun row => length row = width) rows ->
  rows_add rows idx src = Ok rows' ->
  index_add_ (pre ++ concat rows)
             (concat (shift_rows (Z.of_nat (length pre)) (Z.of_nat width) idx))
             (concat src)
  = Ok (pre ++ concat rows').
Proof.
  induction rows as [|row rows IH]; intros [|ix idx] [|sx src] rows' pre Hw Hrun;
    cbn in Hrun; try done.
  - by injection Hrun as <-.
  - destruct (index_add_ row ix sx) as [row'|] eqn:Hrow; [|done].
    destruct (rows_add rows idx src) as [rest|] eqn:Hrest; [|done].
    cbn in Hrun. injection Hrun as <-.
    apply Forall_cons in Hw as [Hrowlen Hw].
    destruct (index_add_length _ _ _ _ Hrow) as [Hlen' Hlen].
    cbn [shift_rows concat].
    rewrite index_add_app by (by rewrite length_map).
    rewrite (index_add_slice ix pre row (concat rows) sx row' Hrow). cbn.
    rewrite !(app_assoc pre).
    replace (Z.of_nat (length pre) + Z.of_nat width)
      with (Z.of_nat (length (pre ++ row'))) by (rewrite length_app; lia).
    by apply IH.
Qed.

End ScatterAdd.

(** ** Fractional positions and offsets *)

Section Positions.
Local Open Scope Q_scope.

Lemma clamp_range lo hi x : lo <= hi -> lo <= clamp lo hi x <= hi.
Proof.
  intros Hle. unfold clamp.
  destruct (Q.min_spec (Qmax x lo) hi) as [[? ->]|[? ->]];
  destruct (Q.max_spec x lo) as [[? Hm]|[? Hm]]; rewrite ?Hm in *; split; lra.
Qed.

Lemma clamp_low lo hi x : lo <= hi -> x <= lo -> clamp lo hi x == lo.
Proof.
  intros Hle Hx. unfold clamp.
  destruct (Q.min_spec (Qmax x lo) hi) as [[? ->]|[? ->]];
  destruct (Q.max_spec x lo) as [[? Hm]|[? Hm]]; rewrite ?Hm in *; lra.
Qed.

Lemma clamp_high lo hi x : lo <= hi -> hi <= x -> clamp lo hi x == hi.
Proof.
  intros Hle Hx. unfold clamp.
  destruct (Q.min_spec (Qmax x lo) hi) as [[? ->]|[? ->]];
  destruct (Q.max_spec x lo) as [[? Hm]|[? Hm]]; rewrite ?Hm in *; lra.
Qed.

Lemma float_pos (n : Z) : (0 < n)%Z -> 0 < float n.
Proof. intros Hn. change (inject_Z 0 < inject_Z n). by rewrite <- Zlt_Qlt. Qed.

Lemma delta_z_pos v_min v_max (atom_size : Z) :
  v_min < v_max -> (2 <= atom_size)%Z ->
  0 < (v_max - v_min) / float (atom_size - 1).
Proof.
  intros Hv Ha. apply Qlt_shift_div_l; [apply float_pos; lia|lra].
Qed.

(** Every fractional position lies on the index range of the support. *)
Lemma b_range v_min v_max (atom_size : Z) x :
  v_min < v_max -> (2 <= atom_size)%Z ->
  let bi := (clamp v_min v_max x - v_min) / ((v_max - v_min) / float (atom_size - 1)) in
  0 <= bi <= float (atom_size - 1).
Proof.
  intros Hv Ha bi. subst bi.
  pose proof (delta_z_pos v_min v_max atom_size Hv Ha) as Hdz.
  pose proof (float_pos (atom_size - 1) ltac:(lia)) as Hf.
  destruct (clamp_range v_min v_max x ltac:(lra)) as [Hlo Hhi].
  split.
  - apply Qle_shift_div_l; [done|lra].
  - apply Qle_shift_div_r; [done|].
    assert (E : float (atom_size - 1) * ((v_max - v_min) / float (atom_size - 1))
                == v_max - v_min) by (field; lra).
    rewrite E. lra.
Qed.

Lemma floor_ceiling_range (bi : Q) (n : Z) :
  0 <= bi <= float n ->
  (0 <= Qfloor bi <= n)%Z /\ (0 <= Qceiling bi <= n)%Z.
Proof.
  intros [H0 Hn]. unfold float in Hn.
  pose proof (Qfloor_resp_le _ _ H0) as F0. change (Qfloor 0) with 0%Z in F0.
  pose proof (Qceiling_resp_le _ _ Hn) as Cn. rewrite Qceiling_Z in Cn.
  pose proof (Qle_floor_ceiling bi) as FC. rewrite <- Zle_Qle in FC. lia.
Qed.

Lemma long_Z (q : Q) (n : Z) : q == float n -> long q = n.
Proof.
  intros Hq. unfold long, float in *.
  destruct (Qle_bool 0 q); rewrite Hq; [apply Qfloor_Z|apply Qceiling_Z].
Qed.

End Positions.

Lemma offset_rows (batch_size atom_size : Z) :
  0 <= batch_size -> 0 <= atom_size ->
  Projection.offset batch_size atom_size
  = Ok (map (fun k => replicate (Z.to_nat atom_size) (Z.of_nat k * atom_size))
            (seq 0 (Z.to_nat batch_size))).
Proof.
  intros Hb Ha. unfold Projection.offset, linspace.
  destruct (Z.ltb_spec batch_size 0); [lia|]. cbn.
  destruct (Z.ltb_spec atom_size 0); [lia|].
  rewrite map_map. f_equal. apply map_ext_in. intros k Hk.
  apply in_seq in Hk. f_equal. apply long_Z.
  destruct (decide (batch_size = 1)) as [->|Hne].
  - assert (k = 0%nat) as -> by lia. unfold float. cbn. reflexivity.
  - pose proof (float_pos (batch_size - 1) ltac:(lia)) as Hf.
    unfold float in *. rewrite !inject_Z_mult. field. lra.
Qed.

(** ** Generic list lemmas *)

Lemma zip_with_rows {X B C D} (f : B -> C -> D) (g : X -> B) (h : X -> C) (rows : list X) :
  zip_with f (map g rows) (map h rows) = map (fun x => f (g x) (h x)) rows.
Proof. induction rows as [|x rows IH]; cbn; [done|by rewrite IH]. Qed.

Lemma elementwise_rows {X B C D} (f : B -> C -> D) (g : X -> list B) (h : X -> list C)
    (rows : list X) :
  (forall x, x ∈ rows -> length (g x) = length (h x)) ->
  Projection.elementwise f (map g rows) (map h rows)
  = Ok (map (fun x => zip_with f (g x) (h x)) rows).
Proof.
  intros Hlen. unfold Projection.elementwise.
  rewrite decide_True.
  - by rewrite zip_with_rows.
  - rewrite !map_map. apply map_ext_in. intros x Hx. apply Hlen.
    by apply list_elem_of_In.
Qed.

Lemma zip_with_replicate_add (ix : list Z) (c : Z) n :
  length ix = n -> zip_with Z.add ix (replicate n c) = map (fun j => j + c) ix.
Proof.
  revert n. induction ix as [|j ix IH]; intros [|n] Hn; cbn in *; try done.
  f_equal. apply IH. lia.
Qed.

Lemma map_length_const {X B} (f : X -> list B) (rows : list X) n :
  (forall x, x ∈ rows -> length (f x) = n) ->
  map length (map f rows) = replicate (length rows) n.
Proof.
  induction rows as [|x rows IH]; intros Hlen; cbn; [done|].
  rewrite Hlen by (by left). f_equal. apply IH. intros y Hy. apply Hlen. by right.
Qed.

Lemma rows_add_map {X} (Z0 : X -> list Q) (L : X -> list Z) (S0 F : X -> list Q) rows :
  (forall x, x ∈ rows -> index_add_ (Z0 x) (L x) (S0 x) = Ok (F x)) ->
  rows_add (map Z0 rows) (map L rows) (map S0 rows) = Ok (map F rows).
Proof.
  induction rows as [|x rows IH]; intros Hrow; cbn; [done|].
  rewrite Hrow by (by left). rsimpl.
  rewrite IH by (intros y Hy; apply Hrow; by right). done.
Qed.

Lemma zeros_concat {X} (g : X -> list Q) rows :
  replicate (length (concat (map g rows))) 0%Q
  = concat (map (fun x => replicate (length (g x)) 0%Q) rows).
Proof.
  induction rows as [|x rows IH]; cbn; [done|].
  by rewrite length_app, replicate_add, IH.
Qed.

Lemma unflatten_concat {B} (rows : list (list B)) :
  Projection.unflatten (map length rows) (concat rows) = rows.
Proof.
  induction rows as [|row rows IH]; cbn; [done|].
  by rewrite take_app_length, drop_app_length, IH.
Qed.

Lemma shift_rows_lookup idx : forall (base width : Z) (k : nat),
  shift_rows base width idx !! k
  = map (fun j => j + (base + Z.of_nat k * width)) <$> idx !! k.
Proof.
  induction idx as [|ix idx IH]; intros base width [|k]; cbn; try done.
  - f_equal. apply map_ext. intros. lia.
  - rewrite IH. destruct (idx !! k); cbn; [|done].
    f_equal. apply map_ext. intros. lia.
Qed.

Section ProjectionRows.
Variables (v_min v_max gamma : Q) (support : list Q) (atom_size : Z).
Hypothesis Hv : (v_min < v_max)%Q.
Hypothesis Ha : 2 <= atom_size.
Hypothesis Hsup : length support = Z.to_nat atom_size.

Local Set Default Proof Using "All".

Local Notation A := (Z.to_nat atom_size).
Local Notation dz := ((v_max - v_min) / float (atom_size - 1))%Q.
Local Notation brow := (b_row v_min v_max gamma support atom_size).
Local Notation lrow := (l_row v_min v_max gamma support atom_size).
Local Notation urow := (u_row v_min v_max gamma support atom_size).
Local Notation slrow := (sl_row v_min v_max gamma support atom_size).
Local Notation surow := (su_row v_min v_max gamma support atom_size).
Local Notation p1 := (pass1 v_min v_max gamma support atom_size).
Local Notation p2 := (pass2 v_min v_max gamma support atom_size).

Lemma delta_z_ok : Projection.delta_z v_min v_max atom_size = Ok dz.
Proof. unfold Projection.delta_z. destruct (Z.eqb_spec (atom_size - 1) 0); [lia|done]. Qed.

Lemma b_rows rows :
  Projection.b v_min dz (Projection.t_z v_min v_max gamma support (rewards rows) (dones rows))
  = Ok (map brow rows).
Proof.
  unfold Projection.b, Projection.t_z, rewards, dones.
  pose proof (delta_z_pos v_min v_max atom_size Hv Ha) as Hpos.
  destruct (Qeq_bool dz 0) eqn:E.
  { apply Qeq_bool_iff in E. rewrite E in Hpos. lra. }
  rewrite zip_with_rows, map_map. f_equal. apply map_ext. intros x.
  unfold b_row. by rewrite map_map.
Qed.

Lemma length_b_row x : length (brow x) = A.
Proof. unfold b_row. by rewrite length_map. Qed.
Lemma length_l_row x : length (lrow x) = A.
Proof. unfold l_row. by rewrite length_map, length_b_row. Qed.
Lemma length_u_row x : length (urow x) = A.
Proof. unfold u_row. by rewrite length_map, length_b_row. Qed.

Lemma add_offset_rows {X} (L : X -> list Z) (rows : list X) : forall s : nat,
  (forall x, x ∈ rows -> length (L x) = A) ->
  zip_with (zip_with Z.add) (map L rows)
    (map (fun k => replicate A (Z.of_nat k * atom_size)) (seq s (length rows)))
  = shift_rows (Z.of_nat s * atom_size) atom_size (map L rows).
Proof.
  induction rows as [|x rows IH]; intros s Hlen; cbn; [done|].
  rewrite zip_with_replicate_add by (apply Hlen; by left).
  f_equal. rewrite IH by (intros y Hy; apply Hlen; by right).
  f_equal. lia.
Qed.

Lemma indices_rows (batch_size : Z) rows :
  0 <= batch_size -> length rows = Z.to_nat batch_size ->
  Projection.indices v_min v_max gamma support atom_size batch_size dz
    (rewards rows) (dones rows)
  = Ok (shift_rows 0 atom_size (map lrow rows), shift_rows 0 atom_size (map urow rows)).
Proof.
  intros Hb Hlen. unfold Projection.indices.
  rewrite b_rows. cbn.
  rewrite offset_rows by lia. cbn.
  unfold Projection.l, Projection.u. rewrite !map_map.
  change (map (fun x => map Qfloor (brow x)) rows) with (map lrow rows).
  change (map (fun x => map Qceiling (brow x)) rows) with (map urow rows).
  unfold Projection.elementwise.
  rewrite <- Hlen.
  assert (Hshape : forall L : Q * Q * list Q -> list Z, (forall x, length (L x) = A) ->
    map length (map L rows)
    = map length (map (fun k => replicate A (Z.of_nat k * atom_size)) (seq 0 (length rows)))).
  { intros L HL.
    rewrite (map_length_const _ (seq 0 (length rows)) A)
      by (intros; apply length_replicate).
    rewrite length_seq. apply map_length_const. intros. apply HL. }
  rewrite !decide_True by (apply Hshape; auto using length_l_row, length_u_row).
  cbn. by rewrite !(add_offset_rows _ _ 0) by (intros; auto using length_l_row, length_u_row).
Qed.

Lemma length_sl_row x : length x.2 = A -> length (slrow x) = A.
Proof.
  intros Hp. unfold sl_row.
  rewrite !length_zip_with, Hp, length_b_row, length_u_row. lia.
Qed.
Lemma length_su_row x : length x.2 = A -> length (surow x) = A.
Proof.
  intros Hp. unfold su_row.
  rewrite !length_zip_with, Hp, length_b_row, length_l_row. lia.
Qed.

Lemma sources_rows rows :
  (forall x, x ∈ rows -> length x.2 = A) ->
  Projection.sources v_min v_max gamma support dz (rewards rows) (dones rows)
    (next_dists rows)
  = Ok (map slrow rows, map surow rows).
Proof.
  intros Hp. unfold Projection.sources.
  rewrite b_rows. rsimpl.
  unfold Projection.l, Projection.u. rewrite !map_map.
  change (map (fun x => map Qfloor (brow x)) rows) with (map lrow rows).
  change (map (fun x => map Qceiling (brow x)) rows) with (map urow rows).
  rewrite elementwise_rows by (intros; by rewrite length_b_row, length_u_row). rsimpl.
  rewrite elementwise_rows by (intros; by rewrite length_b_row, length_l_row). rsimpl.
  unfold next_dists.
  rewrite elementwise_rows
    by (intros x Hx; rewrite length_zip_with, length_b_row, length_u_row, (Hp x Hx); lia).
  rsimpl.
  rewrite elementwise_rows
    by (intros x Hx; rewrite length_zip_with, length_b_row, length_l_row, (Hp x Hx); lia).
  done.
Qed.

(** Both index rows of a batch row stay on the support. *)
Lemma l_row_range x : Forall (fun j => 0 <= j < Z.of_nat A) (lrow x).
Proof.
  unfold l_row, b_row. rewrite map_map. apply Forall_map, Forall_forall. intros z _.
  cbv beta. pose proof (b_range v_min v_max atom_size
    (x.1.1 + (1 - x.1.2) * gamma * z)%Q Hv Ha) as Hb. cbn in Hb.
  apply floor_ceiling_range in Hb. lia.
Qed.

Lemma u_row_range x : Forall (fun j => 0 <= j < Z.of_nat A) (urow x).
Proof.
  unfold u_row, b_row. rewrite map_map. apply Forall_map, Forall_forall. intros z _.
  cbv beta. pose proof (b_range v_min v_max atom_size
    (x.1.1 + (1 - x.1.2) * gamma * z)%Q Hv Ha) as Hb. cbn in Hb.
  apply floor_ceiling_range in Hb. lia.
Qed.

Lemma pass1_ok x :
  length x.2 = A ->
  index_add_ (replicate (length x.2) 0%Q) (lrow x) (slrow x) = Ok (p1 x)
  /\ length (p1 x) = A.
Proof.
  intros Hp.
  destruct (index_add_ok (lrow x) (replicate (length x.2) 0%Q) (slrow x)) as [acc Hacc].
  { by rewrite length_l_row, length_sl_row. }
  { rewrite length_replicate, Hp. apply l_row_range. }
  unfold pass1. rewrite Hacc. split; [done|].
  apply index_add_length in Hacc as [Hl _]. cbn [value]. by rewrite Hl, length_replicate.
Qed.

Lemma pass2_ok x :
  length x.2 = A ->
  index_add_ (p1 x) (urow x) (surow x) = Ok (p2 x) /\ length (p2 x) = A.
Proof.
  intros Hp. destruct (pass1_ok x Hp) as [_ Hlen1].
  destruct (index_add_ok (urow x) (p1 x) (surow x)) as [acc Hacc].
  { by rewrite length_u_row, length_su_row. }
  { rewrite Hlen1. apply u_row_range. }
  unfold pass2. rewrite Hacc. split; [done|].
  apply index_add_length in Hacc as [Hl _]. cbn [value]. by rewrite Hl.
Qed.

(** The projection of a batch is, row by row, the two scatter-adds of that
    row on its own accumulator. *)
Lemma proj_dist_rows (batch_size : Z) rows :
  0 <= batch_size -> length rows = Z.to_nat batch_size ->
  (forall x, x ∈ rows -> length x.2 = A) ->
  Projection.proj_dist v_min v_max gamma support atom_size batch_size dz
    (rewards rows) (dones rows) (next_dists rows)
  = Ok (map p2 rows).
Proof.
  intros Hb Hlen Hp. unfold Projection.proj_dist.
  rewrite indices_rows by done. rsimpl.
  rewrite sources_rows by done. rsimpl.
  unfold next_dists at 1. rewrite zeros_concat.
  assert (HA : Z.of_nat A = atom_size) by lia.
  pose proof (index_add_rows A (map (fun x : Q * Q * list Q => replicate (length x.2) 0%Q) rows)
    (map lrow rows) (map slrow rows) (map p1 rows) []) as P1.
  cbn [length app] in P1. change (Z.of_nat 0) with 0 in P1. rewrite HA in P1.
  rewrite P1; clear P1.
  2: { apply Forall_map, Forall_forall. intros x Hx. cbv beta.
       by rewrite length_replicate, Hp. }
  2: { apply rows_add_map. intros x Hx. by apply pass1_ok, Hp. }
  rsimpl.
  pose proof (index_add_rows A (map p1 rows)
    (map urow rows) (map surow rows) (map p2 rows) []) as P2.
  cbn [length app] in P2. change (Z.of_nat 0) with 0 in P2. rewrite HA in P2.
  rewrite P2; clear P2.
  2: { apply Forall_map, Forall_forall. intros x Hx. by apply pass1_ok, Hp. }
  2: { apply rows_add_map. intros x Hx. by apply pass2_ok, Hp. }
  rsimpl. f_equal.
  replace (map length (next_dists rows)) with (map length (map p2 rows)).
  - apply unflatten_concat.
  - unfold next_dists. rewrite !map_map. apply map_ext_in. intros x Hx.
    apply list_elem_of_In in Hx. destruct (pass2_ok x (Hp x Hx)) as [_ ->].
    by rewrite Hp.
Qed.

End ProjectionRows.

Lemma zip3_rows (reward done_ : list Q) (next_dist : list (list Q)) :
  length reward = length done_ -> length reward = length next_dist ->
  let rows := zip (zip reward done_) next_dist in
  rewards rows = reward /\ dones rows = done_ /\ next_dists rows = next_dist /\
  length rows = length reward.
Proof.
  revert done_ next_dist.
  induction reward as [|r reward IH]; intros [|d done_] [|p next_dist] H1 H2;
    cbn in *; try done.
  destruct (IH done_ next_dist) as (E1 & E2 & E3 & E4); [lia..|].
  unfold rewards, dones, next_dists in *. by rewrite E1, E2, E3, E4.
Qed.

(** In exact arithmetic the scatter-add stays in its row: with a support of
    at least two atoms and [v_min < v_max], on a batch of [batch_size] rows
    the index computation succeeds and every destination [l + offset] and
    [u + offset] of row [k] lies in [k * atom_size, (k + 1) * atom_size),
    hence inside the flat accumulator; the projection succeeds and its row
    [k] is the projection of row [k] taken alone as a batch of one.  The
    clamp of [t_z] to [v_min, v_max] is what keeps [b] in
    [0, atom_size - 1]; it does so only as long as nothing is rounded. *)
Lemma exact_scatter_add_stays_in_row
    (v_min v_max gamma : Q) (support : list Q) (atom_size batch_size : Z)
    (reward done_ : list Q) (next_dist : list (list Q)) :
  (v_min < v_max)%Q -> 2 <= atom_size -> length support = Z.to_nat atom_size ->
  0 <= batch_size ->
  length reward = Z.to_nat batch_size -> length done_ = Z.to_nat batch_size ->
  length next_dist = Z.to_nat batch_size ->
  Forall (fun p => length p = Z.to_nat atom_size) next_dist ->
  exists dz,
    Projection.delta_z v_min v_max atom_size = Ok dz /\
    (exists lo uo,
       Projection.indices v_min v_max gamma support atom_size batch_size dz reward done_
         = Ok (lo, uo) /\
       forall (k : nat) row j, lo !! k = Some row \/ uo !! k = Some row -> j ∈ row ->
         Z.of_nat k * atom_size <= j < (Z.of_nat k + 1) * atom_size /\
         0 <= j < batch_size * atom_size) /\
    (exists pd,
       Projection.proj_dist v_min v_max gamma support atom_size batch_size dz
         reward done_ next_dist = Ok pd /\
       length pd = Z.to_nat batch_size /\
       forall (k : nat) r d p,
         reward !! k = Some r -> done_ !! k = Some d -> next_dist !! k = Some p ->
         exists row, pd !! k = Some row /\
           Projection.proj_dist v_min v_max gamma support atom_size 1 dz [r] [d] [p]
             = Ok [row]).
Proof.
  intros Hv Ha Hsup Hb Hr Hd Hn Hp.
  exists ((v_max - v_min) / float (atom_size - 1))%Q.
  split; [exact (delta_z_ok v_min v_max gamma support atom_size Hv Ha Hsup)|].
  destruct (zip3_rows reward done_ next_dist) as (E1 & E2 & E3 & E4); [lia..|].
  set (rows := zip (zip reward done_) next_dist) in *.
  assert (Hrows : forall x, x ∈ rows -> length x.2 = Z.to_nat atom_size).
  { intros x Hx. rewrite Forall_forall in Hp. apply Hp. rewrite <- E3.
    unfold next_dists. apply list_elem_of_fmap. by exists x. }
  split.
  - exists (shift_rows 0 atom_size (map (l_row v_min v_max gamma support atom_size) rows)),
           (shift_rows 0 atom_size (map (u_row v_min v_max gamma support atom_size) rows)).
    split.
    { rewrite <- E1, <- E2.
      exact (indices_rows _ _ _ _ _ Hv Ha Hsup _ rows Hb ltac:(lia)). }
    intros k row j Hrow Hj.
    assert (exists x j0, rows !! k = Some x /\ j = j0 + Z.of_nat k * atom_size /\
                         0 <= j0 < atom_size) as (x & j0 & Hx & -> & Hj0).
    { destruct Hrow as [Hrow|Hrow]; rewrite shift_rows_lookup, list_lookup_fmap in Hrow;
        destruct (rows !! k) as [x|] eqn:Hx; cbn in Hrow; try done;
        injection Hrow as <-; apply list_elem_of_fmap in Hj as (j0 & -> & Hj0);
        exists x, j0; (split; [done|]); (split; [lia|]).
      - pose proof (l_row_range v_min v_max gamma support atom_size Hv Ha Hsup x) as Hall.
        rewrite Forall_forall in Hall. specialize (Hall j0 Hj0). lia.
      - pose proof (u_row_range v_min v_max gamma support atom_size Hv Ha Hsup x) as Hall.
        rewrite Forall_forall in Hall. specialize (Hall j0 Hj0). lia. }
    apply lookup_lt_Some in Hx. nia.
  - exists (map (pass2 v_min v_max gamma support atom_size) rows).
    split.
    { rewrite <- E1, <- E2, <- E3.
      exact (proj_dist_rows _ _ _ _ _ Hv Ha Hsup _ rows Hb ltac:(lia) Hrows). }
    split; [rewrite length_map; lia|].
    intros k r d p Hkr Hkd Hkp.
    exists (pass2 v_min v_max gamma support atom_size (r, d, p)).
    split.
    + rewrite list_lookup_fmap. unfold rows.
      assert (zip (zip reward done_) next_dist !! k = Some (r, d, p)) as ->; [|done].
      apply lookup_zip_with_Some. exists (r, d), p. split; [done|]. split; [|done].
      apply lookup_zip_with_Some. by exists r, d.
    + apply (proj_dist_rows v_min v_max gamma support atom_size Hv Ha Hsup 1 [(r, d, p)]);
        [lia|done|].
      intros x Hx. apply list_elem_of_singleton in Hx as ->. cbn.
      rewrite Forall_forall in Hp. apply Hp. by eapply list_elem_of_lookup_2.
Qed.

Lemma map_const {A B} (f : A -> B) (c : B) (l : list A) :
  (forall x, f x = c) -> map f l = replicate (length l) c.
Proof. intros Hf. induction l as [|x l IH]; [done|]. cbn. by rewrite Hf, IH. Qed.

(** A terminal transition ([done = 1]) has the same [t_z] at every atom,
    whatever the support holds. *)
Lemma t_z_terminal (v_min v_max gamma : Q) (support reward : list Q) :
  Projection32.t_z v_min v_max gamma support reward (replicate (length reward) 1%Q)
  = map (fun r => replicate (length support)
                    (clamp (Float.f32 v_min) (Float.f32 v_max) (Float.f32 (r + 0))))
        reward.
Proof.
  unfold Projection32.t_z. induction reward as [|r reward IH]; [done|].
  cbn [length replicate zip_with map]. rewrite IH. f_equal.
  apply map_const. intros [zn zd]. reflexivity.
Qed.

(** C8 (the code departs from the claim): in float32 the clamp does not
    keep [b] below [atom_size - 1].  With [v_min = 0], [v_max = 8.1], 51
    atoms (whatever float32 values the support holds) and a terminal
    transition of reward 10, [t_z] is clamped to the float32 value of 8.1,
    which is above 8.1; divided by the float32 value of [delta_z = 0.162]
    it gives [b = 50.000004], so [l = 50] and [u = 51 = atom_size].  In a
    batch of two rows every upper index of row 0 is then 51, the first
    position of row 1, and row 1 receives mass of row 0 that it does not
    receive when projected alone; in a batch of one row (as on the last row
    of any batch) position 51 is outside the accumulator and [index_add_]
    raises. *)
Theorem scatter_add_leaves_row_in_float32 (support : list Q) :
  length support = 51%nat ->
  let v_max := Float.f64 (81 # 10) in
  let gamma := Float.f64 (99 # 100) in
  let p := [1 # 2; 1 # 2] ++ replicate 49 0%Q in
  exists dz lo uo row0 row1 q,
    Projection32.delta_z 0 v_max 51 = Ok dz /\
    Projection32.indices 0 v_max gamma support 51 2 dz [10%Q; 0%Q] [1%Q; 1%Q] = Ok (lo, uo) /\
    lo !! 0%nat = Some (replicate 51 50) /\
    uo !! 0%nat = Some (replicate 51 51) /\
    ~ (0 * 51 <= 51 < (0 + 1) * 51) /\ 1 * 51 <= 51 < (1 + 1) * 51 /\
    Projection32.proj_dist 0 v_max gamma support 51 2 dz [10%Q; 0%Q] [1%Q; 1%Q] [p; p]
      = Ok [row0; row1] /\
    row1 !! 0%nat = Some q /\ (0 < q)%Q /\
    Projection32.proj_dist 0 v_max gamma support 51 1 dz [0%Q] [1%Q] [p]
      = Ok [replicate 51 0%Q] /\
    Projection32.proj_dist 0 v_max gamma support 51 1 dz [10%Q] [1%Q] [p]
      = Raise IndexError.
Proof.
  intros Hlen. cbv zeta.
  pose proof (t_z_terminal 0 (Float.f64 (81 # 10)) (Float.f64 (99 # 100)) support
                [10%Q; 0%Q]) as T2.
  pose proof (t_z_terminal 0 (Float.f64 (81 # 10)) (Float.f64 (99 # 100)) support
                [10%Q]) as T10.
  pose proof (t_z_terminal 0 (Float.f64 (81 # 10)) (Float.f64 (99 # 100)) support
                [0%Q]) as T0.
  rewrite Hlen in T2, T10, T0. cbn [length replicate map] in T2, T10, T0.
  unfold Projection32.proj_dist, Projection32.indices, Projection32.sources.
  rewrite T2, T10, T0. clear T2 T10 T0 Hlen.
  eexists _, _, _, _, _, _.
  split; [vm_compute; reflexivity|].
  split; [vm_compute; reflexivity|].
  split; [reflexivity|]. split; [reflexivity|].
  split; [lia|]. split; [lia|].
  split; [vm_compute; reflexivity|].
  split; [reflexivity|]. split; [reflexivity|].
  split; vm_compute; reflexivity.
Qed.

Lemma scatter_add_leaves_row_in_float32_witness :
  exists support dz,
    Float.linspace 0 (Float.f64 (81 # 10)) 51 = Ok support /\
    length support = 51%nat /\
    Projection32.delta_z 0 (Float.f64 (81 # 10)) 51 = Ok dz /\
    Projection32.proj_dist 0 (Float.f64 (81 # 10)) (Float.f64 (99 # 100)) support 51 1 dz
      [10%Q] [1%Q] [[1 # 2; 1 # 2] ++ replicate 49 0%Q]
    = Raise IndexError.
Proof.
  eexists _, _.
  match goal with |- ?T /\ _ => assert (Hsup : T) by (vm_compute; reflexivity) end.
  split; [exact Hsup|].
  match goal with |- ?T /\ _ => assert (Hlen : T) by reflexivity end.
  split; [exact Hlen|].
  destruct (scatter_add_leaves_row_in_float32 _ Hlen)
    as (dz & lo & uo & row0 & row1 & q & Hdz & _ & _ & _ & _ & _ & _ & _ & _ & _ & Hraise).
  cbv zeta in Hdz, Hraise.
  assert (Hdz' : Projection32.delta_z 0 (Float.f64 (81 # 10)) 51 = Ok _)
    by (vm_compute; reflexivity).
  split; [exact Hdz'|].
  rewrite Hdz' in Hdz. injection Hdz as <-. exact Hraise.
Defined.

(** ** The agent *)

Lemma bind_run {S A B} (m : M S A) (k : A -> M S B) (s : S) :
  (m ≫= k) s = match m s with
               | (Ok a, s') => k a s'
               | (Raise e, s') => (Raise e, s')
               end.
Proof. reflexivity. Qed.

Lemma decay_chain_S f eps n :
  decay_chain f eps (S n) = f eps :: decay_chain f (f eps) n.
Proof.
  unfold decay_chain. cbn [seq map]. f_equal.
  rewrite <- seq_shift, map_map. apply map_ext. intros i.
  by rewrite (Nat.iter_succ_r (S i)).
Qed.

Section AgentProps.
Context {Obs E P O G R : Type}.
Context `{Observation Obs} `{Env Obs E} `{Torch Obs P O G} `{RandomState R}.
Implicit Types (s : DQNAgent.t Obs E P O R) (loc : DQNAgent.locals Obs).

Import DQNAgent.

(** What [select_action] leaves alone. *)
Lemma select_action_frame x s :
  let s' := (select_action x s).2 in
  hp s' = hp s /\ memory s' = memory s /\ epsilon s' = epsilon s /\
  dqn s' = dqn s /\ dqn_target s' = dqn_target s /\ optimizer s' = optimizer s /\
  is_test s' = is_test s /\
  (is_test s = true -> transition s' = transition s).
Proof.
  unfold select_action. msimpl.
  destruct (is_test s) eqn:Ht; repeat (cbn; case_match; simplify_eq); cbn;
    rewrite ?Ht; repeat split; done.
Qed.

(** What [step] leaves alone; the buffer changes only through [store]. *)
Lemma step_frame a s :
  let s' := (step a s).2 in
  hp s' = hp s /\ epsilon s' = epsilon s /\
  dqn s' = dqn s /\ dqn_target s' = dqn_target s /\ optimizer s' = optimizer s /\
  is_test s' = is_test s /\
  (is_test s = true -> transition s' = transition s /\ memory s' = memory s).
Proof.
  unfold step. msimpl.
  destruct (is_test s) eqn:Ht; repeat (cbn; case_match; simplify_eq); cbn;
    rewrite ?Ht; repeat split; try done;
    rewrite Ht in *; done.
Qed.

Lemma update_model_frame s :
  let s' := (update_model s).2 in
  hp s' = hp s /\ memory s' = memory s /\ epsilon s' = epsilon s /\
  dqn_target s' = dqn_target s /\ transition s' = transition s /\
  is_test s' = is_test s /\ env s' = env s /\
  Network.support (dqn s') = Network.support (dqn s) /\
  Network.out_dim (dqn s') = Network.out_dim (dqn s) /\
  Network.atom_size (dqn s') = Network.atom_size (dqn s).
Proof.
  unfold update_model. msimpl.
  repeat (cbn; case_match; simplify_eq); cbn; repeat split; done.
Qed.

(** The update block: one model update, one decay of epsilon, one more
    entry in [epsilons]. *)
Lemma train_update_spec loc s :
  let r := (train_update loc s).1 in
  let s' := (train_update loc s).2 in
  hp s' = hp s /\ memory s' = memory s /\
  (epsilon s' = epsilon s \/ epsilon s' = decayed (hp s) (epsilon s)) /\
  forall loc', r = Ok loc' ->
    update_cnt loc' = update_cnt loc + 1 /\
    epsilon s' = decayed (hp s) (epsilon s) /\
    epsilons loc' = epsilons loc ++ [epsilon s'] /\
    length (losses loc') = S (length (losses loc)).
Proof.
  cbv zeta. unfold train_update, _target_hard_update. msimpl.
  pose proof (update_model_frame s) as (Hh & Hm & He & _). cbv zeta in *.
  destruct (update_model s) as [[loss|e] s1]; cbn [fst snd] in *.
  2: { repeat split; auto; try (intros; done). }
  cbn. rewrite ?Hh.
  destruct (target_update (hp s) =? 0); cbn; rewrite ?Hh, ?Hm, ?He.
  { repeat split; auto; try (intros; done). }
  destruct ((update_cnt loc + 1) `mod` target_update (hp s) =? 0); cbn;
    rewrite ?Hh, ?Hm, ?He;
    (repeat split; auto); simplify_eq/=; rewrite ?length_app; cbn; auto; lia.
Qed.

(** One frame of training.  Below the gate nothing is updated; above it
    there is exactly one update. *)
Lemma train_frame_spec pi idx loc s :
  let r := (train_frame pi idx loc s).1 in
  let s' := (train_frame pi idx loc s).2 in
  hp s' = hp s /\
  (epsilon s' = epsilon s \/ epsilon s' = decayed (hp s) (epsilon s)) /\
  (Z.of_nat (ReplayBuffer.len (memory s')) < batch_size (hp s) ->
     epsilon s' = epsilon s /\ dqn s' = dqn s /\ dqn_target s' = dqn_target s /\
     optimizer s' = optimizer s /\
     forall loc', r = Ok loc' ->
       update_cnt loc' = update_cnt loc /\ epsilons loc' = epsilons loc /\
       losses loc' = losses loc) /\
  (forall loc', r = Ok loc' ->
     batch_size (hp s) <= Z.of_nat (ReplayBuffer.len (memory s')) ->
     update_cnt loc' = update_cnt loc + 1 /\
     epsilon s' = decayed (hp s) (epsilon s) /\
     epsilons loc' = epsilons loc ++ [epsilon s'] /\
     length (losses loc') = S (length (losses loc))).
Proof.
  cbv zeta. unfold train_frame. msimpl.
  pose proof (select_action_frame (state loc) s) as (Sh & Sm & Se & Sd & St & So & _).
  cbv zeta in *.
  destruct (select_action (state loc) s) as [[a|e] s1]; cbn [fst snd] in *.
  2: { rewrite Sh, Se, Sd, St, So. repeat split; auto; done. }
  pose proof (step_frame a s1) as (Th & Te & Td & Tt & To & _). cbv zeta in *.
  destruct (step a s1) as [[[[o rew] d]|e] s2]; cbn [fst snd] in *.
  2: { rewrite Th, Te, Td, Tt, To, Sh, Se, Sd, St, So. repeat split; auto; done. }
  assert (E2 : hp s2 = hp s /\ epsilon s2 = epsilon s /\ dqn s2 = dqn s /\
               dqn_target s2 = dqn_target s /\ optimizer s2 = optimizer s)
    by (rewrite Th, Te, Td, Tt, To; auto).
  clear Sh Sm Se Sd St So Th Te Td Tt To. destruct E2 as (Eh & Ee & Ed & Et & Eo).
  destruct d; [destruct (env_reset (env s2)) as [st e2]|]; cbn.
  all: rewrite ?Eh.
  all: destruct (Z.leb_spec (batch_size (hp s)) (Z.of_nat (ReplayBuffer.len (memory s2))))
         as [Hgate|Hgate]; cbn.
  all: try match goal with |- context [train_update ?l ?s3] =>
         pose proof (train_update_spec l s3) as (Uh & Um & Ue & Uok);
         cbv zeta in *; cbn in Uh, Um, Ue, Uok;
         destruct (train_update l s3) as [[l2|e] s4] end.
  all: cbn [fst snd] in *.
  all: destruct (pi =? 0); cbn.
  all: rewrite ?Uh, ?Um, ?Eh, ?Ee, ?Ed, ?Et, ?Eo.
  all: try rewrite Eh, Ee in Ue.
  all: try rewrite Eh, Ee in Uok.
  all: split; [done|]; split; [auto|]; split.
  all: try (intros ?; lia).
  all: try (intros ? ? ?; lia).
  all: try (intros ? [= <-] ?; by apply Uok).
  all: try (intros ?; repeat split; auto; intros ? [= <-]; done).
  all: try (intros ?; repeat split; auto; done).
  all: try (intros ?; repeat split; auto; by simplify_eq/=).
  all: try done.
Qed.


Lemma decayed_floor (h : hyper) eps : (min_epsilon h <= decayed h eps)%Q.
Proof. unfold decayed. apply Q.le_max_l. Qed.

Lemma decayed_le (h : hyper) eps :
  (min_epsilon h <= max_epsilon h)%Q -> (0 <= epsilon_decay h)%Q ->
  (min_epsilon h <= eps)%Q -> (decayed h eps <= eps)%Q.
Proof.
  intros Hmm Hd He. unfold decayed. apply Q.max_lub; [done|].
  assert (0 <= (max_epsilon h - min_epsilon h) * epsilon_decay h)%Q
    by (apply Qmult_le_0_compat; lra).
  lra.
Qed.

Lemma decay_chain_sorted (h : hyper) : forall n eps i e1,
  (min_epsilon h <= max_epsilon h)%Q -> (0 <= epsilon_decay h)%Q ->
  (min_epsilon h <= eps)%Q ->
  decay_chain (decayed h) eps n !! i = Some e1 ->
  (min_epsilon h <= e1 <= eps)%Q /\
  forall e2, decay_chain (decayed h) eps n !! S i = Some e2 -> (e2 <= e1)%Q.
Proof.
  induction n as [|n IH]; intros eps i e1 Hmm Hd He Hi; [done|].
  rewrite decay_chain_S in *.
  pose proof (decayed_floor h eps) as Hf.
  pose proof (decayed_le h eps Hmm Hd He) as Hl.
  destruct i as [|i]; cbn in Hi.
  - injection Hi as <-. split; [done|]. intros e2 Hnext. cbn in Hnext.
    destruct n as [|n]; [done|]. rewrite decay_chain_S in Hnext.
    injection Hnext as <-. by apply decayed_le.
  - destruct (IH (decayed h eps) i e1 Hmm Hd Hf Hi) as [[Ha Hb] Hc].
    split; [split; [done|lra]|]. intros e2 Hnext. by apply Hc.
Qed.

(** A whole run of the training loop. *)
Lemma train_loop_spec pi frames : forall loc s,
  (min_epsilon (hp s) <= max_epsilon (hp s))%Q -> (0 <= epsilon_decay (hp s))%Q ->
  (min_epsilon (hp s) <= epsilon s)%Q ->
  let r := (train_loop pi frames loc s).1 in
  let s' := (train_loop pi frames loc s).2 in
  hp s' = hp s /\ (min_epsilon (hp s) <= epsilon s' <= epsilon s)%Q /\
  forall loc', r = Ok loc' ->
    exists n : nat,
      update_cnt loc' = update_cnt loc + Z.of_nat n /\
      epsilon s' = Nat.iter n (decayed (hp s)) (epsilon s) /\
      epsilons loc' = epsilons loc ++ decay_chain (decayed (hp s)) (epsilon s) n.
Proof.
  induction frames as [|idx frames IH]; intros loc s Hmm Hd He; cbv zeta.
  - cbn. split; [done|]. split; [lra|]. intros loc' [= <-].
    exists 0%nat. cbn. rewrite app_nil_r. repeat split; [lia|done..].
  - cbn [train_loop]. rewrite bind_run.
    pose proof (train_frame_spec pi idx loc s) as (Fh & Fe & Fclosed & Fopen).
    cbv zeta in *.
    destruct (train_frame pi idx loc s) as [[loc1|e] s1]; cbn [fst snd] in *.
    2: { split; [done|]. split; [|done].
         destruct Fe as [->| ->]; [lra|].
         split; [apply decayed_floor|by apply decayed_le]. }
    assert (He1 : (min_epsilon (hp s) <= epsilon s1 <= epsilon s)%Q).
    { destruct Fe as [->| ->]; [lra|].
      split; [apply decayed_floor|by apply decayed_le]. }
    specialize (IH loc1 s1). rewrite Fh in IH.
    destruct (IH Hmm Hd ltac:(tauto)) as (Ih & Ie & Iok). clear IH.
    split; [congruence|]. split; [lra|].
    intros loc' Hr. destruct (Iok loc' Hr) as (n & Hcnt & Heps & Hlist).
    destruct (Z.lt_ge_cases (Z.of_nat (ReplayBuffer.len (memory s1))) (batch_size (hp s)))
      as [Hgate|Hgate].
    + destruct (Fclosed Hgate) as (E1 & _ & _ & _ & Hloc).
      destruct (Hloc loc1 eq_refl) as (C1 & C2 & _).
      exists n. rewrite Hcnt, Heps, Hlist, C1, C2, E1. done.
    + destruct (Fopen loc1 eq_refl Hgate) as (C1 & E1 & C2 & _).
      exists (S n). rewrite Hcnt, Heps, Hlist, C1, C2, E1.
      rewrite decay_chain_S, <- app_assoc, Nat.iter_succ_r.
      repeat split; [lia|done..].
Qed.

Lemma train_run num_frames pi s :
  train num_frames pi s
  = let (st, e1) := env_reset (env s) in
    match train_loop pi (range 1 (num_frames + 1)) (mkLocals st 0 [] [] [] 0%Q [])
            (set_env e1 (set_is_test false s)) with
    | (Ok loc, s1) => (Ok loc, set_env (env_close (env s1)) s1)
    | (Raise e, s1) => (Raise e, s1)
    end.
Proof.
  unfold train. msimpl. cbn. destruct (env_reset (env s)) as [st e1].
  by destruct (train_loop _ _ _ _) as [[?|?] ?].
Qed.

(** C7, as amended: for a configuration with
    [min_epsilon <= max_epsilon] and [epsilon_decay >= 0], started with
    [epsilon >= min_epsilon]: in every frame whose buffer is below
    [batch_size] nothing is updated (epsilon, both networks, the optimizer,
    [update_cnt], [epsilons] and [losses] stay as they are); in every frame
    that completes above the gate [update_cnt] grows by one and epsilon
    becomes [max(min_epsilon, epsilon - (max_epsilon - min_epsilon) *
    epsilon_decay)], recorded once in [epsilons]; and over a whole [train]
    call epsilon ends between [min_epsilon] and its initial value, the
    recorded epsilons are exactly the successive decays, one per update,
    each at least [min_epsilon] and none above its predecessor. *)
Theorem epsilon_schedule s :
  (min_epsilon (hp s) <= max_epsilon (hp s))%Q -> (0 <= epsilon_decay (hp s))%Q ->
  (min_epsilon (hp s) <= epsilon s)%Q ->
  (forall pi idx loc,
     let r := (train_frame pi idx loc s).1 in
     let s' := (train_frame pi idx loc s).2 in
     (min_epsilon (hp s) <= epsilon s' <= epsilon s)%Q /\
     (Z.of_nat (ReplayBuffer.len (memory s')) < batch_size (hp s) ->
        epsilon s' = epsilon s /\ dqn s' = dqn s /\ dqn_target s' = dqn_target s /\
        optimizer s' = optimizer s /\
        forall loc', r = Ok loc' ->
          update_cnt loc' = update_cnt loc /\ epsilons loc' = epsilons loc /\
          losses loc' = losses loc) /\
     (forall loc', r = Ok loc' ->
        batch_size (hp s) <= Z.of_nat (ReplayBuffer.len (memory s')) ->
        update_cnt loc' = update_cnt loc + 1 /\
        epsilon s' = Qmax (min_epsilon (hp s))
          (epsilon s - (max_epsilon (hp s) - min_epsilon (hp s)) * epsilon_decay (hp s)) /\
        epsilons loc' = epsilons loc ++ [epsilon s'])) /\
  (forall num_frames pi,
     let r := (train num_frames pi s).1 in
     let s' := (train num_frames pi s).2 in
     (min_epsilon (hp s) <= epsilon s' <= epsilon s)%Q /\
     forall loc', r = Ok loc' ->
       exists n : nat,
         update_cnt loc' = Z.of_nat n /\ length (epsilons loc') = n /\
         epsilon s' = Nat.iter n (decayed (hp s)) (epsilon s) /\
         epsilons loc' = decay_chain (decayed (hp s)) (epsilon s) n /\
         forall i e1, epsilons loc' !! i = Some e1 ->
           (min_epsilon (hp s) <= e1 <= epsilon s)%Q /\
           forall e2, epsilons loc' !! S i = Some e2 -> (e2 <= e1)%Q).
Proof.
  intros Hmm Hd He. split.
  - intros pi idx loc. cbv zeta.
    pose proof (train_frame_spec pi idx loc s) as (Fh & Fe & Fclosed & Fopen).
    cbv zeta in *. split; [|split; [done|]].
    + destruct Fe as [->| ->]; [lra|].
      split; [apply decayed_floor|by apply decayed_le].
    + intros loc' Hr Hgate. destruct (Fopen loc' Hr Hgate) as (C1 & E1 & C2 & _).
      done.
  - intros num_frames pi. cbv zeta. rewrite train_run.
    destruct (env_reset (env s)) as [st e1].
    match goal with |- context [train_loop pi ?fr ?l ?s0] =>
      pose proof (train_loop_spec pi fr l s0 Hmm Hd He) as (Lh & Le & Lok);
      cbv zeta in *; cbn in Lh, Le, Lok;
      destruct (train_loop pi fr l s0) as [[loc1|e] s1] end; cbn [fst snd] in *.
    2: { split; [done|]. intros; done. }
    cbn. split; [done|]. intros loc' [= <-].
    destruct (Lok loc1 eq_refl) as (n & Hcnt & Heps & Hlist). cbn in Hlist.
    exists n. split; [lia|]. rewrite Heps, Hlist.
    split; [unfold decay_chain; by rewrite length_map, length_seq|].
    split; [done|]. split; [done|].
    intros i e1' Hi. by apply (decay_chain_sorted (hp s) n).
Qed.

(** C10: in test mode [select_action] keeps no pending transition and
    [step] stores nothing: after any sequence of the two calls, and whether
    or not one of them raised, the replay buffer (its arrays, [ptr] and
    [size]) and the pending transition are what they were, and the agent
    is still in test mode. *)
Theorem test_mode_leaves_buffer cs : forall s,
  is_test s = true ->
  let s' := (run_calls cs s).2 in
  memory s' = memory s /\ transition s' = transition s /\ is_test s' = true.
Proof.
  induction cs as [|[x|a] cs IH]; intros s Ht; cbv zeta.
  - done.
  - cbn [run_calls]. rewrite bind_run.
    pose proof (select_action_frame x s) as (_ & Sm & _ & _ & _ & _ & St & Str).
    cbv zeta in *. destruct (select_action x s) as [[a|e] s1]; cbn [fst snd] in *.
    + destruct (IH s1 ltac:(congruence)) as (-> & -> & ->). auto.
    + rewrite Sm, St. auto.
  - cbn [run_calls]. rewrite bind_run.
    pose proof (step_frame a s) as (_ & _ & _ & _ & _ & St & Str).
    cbv zeta in *. destruct (Str Ht) as [Str1 Str2].
    destruct (step a s) as [[x|e] s1]; cbn [fst snd] in *.
    + destruct (IH s1 ltac:(congruence)) as (-> & -> & ->). auto.
    + rewrite Str1, Str2, St. auto.
Qed.

(** The two constructions of [__init__] differ only in their parameters,
    and [load_state_dict] then equalises those. *)
Lemma init_same_arch env0 ms bs tu ed maxe mine gam vmin vmax A (g : G) (r : R) s :
  init env0 ms bs tu ed maxe mine gam vmin vmax A g r = Ok s ->
  same_arch (dqn s) (dqn_target s) /\ dqn_target s = dqn s.
Proof.
  unfold init. rsimpl.
  destruct (ReplayBuffer.init _ ms bs) as [m|]; [|done].
  destruct (linspace vmin vmax A) as [sup|]; [|done].
  unfold Network.init.
  destruct (Z.of_nat (action_n env0) * A <? 0); [done|].
  destruct (new_layers _ _ g) as [p1 g1]. destruct (new_layers _ _ g1) as [p2 g2].
  intros [= <-]. cbn. done.
Qed.

(** What [__init__] leaves: epsilon at [max_epsilon], the configured
    schedule, train mode, no pending transition and an empty buffer that
    satisfies the class invariant. *)
Lemma init_state env0 ms bs tu ed maxe mine gam vmin vmax A (g : G) (r : R) s :
  init env0 ms bs tu ed maxe mine gam vmin vmax A g r = Ok s ->
  epsilon s = maxe /\ max_epsilon (hp s) = maxe /\ min_epsilon (hp s) = mine /\
  epsilon_decay (hp s) = ed /\ batch_size (hp s) = bs /\
  is_test s = false /\ transition s = [] /\
  buffer_inv (memory s) /\ ReplayBuffer.len (memory s) = 0%nat.
Proof.
  unfold init. rsimpl.
  destruct (ReplayBuffer.init _ ms bs) as [m|] eqn:Hm; [|done].
  destruct (linspace vmin vmax A) as [sup|]; [|done].
  unfold Network.init.
  destruct (Z.of_nat (action_n env0) * A <? 0); [done|].
  destruct (new_layers _ _ g) as [p1 g1]. destruct (new_layers _ _ g1) as [p2 g2].
  intros [= <-]. cbn.
  apply init_inv in Hm as (Hinv & _ & _ & _ & Hsize). unfold ReplayBuffer.len.
  repeat split; try done; apply Hinv.
Qed.

Lemma train_update_same_arch loc s :
  same_arch (dqn s) (dqn_target s) ->
  let s' := (train_update loc s).2 in same_arch (dqn s') (dqn_target s').
Proof.
  intros (A1 & A2 & A3). cbv zeta. unfold train_update, _target_hard_update. msimpl.
  pose proof (update_model_frame s) as (Hh & _ & _ & Ht & _ & _ & _ & U1 & U2 & U3).
  cbv zeta in *.
  destruct (update_model s) as [[loss|e] s1]; cbn [fst snd] in *.
  2: { unfold same_arch. rewrite Ht, U1, U2, U3. done. }
  cbn. rewrite ?Hh.
  destruct (target_update (hp s) =? 0); cbn.
  { unfold same_arch. rewrite Ht, U1, U2, U3. done. }
  destruct ((update_cnt loc + 1) `mod` target_update (hp s) =? 0); cbn;
    unfold same_arch; cbn; rewrite ?Ht, U1, U2, U3; done.
Qed.

(** The two networks keep the arguments they were built with through
    every frame of training. *)
Lemma train_frame_same_arch pi idx loc s :
  same_arch (dqn s) (dqn_target s) ->
  let s' := (train_frame pi idx loc s).2 in same_arch (dqn s') (dqn_target s').
Proof.
  intros Harch. cbv zeta. unfold train_frame. msimpl.
  pose proof (select_action_frame (state loc) s) as (_ & _ & _ & Sd & St & _).
  cbv zeta in *.
  destruct (select_action (state loc) s) as [[a|e] s1]; cbn [fst snd] in *.
  2: { by rewrite Sd, St. }
  pose proof (step_frame a s1) as (_ & _ & Td & Tt & _). cbv zeta in *.
  destruct (step a s1) as [[[[o rew] d]|e] s2]; cbn [fst snd] in *.
  2: { by rewrite Td, Tt, Sd, St. }
  assert (Harch2 : same_arch (dqn s2) (dqn_target s2)) by (by rewrite Td, Tt, Sd, St).
  clear Sd St Td Tt Harch.
  destruct d; [destruct (env_reset (env s2)) as [st e2]|]; cbn.
  all: destruct (batch_size (hp s2) <=? Z.of_nat (ReplayBuffer.len (memory s2))); cbn.
  all: try match goal with |- context [train_update ?l ?s3] =>
         pose proof (train_update_same_arch l s3 Harch2) as Hu;
         cbv zeta in Hu; destruct (train_update l s3) as [[l2|e] s4] end.
  all: cbn [fst snd] in *.
  all: destruct (pi =? 0); cbn; done.
Qed.

(** C9: right after [_target_hard_update] (and right after [__init__],
    which performs the same copy) the target network has the online
    network's parameters; the two having been built with the same
    arguments, they are then the same network, and [dist] and [forward]
    give the same distributions and action values on every input. *)
Theorem hard_update_syncs s :
  same_arch (dqn s) (dqn_target s) ->
  let r := (_target_hard_update s).1 in
  let s' := (_target_hard_update s).2 in
  r = Ok tt /\ dqn s' = dqn s /\
  Network.params (dqn_target s') = Network.params (dqn s') /\
  forall x, Network.dist (dqn_target s') x = Network.dist (dqn s') x /\
            Network.forward (dqn_target s') x = Network.forward (dqn s') x.
Proof.
  intros (Hs & Ho & Ha). cbv zeta. unfold _target_hard_update. cbn.
  assert (Heq : Network.load_state_dict (Network.state_dict (dqn s)) (dqn_target s) = dqn s).
  { unfold Network.load_state_dict, Network.state_dict.
    rewrite <- Hs, <- Ho, <- Ha. by destruct (dqn s). }
  rewrite Heq. done.
Qed.

(** C4, as amended: [__init__] checks nothing about the configuration.
    It succeeds exactly when [memory_size] and [atom_size] are not
    negative (numpy and torch refuse negative sizes), whatever the values
    of [batch_size], [v_min] and [v_max]. *)
Theorem init_checks_nothing env0 ms bs tu ed maxe mine gam vmin vmax A (g : G) (r : R) :
  is_Ok (init env0 ms bs tu ed maxe mine gam vmin vmax A g r) <-> 0 <= ms /\ 0 <= A.
Proof.
  unfold init, ReplayBuffer.init, linspace, Network.init. rsimpl.
  destruct (Z.ltb_spec ms 0); [cbn; lia|].
  destruct (Z.ltb_spec A 0); [cbn; lia|].
  destruct (Z.ltb_spec (Z.of_nat (action_n env0) * A) 0); [nia|].
  destruct (new_layers _ _ g) as [p1 g1]. destruct (new_layers _ _ g1) as [p2 g2].
  cbn. split; [lia|done].
Qed.

End AgentProps.

(** ** Mass that the projection drops *)

(** When [b] is an integer, [l = u = b] and both interpolation weights
    [u - b] and [b - l] are zero: the two terms deposit nothing. *)
Lemma degenerate_weights (p bi : Q) :
  Qfloor bi = Qceiling bi ->
  (p * (float (Qceiling bi) - bi) + p * (bi - float (Qfloor bi)) == 0)%Q.
Proof. intros ->. ring. Qed.

Lemma Qsum_alter (acc : list Q) (j : nat) (x : Q) :
  (j < length acc)%nat ->
  (Qsum (alter (fun y => y + x) j acc) == Qsum acc + x)%Q.
Proof.
  unfold Qsum. revert j. induction acc as [|y acc IH]; intros [|j] Hj; cbn -[Qplus] in *; try lia.
  - ring.
  - rewrite IH by lia. ring.
Qed.

Lemma Qsum_index_add ix : forall acc sx acc',
  index_add_ acc ix sx = Ok acc' -> (Qsum acc' == Qsum acc + Qsum sx)%Q.
Proof.
  induction ix as [|j ix IH]; intros acc [|x sx] acc' Hrun; cbn in Hrun; try done.
  - injection Hrun as <-. unfold Qsum. cbn -[Qplus]. ring.
  - destruct (Z.leb_spec 0 j); [|done].
    destruct (Z.ltb_spec j (Z.of_nat (length acc))); [|done]. cbn in Hrun.
    apply IH in Hrun. rewrite Hrun, Qsum_alter by lia. unfold Qsum. cbn -[Qplus]. ring.
Qed.

Lemma Qsum_weights (p bs : list Q) :
  (Qsum (zip_with Qmult p (zip_with (fun bi ui => float ui - bi) bs (map Qceiling bs)))
   + Qsum (zip_with Qmult p (zip_with (fun bi li => bi - float li) bs (map Qfloor bs)))
   == Qsum (zip_with (fun pi bi => pi * (float (Qceiling bi) - float (Qfloor bi))) p bs))%Q.
Proof.
  unfold Qsum. revert bs.
  induction p as [|pi p IH]; intros [|bi bs]; cbn -[Qplus Qmult Qminus]; try ring.
  rewrite <- IH. ring.
Qed.

Lemma Qsum_replicate_0 n : (Qsum (replicate n 0%Q) == 0)%Q.
Proof. unfold Qsum. induction n as [|n IH]; cbn -[Qplus]; [done|]. rewrite IH. ring. Qed.

(** The mass of a projected row ([pass2 x] is the row of [proj_dist] for
    the batch row [x], see [proj_dist_rows]): source atom [i] contributes
    [p_i * (u_i - l_i)], which is [p_i] off the grid and nothing on it. *)
Lemma projected_row_mass v_min v_max gamma support atom_size (x : Q * Q * list Q) :
  (v_min < v_max)%Q -> 2 <= atom_size -> length support = Z.to_nat atom_size ->
  length x.2 = Z.to_nat atom_size ->
  (Qsum (pass2 v_min v_max gamma support atom_size x)
   == Qsum (zip_with (fun pi bi => pi * (float (Qceiling bi) - float (Qfloor bi))) x.2
              (b_row v_min v_max gamma support atom_size x)))%Q.
Proof.
  intros Hv Ha Hsup Hp.
  destruct (pass1_ok v_min v_max gamma support atom_size Hv Ha Hsup x Hp) as [H1 _].
  destruct (pass2_ok v_min v_max gamma support atom_size Hv Ha Hsup x Hp) as [H2 _].
  apply Qsum_index_add in H1, H2. rewrite H2, H1, Qsum_replicate_0.
  unfold sl_row, su_row, u_row, l_row. rewrite <- Qsum_weights. ring.
Qed.

Lemma ceiling_floor_gap (bi : Q) :
  Qfloor bi <> Qceiling bi -> (float (Qceiling bi) - float (Qfloor bi) == 1)%Q.
Proof.
  intros Hne.
  pose proof (Qle_floor_ceiling bi) as H1. rewrite <- Zle_Qle in H1.
  pose proof (Qceiling_lt bi) as H2. pose proof (Qlt_floor bi) as H3.
  pose proof (Qlt_trans _ _ _ H2 H3) as H4. rewrite <- Zlt_Qlt in H4.
  assert (Qceiling bi = Qfloor bi + 1) as -> by lia.
  unfold float. rewrite inject_Z_plus. ring.
Qed.

Lemma Qsum_off_grid (p bs : list Q) :
  length p = length bs ->
  Forall (fun bi => Qfloor bi <> Qceiling bi) bs ->
  (Qsum (zip_with (fun pi bi => pi * (float (Qceiling bi) - float (Qfloor bi))) p bs)
   == Qsum p)%Q.
Proof.
  unfold Qsum. revert bs.
  induction p as [|pi p IH]; intros [|bi bs] Hlen Hall; cbn -[Qplus Qmult Qminus] in *;
    try done.
  apply Forall_cons in Hall as [Hbi Hall].
  rewrite IH by (done || lia). rewrite (ceiling_floor_gap bi Hbi). ring.
Qed.

(** Where no atom of the row lands on the grid, the projected row carries
    the whole mass of the source row. *)
Lemma projected_row_mass_off_grid v_min v_max gamma support atom_size (x : Q * Q * list Q) :
  (v_min < v_max)%Q -> 2 <= atom_size -> length support = Z.to_nat atom_size ->
  length x.2 = Z.to_nat atom_size ->
  Forall (fun bi => Qfloor bi <> Qceiling bi) (b_row v_min v_max gamma support atom_size x) ->
  (Qsum (pass2 v_min v_max gamma support atom_size x) == Qsum x.2)%Q.
Proof.
  intros Hv Ha Hsup Hp Hoff.
  rewrite projected_row_mass by done.
  apply Qsum_off_grid; [|done].
  unfold b_row. by rewrite length_map, Hp.
Qed.

(** C1 (the code departs from the claim): in the scenario of the claim,
    [v_min = 0], [v_max = 200], 51 atoms, reward 4, [gamma = 1], not done,
    all next-state mass on atom 10, every [b_i] is an integer, both
    weights vanish everywhere, and the projected row is zero in all 51
    places: atom 11 receives nothing and the unit of mass is lost. *)
Theorem on_grid_scenario_projects_to_zero :
  exists support dz row,
    linspace 0 200 51 = Ok support /\ Projection.delta_z 0 200 51 = Ok dz /\
    Projection.proj_dist 0 200 1 support 51 1 dz [4%Q] [0%Q] [one_hot 51 10] = Ok [row] /\
    length row = 51%nat /\ Forall (fun q => q == 0)%Q row /\
    (Qsum (one_hot 51 10) == 1)%Q /\ (Qsum row == 0)%Q.
Proof.
  eexists _, _, _. split; [vm_compute; reflexivity|].
  split; [vm_compute; reflexivity|].
  split; [vm_compute; reflexivity|].
  split; [reflexivity|]. split; [|split; vm_compute; reflexivity].
  repeat constructor.
Qed.

(** C2 (the code departs from the claim): with the default
    hyper-parameters ([gamma = 0.99], [v_min = 0], [v_max = 200], 51 atoms),
    a terminal transition with reward 0 and a next-state row [1/2, 1/2, 0,
    ...] that sums to 1 projects to a row that sums to 0. *)
Theorem projected_row_can_sum_to_zero :
  exists support dz row,
    linspace 0 200 51 = Ok support /\ Projection.delta_z 0 200 51 = Ok dz /\
    Projection.proj_dist 0 200 (99 # 100) support 51 1 dz [0%Q] [1%Q]
      [[1 # 2; 1 # 2] ++ replicate 49 0%Q] = Ok [row] /\
    (Qsum ([1 # 2; 1 # 2] ++ replicate 49 0%Q) == 1)%Q /\ (Qsum row == 0)%Q.
Proof.
  eexists _, _, _. split; [vm_compute; reflexivity|].
  split; [vm_compute; reflexivity|].
  split; [vm_compute; reflexivity|]. split; vm_compute; reflexivity.
Qed.

(** The first half of C3 holds as stated: every entry of [t_z] is the
    clamped shifted atom. *)
Lemma t_z_entry v_min v_max gamma support reward done_ (k i : nat) r d z :
  reward !! k = Some r -> done_ !! k = Some d -> support !! i = Some z ->
  Projection.t_z v_min v_max gamma support reward done_ !! k
    ≫= (fun row => row !! i)
  = Some (clamp v_min v_max (r + (1 - d) * gamma * z))%Q.
Proof.
  intros Hr Hd Hz. unfold Projection.t_z.
  rewrite lookup_zip_with, Hr, Hd. cbn. by rewrite list_lookup_fmap, Hz.
Qed.

(** C3 (the code departs from the claim): with [v_min = 0], [v_max = 200],
    51 atoms, reward -6, [gamma = 1], not done, and the next-state row
    [1/2, 0, 1/2, 0, ...]: atom 0 is shifted to -6, below [v_min], and
    clamped to it, yet its mass 1/2 does not reach index 0.  Index 0 and
    index 1 hold 1/4 each, the two halves of atom 2 (shifted to 2, half way
    between the first two atoms), and the row sums to 1/2. *)
Theorem clamped_mass_is_dropped :
  exists support dz row,
    linspace 0 200 51 = Ok support /\ Projection.delta_z 0 200 51 = Ok dz /\
    Projection.t_z 0 200 1 support [(-6 # 1)%Q] [0%Q] !! 0%nat ≫= (fun tz => tz !! 0%nat)
      = Some (clamp 0 200 ((-6 # 1) + (1 - 0) * 1 * 0))%Q /\
    (clamp 0 200 ((-6 # 1) + (1 - 0) * 1 * 0) == 0)%Q /\
    Projection.proj_dist 0 200 1 support 51 1 dz [(-6 # 1)%Q] [0%Q]
      [[1 # 2; 0%Q; 1 # 2] ++ replicate 48 0%Q] = Ok [row] /\
    (exists q0 q1, row !! 0%nat = Some q0 /\ row !! 1%nat = Some q1 /\
                   q0 == 1 # 4 /\ q1 == 1 # 4)%Q /\
    (Qsum row == 1 # 2)%Q.
Proof.
  eexists _, _, _. split; [vm_compute; reflexivity|].
  split; [vm_compute; reflexivity|].
  split; [vm_compute; reflexivity|].
  split; [vm_compute; reflexivity|].
  split; [vm_compute; reflexivity|].
  split; [|vm_compute; reflexivity].
  eexists _, _. split; [reflexivity|]. split; [reflexivity|].
  split; vm_compute; reflexivity.
Qed.

(** The claim C4 fails on this configuration: one atom, [v_min = v_max],
    a batch larger than the memory, and construction succeeds. *)
Lemma init_accepts_invalid_configuration :
  is_Ok (Toy.agent 10 32 200 (1 # 2000) 1 (1 # 10) (99 # 100) 5 5 1) /\
  1 < 2 /\ (5 <= 5)%Q /\ 10 < 32.
Proof. split; [vm_compute; exact I|]. split; [lia|]. split; [|lia]. by vm_compute. Qed.

(** The claim C5 fails on a buffer of capacity zero: [store] raises. *)
Lemma store_raises_on_capacity_zero :
  exists b : ReplayBuffer.t Q,
    ReplayBuffer.init 1 0 32 = Ok b /\ ReplayBuffer.max_size b = 0%nat /\
    ReplayBuffer.store 0%Q 1 1%Q 0%Q false b = (Raise IndexError, b).
Proof. eexists. split; [reflexivity|]. split; reflexivity. Qed.

(** The claim C7 fails when [max_epsilon < min_epsilon]: with
    [max_epsilon = 0.05] and the default [min_epsilon = 0.1], epsilon starts
    at 0.05, below the floor, and the two updates of a two-frame run record
    0.1 and then 0.100025. *)
Lemma epsilon_can_increase :
  exists a loc a' e1 e2,
    Toy.agent 4 1 2 (1 # 2000) (1 # 20) (1 # 10) (99 # 100) 0 200 51 = Ok a /\
    DQNAgent.train 2 200 a = (Ok loc, a') /\
    DQNAgent.epsilons loc = [e1; e2] /\
    (DQNAgent.epsilon a < DQNAgent.min_epsilon (DQNAgent.hp a))%Q /\
    (DQNAgent.epsilon a < e1)%Q /\ (e1 < e2)%Q /\ DQNAgent.epsilon a' = e2.
Proof.
  eexists _, _, _, _, _. split; [vm_compute; reflexivity|].
  split; [vm_compute; reflexivity|].
  split; [reflexivity|]. split; [by vm_compute|]. split; [by vm_compute|].
  split; [by vm_compute|reflexivity].
Qed.

(** ** The theorems at concrete inputs *)

Lemma store_ring_buffer_witness :
  buffer_inv Toy.buffer2 /\ (0 < ReplayBuffer.max_size Toy.buffer2)%nat /\
  exists b', stores [(3%Q, 0, 1%Q, 4%Q, false); (4%Q, 1, 1%Q, 5%Q, false);
                     (5%Q, 1, 1%Q, 6%Q, true)] Toy.buffer2 = (Ok tt, b') /\
    ReplayBuffer.len b' = 2%nat /\
    forall j, (j < 2)%nat ->
      transition_at b' ((ReplayBuffer.ptr b' + j) mod 2)%nat
      = (stored <$> [(3%Q, 0, 1%Q, 4%Q, false); (4%Q, 1, 1%Q, 5%Q, false);
                     (5%Q, 1, 1%Q, 6%Q, true)]) !! (3 - 2 + j)%nat.
Proof.
  assert (Hinv : buffer_inv Toy.buffer2) by (unfold buffer_inv; cbn; repeat split; lia).
  assert (Hpos : (0 < ReplayBuffer.max_size Toy.buffer2)%nat) by (cbn; lia).
  split; [exact Hinv|]. split; [exact Hpos|].
  apply (store_ring_buffer Toy.buffer2 Hinv Hpos). cbn. lia.
Defined.

Lemma sample_batch_without_replacement_witness :
  buffer_inv Toy.buffer2 /\
  0 <= ReplayBuffer.batch_size Toy.buffer2 <= Z.of_nat (ReplayBuffer.size Toy.buffer2) /\
  exists idxs batch r',
    ReplayBuffer.sample_batch Toy.buffer2 (5%nat : nat) = (Ok batch, r') /\
    length idxs = 2%nat /\ NoDup idxs /\
    (forall i, i ∈ idxs -> (i < 2)%nat) /\
    Some <$> ReplayBuffer.b_obs batch = (ReplayBuffer.obs_buf Toy.buffer2 !!.) <$> idxs.
Proof.
  assert (Hinv : buffer_inv Toy.buffer2) by (unfold buffer_inv; cbn; repeat split; lia).
  assert (Hk : 0 <= ReplayBuffer.batch_size Toy.buffer2 <= Z.of_nat (ReplayBuffer.size Toy.buffer2))
    by (cbn; lia).
  split; [exact Hinv|]. split; [exact Hk|].
  destruct (sample_batch_without_replacement Toy.buffer2 (5%nat : nat) Hinv) as [Hok _].
  destruct (Hok Hk) as (idxs & batch & r' & Hrun & Hlen & Hnd & Hlt & Ho & _).
  exists idxs, batch, r'. auto.
Defined.

Lemma epsilon_schedule_witness :
  exists a,
    Toy.agent 4 2 2 (1 # 4) 1 (1 # 10) (99 # 100) 0 2 3 = Ok a /\
    (DQNAgent.min_epsilon (DQNAgent.hp a) <= DQNAgent.max_epsilon (DQNAgent.hp a))%Q /\
    (0 <= DQNAgent.epsilon_decay (DQNAgent.hp a))%Q /\
    (DQNAgent.min_epsilon (DQNAgent.hp a) <= DQNAgent.epsilon a)%Q /\
    (DQNAgent.min_epsilon (DQNAgent.hp a)
       <= DQNAgent.epsilon (DQNAgent.train 6 200 a).2 <= DQNAgent.epsilon a)%Q.
Proof.
  eexists. split; [vm_compute; reflexivity|].
  match goal with |- (?m <= ?x)%Q /\ (0 <= ?d)%Q /\ (?m <= ?e)%Q /\ _ =>
    assert (Hmm : (m <= x)%Q) by (by vm_compute);
    assert (Hd : (0 <= d)%Q) by (by vm_compute);
    assert (He : (m <= e)%Q) by (by vm_compute)
  end.
  split; [exact Hmm|]. split; [exact Hd|]. split; [exact He|].
  match goal with |- context [DQNAgent.train 6 200 ?a] =>
    destruct (epsilon_schedule a Hmm Hd He) as [_ Hrun] end.
  exact (proj1 (Hrun 6 200)).
Defined.

Lemma test_mode_leaves_buffer_witness :
  exists a,
    Toy.agent 4 2 2 (1 # 4) 1 (1 # 10) (99 # 100) 0 2 3 = Ok a /\
    DQNAgent.is_test (DQNAgent.set_is_test true a) = true /\
    DQNAgent.memory
      (run_calls [SelectAction 0%Q; Step 1; SelectAction 1%Q; Step 0]
                 (DQNAgent.set_is_test true a)).2
    = DQNAgent.memory a.
Proof.
  eexists. split; [vm_compute; reflexivity|]. split; [reflexivity|].
  match goal with |- DQNAgent.memory (run_calls ?cs ?s).2 = _ =>
    exact (proj1 (test_mode_leaves_buffer cs s eq_refl)) end.
Defined.

Lemma hard_update_syncs_witness :
  exists a loc s,
    Toy.agent 4 2 2 (1 # 4) 1 (1 # 10) (99 # 100) 0 2 3 = Ok a /\
    DQNAgent.train 6 200 a = (Ok loc, s) /\
    same_arch (DQNAgent.dqn s) (DQNAgent.dqn_target s) /\
    Network.params (DQNAgent.dqn_target s) <> Network.params (DQNAgent.dqn s) /\
    Network.params (DQNAgent.dqn_target (DQNAgent._target_hard_update s).2)
      = Network.params (DQNAgent.dqn (DQNAgent._target_hard_update s).2) /\
    forall x,
      Network.forward (DQNAgent.dqn_target (DQNAgent._target_hard_update s).2) x
      = Network.forward (DQNAgent.dqn (DQNAgent._target_hard_update s).2) x.
Proof.
  eexists _, _, _. split; [vm_compute; reflexivity|].
  split; [vm_compute; reflexivity|].
  match goal with |- same_arch ?n1 ?n2 /\ _ =>
    assert (Harch : same_arch n1 n2) by (unfold same_arch; cbn; repeat split; reflexivity)
  end.
  split; [exact Harch|].
  split; [cbn; intros Heq; discriminate Heq|].
  match goal with |- context [DQNAgent._target_hard_update ?s] =>
    destruct (hard_update_syncs s Harch) as (_ & _ & Hpar & Hout) end.
  split; [exact Hpar|]. intros x. exact (proj2 (Hout x)).
Defined.

(** * Further properties *)

(** ** ReplayBuffer, from construction on *)

Section BufferLife.
Context {Obs : Type} `{Observation Obs}.
Implicit Types (b : ReplayBuffer.t Obs) (xs : list (store_args (Obs := Obs))).

Import ReplayBuffer.

(** A run of [store] calls that hits an exception stops there; on a buffer
    without rows the first call is the one. *)
Lemma stores_empty xs b :
  buffer_inv b -> max_size b = 0%nat -> (stores xs b).2 = b.
Proof.
  intros Hinv H0. destruct xs as [|[[[[o a] r] o'] d] xs]; [done|].
  cbn [stores]. rewrite bind_run, store_empty by done. done.
Qed.

Lemma stores_state xs b :
  buffer_inv b ->
  let b' := (stores xs b).2 in
  buffer_inv b' /\ max_size b' = max_size b /\ batch_size b' = batch_size b /\
  (size b' <= size b + length xs)%nat.
Proof.
  intros Hinv. cbv zeta. destruct (decide (0 < max_size b)%nat) as [Hpos|Hz].
  - destruct (stores_spec xs b Hinv Hpos) as (b' & -> & Hinv' & Hm & Hb & Hs & _).
    cbn. split_and!; try done. rewrite Hs. lia.
  - rewrite stores_empty by (done || lia). split_and!; try done. lia.
Qed.

(** X1: [ReplayBuffer(obs_dim, size, batch_size)] raises [ValueError] for a
    negative [size] and otherwise returns an empty buffer; whatever sequence
    of [store] calls follows, and wherever it stops on an exception, the
    five arrays keep [size] rows, [max_size] and [batch_size] keep their
    values, and [len] is at most the number of calls and at most
    [max_size]. *)
Theorem buffer_invariant (obs_dim : nat) (n bs : Z) xs :
  (n < 0 -> init (Obs := Obs) obs_dim n bs = Raise ValueError) /\
  (0 <= n ->
   exists b0, init obs_dim n bs = Ok b0 /\ len b0 = 0%nat /\
     let b' := (stores xs b0).2 in
     buffer_inv b' /\ max_size b' = Z.to_nat n /\ batch_size b' = bs /\
     (len b' <= length xs)%nat /\ (len b' <= max_size b')%nat).
Proof.
  split.
  - intros Hn. unfold init. destruct (Z.ltb_spec n 0); [done|lia].
  - intros Hn. destruct (init obs_dim n bs) as [b0|e] eqn:Hinit.
    2: { unfold init in Hinit. destruct (Z.ltb_spec n 0); [lia|done]. }
    destruct (init_inv _ _ _ _ Hinit) as (Hinv & Hm & Hb & Hp & Hs).
    exists b0. split; [done|]. split; [done|]. cbv zeta.
    destruct (stores_state xs b0 Hinv) as (Hinv' & Hm' & Hb' & Hs').
    unfold len. rewrite Hm', Hb', Hm, Hb. split_and!; try done; [lia|].
    rewrite <- Hm, <- Hm'. apply Hinv'.
Qed.

(** Reading an array back from its oldest-first view, when the buffer was
    fresh and is not yet over-full. *)
Lemma unrotate_fill {A} (arr arr' ys : list A) (c : nat) :
  length arr = c -> length arr' = c -> (length ys <= c)%nat -> (0 < c)%nat ->
  rotate (length ys mod c) arr' = drop (length ys) (rotate 0 arr ++ ys) ->
  arr' = ys ++ drop (length ys) arr.
Proof.
  intros La La' Hn Hc Hrot.
  assert (R0 : rotate 0 arr = arr).
  { unfold rotate. rewrite Nat.Div0.mod_0_l, drop_0, take_0. apply app_nil_r. }
  rewrite R0 in Hrot.
  rewrite drop_app_le in Hrot by lia.
  destruct (decide (length ys = c)) as [Heq|Hne].
  - rewrite Heq, Nat.Div0.mod_same in Hrot.
    assert (R0' : rotate 0 arr' = arr').
    { unfold rotate. rewrite Nat.Div0.mod_0_l, drop_0, take_0. apply app_nil_r. }
    rewrite R0' in Hrot. rewrite Hrot. rewrite Heq, drop_ge by lia.
    by rewrite app_nil_l, app_nil_r.
  - rewrite Nat.mod_small in Hrot by lia.
    unfold rotate in Hrot. rewrite La', Nat.mod_small in Hrot by lia.
    apply app_inj_1 in Hrot as [Hd Ht]; [|rewrite !length_drop; lia].
    rewrite <- (take_drop (length ys) arr'). by rewrite Hd, Ht.
Qed.

Lemma unrotate_lookup {A B} (f : B -> A) (arr arr' : list A) (xs : list B) (c p i : nat) :
  length arr = c -> length arr' = c -> (c <= length xs)%nat -> (i < c)%nat ->
  rotate p arr' = drop (length xs) (arr ++ map f xs) ->
  arr' !! i = f <$> xs !! (length xs + rotate_nat_sub p i c - c)%nat.
Proof.
  intros La La' Hn Hi Hrot.
  pose proof (rotate_nat_sub_lt p i c ltac:(lia)) as Hj.
  transitivity (rotate p arr' !! rotate_nat_sub p i c).
  - rewrite lookup_rotate_r by lia. rewrite La', rotate_nat_add_sub by lia. done.
  - rewrite Hrot, lookup_drop, lookup_app_r by lia.
    rewrite <- list_lookup_fmap. f_equal. lia.
Qed.

Lemma rotate_0 {A} (l : list A) : rotate 0 l = l.
Proof. unfold rotate. rewrite Nat.Div0.mod_0_l, drop_0, take_0. apply app_nil_r. Qed.

(** The arrays of a fresh buffer after at most [max_size] stores: the stored
    rows in order, then the rows that are still zero. *)
Lemma fresh_fill (obs_dim : nat) (n bs : Z) xs b0 :
  init obs_dim n bs = Ok b0 ->
  (length xs <= Z.to_nat n)%nat ->
  exists b, stores xs b0 = (Ok tt, b) /\
    len b = length xs /\ ptr b = (length xs mod Z.to_nat n)%nat /\
    let rest {A} (z : A) := replicate (Z.to_nat n - length xs) z in
    obs_buf b = map (fun x => (stored x).1.1.1.1) xs ++ rest (np_zeros obs_dim) /\
    acts_buf b = map (fun x => (stored x).1.1.1.2) xs ++ rest 0%Q /\
    rews_buf b = map (fun x => (stored x).1.1.2) xs ++ rest 0%Q /\
    next_obs_buf b = map (fun x => (stored x).1.2) xs ++ rest (np_zeros obs_dim) /\
    done_buf b = map (fun x => (stored x).2) xs ++ rest 0%Q.
Proof.
  intros Hinit Hlen.
  destruct (init_inv _ _ _ _ Hinit) as (Hinv & Hm & Hb & Hp & Hs).
  assert (Harr : obs_buf b0 = replicate (Z.to_nat n) (np_zeros obs_dim) /\
                 acts_buf b0 = replicate (Z.to_nat n) 0%Q /\
                 rews_buf b0 = replicate (Z.to_nat n) 0%Q /\
                 next_obs_buf b0 = replicate (Z.to_nat n) (np_zeros obs_dim) /\
                 done_buf b0 = replicate (Z.to_nat n) 0%Q).
  { unfold init in Hinit. destruct (n <? 0); [done|]. injection Hinit as <-. cbn. done. }
  destruct Harr as (Ho & Ha & Hr & Ho' & Hd).
  destruct (decide (0 < max_size b0)%nat) as [Hpos|Hz].
  - destruct (stores_spec xs b0 Hinv Hpos)
      as (b & Hrun & Hinv' & Hm' & Hb' & Hs' & Hp' & Ro & Ra & Rr & Ro' & Rd).
    exists b. split; [done|]. unfold len.
    split; [rewrite Hs', Hs, Hm; lia|].
    split; [by rewrite Hp', Hp, Hm|]. cbv zeta.
    destruct Hinv as (L1 & L2 & L3 & L4 & L5 & _).
    destruct Hinv' as (L1' & L2' & L3' & L4' & L5' & _).
    rewrite Hp', Hp, Hm in *. cbn [Nat.add] in *. rewrite Hm' in *.
    split_and!.
    + rewrite <- (length_map (fun x => (stored x).1.1.1.1) xs) in Ro.
      eapply unrotate_fill in Ro; [|done|done|rewrite length_map; lia|lia].
      rewrite Ro, Ho, drop_replicate, length_map. done.
    + rewrite <- (length_map (fun x => (stored x).1.1.1.2) xs) in Ra.
      eapply unrotate_fill in Ra; [|done|done|rewrite length_map; lia|lia].
      rewrite Ra, Ha, drop_replicate, length_map. done.
    + rewrite <- (length_map (fun x => (stored x).1.1.2) xs) in Rr.
      eapply unrotate_fill in Rr; [|done|done|rewrite length_map; lia|lia].
      rewrite Rr, Hr, drop_replicate, length_map. done.
    + rewrite <- (length_map (fun x => (stored x).1.2) xs) in Ro'.
      eapply unrotate_fill in Ro'; [|done|done|rewrite length_map; lia|lia].
      rewrite Ro', Ho', drop_replicate, length_map. done.
    + rewrite <- (length_map (fun x => (stored x).2) xs) in Rd.
      eapply unrotate_fill in Rd; [|done|done|rewrite length_map; lia|lia].
      rewrite Rd, Hd, drop_replicate, length_map. done.
  - assert (xs = []) as -> by (apply nil_length_inv; lia).
    exists b0. split; [done|]. unfold len. cbn.
    rewrite Hs, Hp, Ho, Ha, Hr, Ho', Hd, Nat.sub_0_r.
    destruct (Z.to_nat n); [done|lia].
Qed.

(** X2: as long as a fresh buffer is not over-full, nothing is overwritten:
    after [N <= max_size] stores every call has returned, [len] is [N], the
    cursor is [N mod max_size], row [j] holds the [j]-th stored transition
    for every [j < N], and the rows from [N] on are still zero. *)
Theorem fresh_buffer_fills_in_order (obs_dim : nat) (n bs : Z) xs b0 :
  init obs_dim n bs = Ok b0 ->
  (length xs <= Z.to_nat n)%nat ->
  exists b, stores xs b0 = (Ok tt, b) /\
    len b = length xs /\ ptr b = (length xs mod Z.to_nat n)%nat /\
    (forall j x, xs !! j = Some x -> transition_at b j = Some (stored x)) /\
    (forall j, (length xs <= j < Z.to_nat n)%nat ->
       transition_at b j = Some (np_zeros obs_dim, 0%Q, 0%Q, np_zeros obs_dim, 0%Q)).
Proof.
  intros Hinit Hfit.
  destruct (fresh_fill obs_dim n bs xs b0 Hinit Hfit)
    as (b & Hrun & Hl & Hp & Ro & Ra & Rr & Ro' & Rd).
  exists b. split; [done|]. split; [done|]. split; [done|].
  unfold transition_at. rewrite Ro, Ra, Rr, Ro', Rd. split.
  - intros j x Hx. pose proof (lookup_lt_Some _ _ _ Hx) as Hj.
    rewrite !lookup_app_l by (rewrite length_map; lia).
    rewrite !list_lookup_fmap, Hx. by destruct x as [[[[? ?] ?] ?] ?].
  - intros j Hj. rewrite !lookup_app_r by (rewrite length_map; lia).
    rewrite !length_map, !lookup_replicate_2 by lia. done.
Qed.

(** Every row below [size] of a buffer filled from a fresh one holds one of
    the stored transitions. *)
Lemma slot_is_stored (obs_dim : nat) (n bs : Z) xs b0 b :
  init obs_dim n bs = Ok b0 -> stores xs b0 = (Ok tt, b) ->
  forall i, (i < size b)%nat ->
  exists x, x ∈ xs /\ transition_at b i = Some (stored x).
Proof.
  intros Hinit Hrun i Hi.
  destruct (init_inv _ _ _ _ Hinit) as (Hinv & Hm & Hb & Hp & Hs).
  destruct (decide (0 < max_size b0)%nat) as [Hpos|Hz].
  2: { pose proof (stores_state xs b0 Hinv) as Hst. rewrite Hrun in Hst.
       cbn in Hst. destruct Hst as (Hinv' & Hm' & _).
       destruct Hinv' as (_ & _ & _ & _ & _ & Hle & _). lia. }
  destruct (decide (length xs <= Z.to_nat n)%nat) as [Hfit|Hover].
  - destruct (fresh_fill obs_dim n bs xs b0 Hinit Hfit)
      as (b' & Hrun' & Hl & _ & Ro & Ra & Rr & Ro' & Rd).
    rewrite Hrun in Hrun'. simplify_eq. unfold len in Hl. rewrite Hl in Hi.
    destruct (lookup_lt_is_Some_2 xs i Hi) as [x Hx].
    exists x. split; [by eapply list_elem_of_lookup_2|].
    unfold transition_at. rewrite Ro, Ra, Rr, Ro', Rd.
    rewrite !lookup_app_l by (rewrite length_map; lia).
    rewrite !list_lookup_fmap, Hx. by destruct x as [[[[? ?] ?] ?] ?].
  - destruct (stores_spec xs b0 Hinv Hpos)
      as (b' & Hrun' & Hinv' & Hm' & Hb' & Hs' & Hp' & Ro & Ra & Rr & Ro' & Rd).
    rewrite Hrun in Hrun'. simplify_eq.
    destruct Hinv as (L1 & L2 & L3 & L4 & L5 & _).
    destruct Hinv' as (L1' & L2' & L3' & L4' & L5' & Hle & _).
    rewrite Hp, !rotate_0 in *.
    set (m := (length xs + rotate_nat_sub (ptr b') i (max_size b0) - max_size b0)%nat).
    pose proof (rotate_nat_sub_lt (ptr b') i (max_size b0) ltac:(lia)) as Hj.
    assert (Hmlt : (m < length xs)%nat) by (unfold m; lia).
    destruct (lookup_lt_is_Some_2 xs m Hmlt) as [x Hx].
    exists x. split; [by eapply list_elem_of_lookup_2|].
    unfold transition_at.
    rewrite Hm' in *.
    assert (Hc : (max_size b0 <= length xs)%nat) by lia.
    assert (Hi' : (i < max_size b0)%nat) by lia.
    rewrite (unrotate_lookup _ _ _ _ _ _ i L1 L1' Hc Hi' Ro).
    rewrite (unrotate_lookup _ _ _ _ _ _ i L3 L3' Hc Hi' Ra).
    rewrite (unrotate_lookup _ _ _ _ _ _ i L4 L4' Hc Hi' Rr).
    rewrite (unrotate_lookup _ _ _ _ _ _ i L2 L2' Hc Hi' Ro').
    rewrite (unrotate_lookup _ _ _ _ _ _ i L5 L5' Hc Hi' Rd).
    fold m. rewrite Hx. by destruct x as [[[[? ?] ?] ?] ?].
Qed.

End BufferLife.

Section BufferSampling.
Context {Obs R : Type} `{Observation Obs} `{RandomState R}.
Implicit Types (b : ReplayBuffer.t Obs) (xs : list (store_args (Obs := Obs))).

Import ReplayBuffer.

Lemma gathered_lookup {A} (a l : list A) (idxs : list nat) k :
  Some <$> l = (a !!.) <$> idxs -> l !! k = idxs !! k ≫= (a !!.).
Proof.
  intros Hmap. apply (f_equal (.!! k)) in Hmap.
  rewrite !list_lookup_fmap in Hmap.
  destruct (idxs !! k) as [i|]; destruct (l !! k) as [x|]; by simplify_eq/=.
Qed.

(** What a [sample_batch] call that returned has done: the indices are the
    head of a shuffle of [range(size)], and row [k] of every array of the
    batch is row [idxs[k]] of the buffer. *)
Lemma sample_batch_inv b (r : R) batch r' :
  buffer_inv b -> sample_batch b r = (Ok batch, r') ->
  0 <= batch_size b <= Z.of_nat (size b) /\
  exists perm, perm ≡ₚ seq 0 (size b) /\
    let idxs := take (Z.to_nat (batch_size b)) perm in
    forall k, batch_at batch k = idxs !! k ≫= transition_at b.
Proof.
  intros Hinv Hrun. unfold sample_batch, choice, permutation in Hrun.
  destruct (Z.ltb_spec (batch_size b) 0); [by msimpl|].
  destruct (Z.ltb_spec (Z.of_nat (size b)) (batch_size b)); [by msimpl|].
  split; [lia|].
  destruct (shuffle_perm (size b - 1) (seq 0 (size b)) r) as (perm & r1 & Hsh & Hperm).
  msimpl. rewrite Hsh in Hrun. exists perm. split; [done|]. cbv zeta.
  set (idxs := take (Z.to_nat (batch_size b)) perm) in *.
  assert (Hlt : forall i, i ∈ idxs -> (i < size b)%nat).
  { intros i Hi. apply elem_of_take in Hi as (j & Hj & _).
    apply list_elem_of_lookup_2 in Hj. rewrite Hperm in Hj.
    apply elem_of_seq in Hj. lia. }
  destruct Hinv as (L1 & L2 & L3 & L4 & L5 & Hle & _).
  destruct (getitems_ok (obs_buf b) idxs) as (o & Ho & Mo).
  { intros i Hi. specialize (Hlt i Hi). lia. }
  destruct (getitems_ok (next_obs_buf b) idxs) as (o' & Ho' & Mo').
  { intros i Hi. specialize (Hlt i Hi). lia. }
  destruct (getitems_ok (acts_buf b) idxs) as (a & Ha & Ma).
  { intros i Hi. specialize (Hlt i Hi). lia. }
  destruct (getitems_ok (rews_buf b) idxs) as (w & Hw & Mw).
  { intros i Hi. specialize (Hlt i Hi). lia. }
  destruct (getitems_ok (done_buf b) idxs) as (d & Hd & Md).
  { intros i Hi. specialize (Hlt i Hi). lia. }
  unfold gather in Hrun. rewrite Ho, Ho', Ha, Hw, Hd in Hrun. cbn in Hrun.
  simplify_eq. intros k. unfold batch_at, transition_at. cbn.
  rewrite (gathered_lookup _ _ _ k Mo), (gathered_lookup _ _ _ k Mo'),
    (gathered_lookup _ _ _ k Ma), (gathered_lookup _ _ _ k Mw),
    (gathered_lookup _ _ _ k Md).
  destruct (idxs !! k) as [i|]; [|done]. cbn.
  destruct (obs_buf b !! i); [|done]. cbn.
  destruct (acts_buf b !! i); [|done]. cbn.
  destruct (rews_buf b !! i); [|done]. cbn.
  destruct (next_obs_buf b !! i); [|done]. cbn.
  destruct (done_buf b !! i); done.
Qed.

Lemma sample_batch_ok b (r : R) :
  buffer_inv b -> 0 <= batch_size b <= Z.of_nat (size b) ->
  exists batch r', sample_batch b r = (Ok batch, r').
Proof.
  intros Hinv Hk. unfold sample_batch. msimpl.
  destruct (choice_ok (size b) (batch_size b) r Hk) as (idxs & r' & Hc & _ & _ & Hlt).
  rewrite Hc. unfold gather.
  destruct Hinv as (L1 & L2 & L3 & L4 & L5 & Hle & _).
  destruct (getitems_ok (obs_buf b) idxs) as (? & -> & _).
  { intros i Hi. specialize (Hlt i Hi). lia. }
  destruct (getitems_ok (next_obs_buf b) idxs) as (? & -> & _).
  { intros i Hi. specialize (Hlt i Hi). lia. }
  destruct (getitems_ok (acts_buf b) idxs) as (? & -> & _).
  { intros i Hi. specialize (Hlt i Hi). lia. }
  destruct (getitems_ok (rews_buf b) idxs) as (? & -> & _).
  { intros i Hi. specialize (Hlt i Hi). lia. }
  destruct (getitems_ok (done_buf b) idxs) as (? & -> & _).
  { intros i Hi. specialize (Hlt i Hi). lia. }
  cbn. eauto.
Qed.

(** X3: a batch sampled from a buffer that was built by [__init__] and
    [store] calls only has [batch_size <= number of stores], and each of its
    [batch_size] rows is one of the stored transitions, the same one in all
    five arrays: a zero-initialised row is never sampled. *)
Theorem sample_returns_stored_transitions
    (obs_dim : nat) (n bs : Z) xs b0 b (r : R) batch r' :
  init obs_dim n bs = Ok b0 -> stores xs b0 = (Ok tt, b) ->
  sample_batch b r = (Ok batch, r') ->
  0 <= bs <= Z.of_nat (length xs) /\
  forall k, (k < Z.to_nat bs)%nat ->
    exists x, x ∈ xs /\ batch_at batch k = Some (stored x).
Proof.
  intros Hinit Hst Hrun.
  destruct (init_inv _ _ _ _ Hinit) as (Hinv0 & Hm & Hb & Hp & Hs).
  pose proof (stores_state xs b0 Hinv0) as Hstate. rewrite Hst in Hstate.
  cbn in Hstate. destruct Hstate as (Hinv & Hm' & Hb' & Hs').
  destruct (sample_batch_inv b r batch r' Hinv Hrun) as (Hk & perm & Hperm & Hrows).
  cbv zeta in Hrows. rewrite Hb', Hb in *.
  split; [lia|]. intros k Hklt.
  assert (Hlen : length perm = size b) by (by rewrite Hperm, length_seq).
  destruct (lookup_lt_is_Some_2 (take (Z.to_nat bs) perm) k) as [i Hi].
  { rewrite length_take. lia. }
  assert (Hilt : (i < size b)%nat).
  { apply list_elem_of_lookup_2, elem_of_take in Hi as (j & Hj & _).
    apply list_elem_of_lookup_2 in Hj. rewrite Hperm in Hj.
    apply elem_of_seq in Hj. lia. }
  destruct (slot_is_stored obs_dim n bs xs b0 b Hinit Hst i Hilt) as (x & Hx & Hrow).
  exists x. split; [done|]. by rewrite Hrows, Hi.
Qed.

(** X4: when [batch_size] equals [len], a sampled batch is a shuffle of the
    whole buffer: its rows are the rows [0 .. len-1] of the buffer, each
    exactly once, in the order of a permutation of these indices. *)
Theorem full_sample_is_a_shuffle b (r : R) batch r' :
  buffer_inv b -> batch_size b = Z.of_nat (size b) ->
  sample_batch b r = (Ok batch, r') ->
  exists idxs, idxs ≡ₚ seq 0 (size b) /\
    forall k, batch_at batch k = idxs !! k ≫= transition_at b.
Proof.
  intros Hinv Hfull Hrun.
  destruct (sample_batch_inv b r batch r' Hinv Hrun) as (Hk & perm & Hperm & Hrows).
  exists perm. split; [done|]. cbv zeta in Hrows.
  assert (Hlen : length perm = size b) by (by rewrite Hperm, length_seq).
  rewrite Hfull, Nat2Z.id, take_ge in Hrows by lia. done.
Qed.

End BufferSampling.

(** ** The agent's protocol: [select_action], [step], [train] *)

Section AgentProtocol.
Context {Obs E P O G R : Type}.
Context `{Observation Obs} `{Env Obs E} `{Torch Obs P O G} `{RandomState R}.
Implicit Types (s : DQNAgent.t Obs E P O R) (loc : DQNAgent.locals Obs).

Import DQNAgent.

(** [step] in training mode, entered with a pending [state, action] pair. *)
Lemma step_run_pending a s o a0 :
  is_test s = false -> transition s = [IObs o; IAct a0] ->
  step a s =
    let '((o', rew, d), e1) := env_step a (env s) in
    let s1 := set_transition [IObs o; IAct a0; IFloat rew; IObs o'; IBool d] (set_env e1 s) in
    match ReplayBuffer.store o a0 rew o' d (memory s) with
    | (Ok _, m) => (Ok (o', rew, d), set_memory m s1)
    | (Raise e, m) => (Raise e, set_memory m s1)
    end.
Proof.
  intros Ht Htr. unfold step. msimpl. cbn.
  destruct (env_step a (env s)) as [[[o' rew] d] e1]. cbn. rewrite Ht. cbn. rewrite Htr. cbn.
  by destruct (ReplayBuffer.store _ _ _ _ _ _) as [[[]|e] m].
Qed.

(** X7: [step] in training mode, with the pair [state, action] pending and
    a buffer that has room: the call returns the environment's answer and
    stores one row, at the cursor, made of the pending state, the pending
    action (not the argument of [step]), the reward, the next state and the
    done flag. *)
Theorem step_stores_pending_transition a s o a0 o' rew d e1 :
  is_test s = false -> transition s = [IObs o; IAct a0] ->
  buffer_inv (memory s) -> (0 < ReplayBuffer.max_size (memory s))%nat ->
  env_step a (env s) = ((o', rew, d), e1) ->
  let s' := (step a s).2 in
  (step a s).1 = Ok (o', rew, d) /\
  memory s' = after_store (memory s) o a0 rew o' d /\
  transition_at (memory s') (ReplayBuffer.ptr (memory s))
    = Some (o, float a0, rew, o', float_of_bool d) /\
  ReplayBuffer.len (memory s')
    = Nat.min (ReplayBuffer.len (memory s) + 1) (ReplayBuffer.max_size (memory s)) /\
  env s' = e1 /\
  transition s' = [IObs o; IAct a0; IFloat rew; IObs o'; IBool d].
Proof.
  intros Ht Htr Hinv Hpos Hstep. rewrite (step_run_pending a s o a0 Ht Htr), Hstep.
  rewrite store_ok by done. cbn. split_and!; try done.
  rewrite transition_at_after_store by done. by rewrite decide_True.
Qed.

(** X8: [step] in training mode with a pending list that does not have
    exactly two entries (no [select_action] before it, or a second [step]
    after one) raises [TypeError]: the environment has already advanced,
    the buffer is untouched, and the pending list has grown by three
    entries. *)
Theorem step_without_pending_pair_raises a s :
  is_test s = false ->
  length (transition s) <> 2%nat ->
  let s' := (step a s).2 in
  (step a s).1 = Raise TypeError /\
  memory s' = memory s /\
  env s' = (env_step a (env s)).2 /\
  length (transition s') = (length (transition s) + 3)%nat.
Proof.
  intros Ht Hne. unfold step. msimpl. cbn.
  destruct (env_step a (env s)) as [[[o' rew] d] e1]. cbn. rewrite Ht. cbn.
  assert (Hl : length (transition s ++ [IFloat rew; IObs o'; IBool d])
               = (length (transition s) + 3)%nat) by (by rewrite length_app).
  destruct (transition s) as [|i1 [|i2 [|i3 tr]]] eqn:Htr; cbn in *.
  - done.
  - destruct i1; done.
  - done.
  - destruct i1, i2, i3; try done;
      destruct tr as [|i4 [|i5 [|i6 tr]]]; try done; cbn;
      try destruct i4; try destruct i5; try done.
Qed.

(** What the update block leaves alone, whether or not it raises. *)
Lemma train_update_frame loc s :
  let s' := (train_update loc s).2 in
  hp s' = hp s /\ memory s' = memory s /\ is_test s' = is_test s /\
  env s' = env s /\ transition s' = transition s.
Proof.
  cbv zeta. unfold train_update, _target_hard_update. msimpl.
  pose proof (update_model_frame s) as (Hh & Hm & _ & _ & Htr & Ht & He & _).
  cbv zeta in *.
  destruct (update_model s) as [[loss|e] s1]; cbn [fst snd] in *; [|done].
  cbn. destruct (target_update (hp s1) =? 0); cbn; [done|].
  destruct ((update_cnt loc + 1) `mod` target_update (hp s1) =? 0); cbn; done.
Qed.

(** The update block does not touch the episode bookkeeping of [train]. *)
Lemma train_update_locals loc s loc' s' :
  train_update loc s = (Ok loc', s') ->
  state loc' = state loc /\ scores loc' = scores loc /\
  score loc' = score loc /\ mov_avg loc' = mov_avg loc.
Proof.
  unfold train_update, _target_hard_update. msimpl.
  destruct (update_model s) as [[loss|e] s1]; cbn [fst snd] in *; [|done].
  cbn. destruct (target_update (hp s1) =? 0); cbn; [done|].
  destruct ((update_cnt loc + 1) `mod` target_update (hp s1) =? 0); cbn;
    intros; by simplify_eq/=.
Qed.

(** Outside test mode a [select_action] that returns leaves exactly the
    pair [state, action] pending, whatever was pending before. *)
Lemma select_action_pending x s a s1 :
  is_test s = false -> select_action x s = (Ok a, s1) ->
  transition s1 = [IObs x; IAct a].
Proof.
  intros Ht. unfold select_action. msimpl. rewrite Ht.
  repeat (cbn; case_match; simplify_eq); cbn; intros; by simplify_eq/=.
Qed.

(** A frame of [train] that returns has made one [store] call, with the
    state it started from, the action it selected and the environment's
    answer. *)
Lemma train_frame_run pi idx loc s loc' s' :
  is_test s = false ->
  train_frame pi idx loc s = (Ok loc', s') ->
  exists a s1 o' rew d e2,
    select_action (state loc) s = (Ok a, s1) /\
    env_step a (env s1) = ((o', rew, d), e2) /\
    ReplayBuffer.store (state loc) a rew o' d (memory s) = (Ok tt, memory s') /\
    is_test s' = false /\
    (d = false -> state loc' = o' /\ score loc' = (score loc + rew)%Q /\
                  scores loc' = scores loc /\ mov_avg loc' = mov_avg loc) /\
    (d = true -> state loc' = (env_reset e2).1 /\ score loc' = 0%Q /\
                 scores loc' = scores loc ++ [(score loc + rew)%Q] /\
                 mov_avg loc' = mov_avg loc
                   ++ [mean (last_n 5 (scores loc ++ [(score loc + rew)%Q]))]).
Proof.
  intros Ht Hrun. unfold train_frame in Hrun. rewrite bind_run in Hrun.
  pose proof (select_action_frame (state loc) s) as (_ & Sm & _ & _ & _ & _ & St & _).
  cbv zeta in *.
  destruct (select_action (state loc) s) as [[a|e] s1] eqn:Hsel; [|done].
  cbn [fst snd] in *.
  pose proof (select_action_pending _ _ _ _ Ht Hsel) as Htr.
  rewrite bind_run in Hrun.
  rewrite (step_run_pending a s1 (state loc) a) in Hrun by congruence.
  destruct (env_step a (env s1)) as [[[o' rew] d] e2] eqn:Hstep.
  rewrite Sm in Hrun.
  destruct (ReplayBuffer.store (state loc) a rew o' d (memory s)) as [[[]|e] m] eqn:Hst;
    [|done].
  exists a, s1, o', rew, d, e2. split; [done|]. split; [done|].
  cbv beta zeta iota in Hrun.
  set (s2 := set_memory m (set_transition _ (set_env e2 s1))) in Hrun.
  assert (M2 : memory s2 = m) by done.
  assert (T2 : is_test s2 = false) by (unfold s2; cbn; congruence).
  assert (E2 : env s2 = e2) by done.
  clearbody s2. msimpl.
  assert (Hd : forall st e3, env_reset e2 = (st, e3) -> st = (env_reset e2).1)
    by (by intros ? ? ->).
  destruct d; [rewrite E2 in Hrun; destruct (env_reset e2) as [st e3]|]; cbn in Hrun.
  all: destruct (batch_size (hp s2) <=? _) in Hrun.
  all: try (match type of Hrun with context [train_update ?l ?s3] =>
        pose proof (train_update_locals l s3) as Ul;
        pose proof (train_update_frame l s3) as (_ & Um & Ut & _);
        cbv zeta in Um, Ut; cbn in Um, Ut;
        destruct (train_update l s3) as [[l2|e] s4] eqn:Hup end; [|done]).
  all: cbn [fst snd] in *; destruct (pi =? 0); [done|]; simplify_eq/=.
  all: try (destruct (Ul _ _ eq_refl) as (U1 & U2 & U3 & U4); cbn in U1, U2, U3, U4).
  all: rewrite ?Um, ?Ut; split_and!; try done; intros; by simplify_eq/=.
Qed.

(** X13: one frame of [train] that returns has stored exactly what the
    agent experienced: the state the frame started from, the action that
    [select_action] returned, and the reward, next state and done flag that
    the environment answered to that action.  The row is at the old
    cursor, [len] has grown by one up to the capacity, and the next frame
    starts from the next state, or from a reset when the episode ended. *)
Theorem train_frame_stores_experience pi idx loc s loc' s' :
  is_test s = false -> buffer_inv (memory s) ->
  train_frame pi idx loc s = (Ok loc', s') ->
  exists a s1 o' rew d e2,
    select_action (state loc) s = (Ok a, s1) /\
    env_step a (env s1) = ((o', rew, d), e2) /\
    (0 < ReplayBuffer.max_size (memory s))%nat /\
    memory s' = after_store (memory s) (state loc) a rew o' d /\
    transition_at (memory s') (ReplayBuffer.ptr (memory s))
      = Some (state loc, float a, rew, o', float_of_bool d) /\
    ReplayBuffer.len (memory s')
      = Nat.min (ReplayBuffer.len (memory s) + 1) (ReplayBuffer.max_size (memory s)) /\
    is_test s' = false /\
    state loc' = (if d then (env_reset e2).1 else o').
Proof.
  intros Ht Hinv Hrun.
  destruct (train_frame_run _ _ _ _ _ _ Ht Hrun)
    as (a & s1 & o' & rew & d & e2 & Hsel & Hstep & Hst & Ht' & Hd0 & Hd1).
  exists a, s1, o', rew, d, e2. split; [done|]. split; [done|].
  assert (Hpos : (0 < ReplayBuffer.max_size (memory s))%nat).
  { destruct (decide (0 < ReplayBuffer.max_size (memory s))%nat) as [|Hz]; [done|].
    rewrite store_empty in Hst by (done || lia). done. }
  rewrite store_ok in Hst by done. injection Hst as Hm. rewrite <- Hm.
  split; [done|]. split; [done|].
  split; [rewrite transition_at_after_store by done; by rewrite decide_True|].
  split; [done|]. split; [done|].
  destruct d; [by apply Hd1|by apply Hd0].
Qed.

Lemma train_loop_stores pi frames : forall loc s loc' s',
  is_test s = false ->
  train_loop pi frames loc s = (Ok loc', s') ->
  exists xs : list store_args,
    length xs = length frames /\
    stores xs (memory s) = (Ok tt, memory s') /\ is_test s' = false.
Proof.
  induction frames as [|idx frames IH]; intros loc s loc' s' Ht Hrun.
  - cbn in Hrun. injection Hrun as <- <-. exists []. split; [done|]. split; [reflexivity|done].
  - cbn [train_loop] in Hrun. rewrite bind_run in Hrun.
    destruct (train_frame pi idx loc s) as [[loc1|e] s1] eqn:Hframe; [|done].
    destruct (train_frame_run _ _ _ _ _ _ Ht Hframe)
      as (a & s0 & o' & rew & d & e2 & _ & _ & Hst & Ht1 & _).
    destruct (IH loc1 s1 loc' s' Ht1 Hrun) as (xs & Hlen & Hxs & Ht').
    exists ((state loc, a, rew, o', d) :: xs). split; [cbn; lia|]. split; [|done].
    cbn [stores]. rewrite bind_run, Hst. done.
Qed.

(** X14: a [train] call that returns leaves the agent in training mode and
    has made exactly [num_frames] successful [store] calls (none for a
    negative [num_frames]), one per frame and in order; a buffer that
    satisfied the class invariant then holds
    [min (len + num_frames, max_size)] transitions. *)
Theorem train_fills_buffer num_frames pi s loc' s' :
  train num_frames pi s = (Ok loc', s') ->
  is_test s' = false /\
  exists xs : list store_args,
    length xs = Z.to_nat num_frames /\
    stores xs (memory s) = (Ok tt, memory s') /\
    (buffer_inv (memory s) ->
     ReplayBuffer.len (memory s')
     = Nat.min (ReplayBuffer.len (memory s) + Z.to_nat num_frames)
               (ReplayBuffer.max_size (memory s))).
Proof.
  intros Hrun. rewrite train_run in Hrun.
  destruct (env_reset (env s)) as [st e1].
  destruct (train_loop _ _ _ _) as [[loc1|e] s1] eqn:Hloop; [|done].
  simplify_eq.
  assert (Ht0 : is_test (set_env e1 (set_is_test false s)) = false) by done.
  destruct (train_loop_stores _ _ _ _ _ _ Ht0 Hloop) as (xs & Hlen & Hxs & Ht).
  split; [done|]. exists xs.
  assert (Hn : length xs = Z.to_nat num_frames).
  { rewrite Hlen. unfold range. rewrite length_map, length_seq. f_equal. lia. }
  split; [done|]. split; [done|]. intros Hinv. cbn in Hxs |- *.
  unfold ReplayBuffer.len. rewrite <- Hn.
  destruct (decide (0 < ReplayBuffer.max_size (memory s))%nat) as [Hpos|Hz].
  - destruct (stores_spec xs (memory s) Hinv Hpos) as (b' & Hb' & _ & _ & _ & Hs & _).
    rewrite Hxs in Hb'. by simplify_eq.
  - destruct xs as [|[[[[o a] r] o'] d] xs].
    + cbn in Hxs. injection Hxs as Hm. rewrite <- Hm. cbn.
      destruct Hinv as (_ & _ & _ & _ & _ & Hle & _). lia.
    + cbn [stores] in Hxs. rewrite bind_run, store_empty in Hxs by (done || lia). done.
Qed.

End AgentProtocol.

(** ** argmax *)

Lemma argmax_from_spec (x : list Q) : forall (best : Q) (besti i : nat),
  let r := argmax_from best besti i x in
  (r = besti /\ forall j w, x !! j = Some w -> (w <= best)%Q) \/
  (exists k v, r = (i + k)%nat /\ x !! k = Some v /\ (best < v)%Q /\
     forall j w, x !! j = Some w -> (w <= v)%Q /\ ((j < k)%nat -> (w < v)%Q)).
Proof.
  induction x as [|v x IH]; intros best besti i; cbv zeta.
  - left. split; [done|]. intros j w Hj. by rewrite lookup_nil in Hj.
  - cbn [argmax_from]. destruct (Qle_bool v best) eqn:Hle.
    + apply Qle_bool_iff in Hle.
      destruct (IH best besti (S i)) as [[Hr Hall]|(k & m & Hr & Hk & Hlt & Hall)].
      * left. split; [done|]. intros [|j] w Hj; simplify_eq/=; [done|by eapply Hall].
      * right. exists (S k), m. split; [lia|]. split; [done|]. split; [done|].
        intros [|j] w Hj; simplify_eq/=.
        -- split; [lra|intros; lra].
        -- destruct (Hall j w Hj) as [H1 H2]. split; [done|]. intros. apply H2. lia.
    + assert (Hlt : (best < v)%Q).
      { apply Qnot_le_lt. intros Hc. apply Qle_bool_iff in Hc. congruence. }
      destruct (IH v i (S i)) as [[Hr Hall]|(k & m & Hr & Hk & Hlt' & Hall)].
      * right. exists 0%nat, v. split; [lia|]. split; [done|]. split; [done|].
        intros [|j] w Hj; simplify_eq/=.
        -- split; [lra|lia].
        -- split; [by eapply Hall|lia].
      * right. exists (S k), m. split; [lia|]. split; [done|]. split; [lra|].
        intros [|j] w Hj; simplify_eq/=.
        -- split; [lra|intros; lra].
        -- destruct (Hall j w Hj) as [H1 H2]. split; [done|]. intros. apply H2. lia.
Qed.

(** [argmax] returns the first position that holds the largest entry. *)
Lemma argmax_spec (x : list Q) :
  x <> [] ->
  exists a v, argmax x = Ok a /\ x !! a = Some v /\
    forall j w, x !! j = Some w -> (w <= v)%Q /\ ((j < a)%nat -> (w < v)%Q).
Proof.
  destruct x as [|v x]; [done|]. intros _. cbn [argmax].
  destruct (argmax_from_spec x v 0 1) as [[Hr Hall]|(k & m & Hr & Hk & Hlt & Hall)];
    cbv zeta in *.
  - exists 0%nat, v. rewrite Hr. split; [done|]. split; [done|].
    intros [|j] w Hj; simplify_eq/=; [split; [lra|lia]|].
    split; [by eapply Hall|lia].
  - exists (S k), m. rewrite Hr. split; [done|]. split; [done|].
    intros [|j] w Hj; simplify_eq/=.
    + split; [lra|intros; lra].
    + destruct (Hall j w Hj) as [H1 H2]. split; [done|]. intros. apply H2. lia.
Qed.

(** ** class Network *)

Lemma mapM_ok {A B} (f : A -> result B) (l : list A) (ys : list B) :
  mapM f l = Ok ys ->
  length ys = length l /\
  forall k x, l !! k = Some x -> exists y, ys !! k = Some y /\ f x = Ok y.
Proof.
  revert ys. induction l as [|x l IH]; intros ys Hm; cbn in Hm.
  - simplify_eq. split; [done|]. intros k x Hk. by rewrite lookup_nil in Hk.
  - destruct (f x) as [y|e] eqn:Hf; [|done]. cbn in Hm.
    destruct (mapM f l) as [ys'|e] eqn:Hl; [|done]. cbn in Hm. simplify_eq.
    destruct (IH ys' eq_refl) as [Hlen Hall]. split; [cbn; lia|].
    intros [|k] x' Hk; simplify_eq/=; [by exists y|by apply Hall].
Qed.

Section NetworkProps.
Context {Obs P O G : Type} `{Torch Obs P O G}.
Implicit Types (self : Network.t P).

Lemma length_rows_of {A} (width n : nat) (flat : list A) :
  length (rows_of width n flat) = n.
Proof. unfold rows_of. by rewrite length_map, length_seq. Qed.

(** The shape of what [dist] returns, and the floor of its entries. *)
Lemma dist_rows self (x : list Obs) d :
  Network.dist self x = Ok d ->
  length d = length x /\
  (x <> [] -> (0 < Network.out_dim self)%nat /\ 0 < Network.atom_size self) /\
  forall rows, rows ∈ d ->
    length rows = Network.out_dim self /\
    forall row p, row ∈ rows -> p ∈ row -> (1 # 1000 <= p)%Q.
Proof.
  intros Hd. unfold Network.dist in Hd. apply mapM_ok in Hd as [Hlen Hall].
  split; [done|]. split.
  - intros Hne. destruct x as [|x0 x]; [done|].
    destruct (Hall 0%nat x0 eq_refl) as (y & _ & Hy).
    unfold Network.q_atoms in Hy. case_decide as Hc; [|done].
    destruct Hc as [Hc1 Hc2]. rewrite Hc1 in Hc2. split; [lia|].
    destruct (Network.atom_size self); cbn in Hc2; lia.
  - intros rows Hrows. apply list_elem_of_lookup_1 in Hrows as [k Hk].
    destruct (lookup_lt_is_Some_2 x k) as [xi Hxi].
    { rewrite <- Hlen. by eapply lookup_lt_Some. }
    destruct (Hall k xi Hxi) as (y & Hy & Hf). simplify_eq.
    unfold Network.q_atoms in Hf. case_decide as Hc; [|done]. cbn in Hf. simplify_eq.
    split; [by rewrite length_map, length_rows_of|].
    intros row p Hrow Hp. apply list_elem_of_fmap in Hrow as (row0 & -> & _).
    apply list_elem_of_fmap in Hp as (p0 & -> & _). apply Q.le_max_r.
Qed.


(** What a [forward] that returns has computed: one value per row of
    [dist]. *)
Lemma forward_rows self (x : list Obs) q :
  Network.forward self x = Ok q ->
  exists d, Network.dist self x = Ok d /\ length q = length d /\
    forall k rows, d !! k = Some rows ->
      exists qrow, q !! k = Some qrow /\ length qrow = length rows.
Proof.
  intros Hq. unfold Network.forward in Hq.
  destruct (Network.dist self x) as [d|e] eqn:Hd; [|done]. cbn in Hq.
  case_decide; [|done]. apply mapM_ok in Hq as [Hlen Hall].
  exists d. split; [done|]. split; [done|]. intros k rows Hk.
  destruct (Hall k rows Hk) as (qrow & Hqk & Hrow). exists qrow. split; [done|].
  by apply mapM_ok in Hrow as [-> _].
Qed.


End NetworkProps.

Section Greedy.
Context {Obs E P O G R : Type}.
Context `{Observation Obs} `{Env Obs E} `{Torch Obs P O G} `{RandomState R}.
Implicit Types (s : DQNAgent.t Obs E P O R).

Import DQNAgent.

(** The action values of one observation: one non-empty row. *)
Lemma forward_one (net : Network.t P) (x : Obs) qs :
  Network.forward net [x] = Ok qs ->
  exists q, qs = [q] /\ length q = Network.out_dim net /\ q <> [].
Proof.
  intros Hf. destruct (forward_rows net [x] qs Hf) as (d & Hd & Hlen & Hall).
  destruct (dist_rows net [x] d Hd) as (Hlenx & Hpos & Hrows).
  destruct d as [|rows [|? ?]]; try done.
  destruct qs as [|q [|? ?]]; try done.
  destruct (Hall 0%nat rows eq_refl) as (q' & [= <-] & Hl).
  destruct (Hrows rows) as [Ho _]; [by left|].
  destruct (Hpos ltac:(done)) as [Hop _].
  exists q. split; [done|]. split; [congruence|]. intros ->. cbn in Hl. lia.
Qed.

(** X6: [select_action] on an observation for which the online network
    answers.  One number is drawn from numpy; if it is below [epsilon] the
    action is the environment's sample, otherwise the environment is left
    alone and the action is a position that holds the largest action
    value.  Outside test mode the pending transition becomes
    [state, action]. *)
Theorem select_action_epsilon_greedy (x : Obs) s q :
  Network.forward (dqn s) [x] = Ok [q] ->
  let draw := (random (np_random s)).1 in
  let s' := (select_action x s).2 in
  exists act, (select_action x s).1 = Ok act /\
    np_random s' = (random (np_random s)).2 /\
    (is_test s = false -> transition s' = [IObs x; IAct act]) /\
    ((draw < epsilon s)%Q ->
       act = (action_space_sample (env s)).1 /\ env s' = (action_space_sample (env s)).2) /\
    (~ (draw < epsilon s)%Q ->
       env s' = env s /\
       exists v, 0 <= act /\ q !! Z.to_nat act = Some v /\
         forall j w, q !! j = Some w -> (w <= v)%Q).
Proof.
  intros Hf. cbv zeta.
  destruct (forward_one _ _ _ Hf) as (q' & [= <-] & Hlen & Hne).
  destruct (argmax_spec q Hne) as (a & v & Ha & Hv & Hmax).
  unfold select_action. msimpl. cbn -[Network.forward argmax].
  destruct (random (np_random s)) as [draw r1] eqn:Hr. cbn -[Network.forward argmax].
  destruct (Qlt_bool draw (epsilon s)) eqn:Hb; unfold Qlt_bool in Hb.
  - assert (Hlt : (draw < epsilon s)%Q).
    { apply Qnot_le_lt. intros Hc. apply Qle_bool_iff in Hc. rewrite Hc in Hb. done. }
    cbn. destruct (action_space_sample (env s)) as [act e1]. cbn.
    exists act. destruct (is_test s); cbn; split_and!; try done;
      try (intros _; by split). all: intros Hn; by destruct Hn.
  - assert (Hge : ~ (draw < epsilon s)%Q).
    { apply negb_false_iff, Qle_bool_iff in Hb. lra. }
    cbn -[Network.forward argmax]. rewrite Hf. cbn -[argmax]. rewrite app_nil_r, Ha. cbn.
    exists (Z.of_nat a). rewrite Nat2Z.id.
    destruct (is_test s); cbn; split_and!; try done.
    all: intros _; split; [done|]; exists v; split_and!; try done; try lia.
    all: intros j w Hj; by destruct (Hmax j w Hj).
Qed.

End Greedy.

(** ** [update_model] and the update block of [train] *)

Section UpdateProps.
Context {Obs E P O G R : Type}.
Context `{Observation Obs} `{Env Obs E} `{Torch Obs P O G} `{RandomState R}.
Implicit Types (s : DQNAgent.t Obs E P O R) (loc : DQNAgent.locals Obs).

Import DQNAgent.

(** [update_model] as one case analysis on its two fallible steps. *)
Lemma update_model_run s :
  update_model s =
    match ReplayBuffer.sample_batch (memory s) (np_random s) with
    | (Raise e, r1) => (Raise e, set_np_random r1 s)
    | (Ok samples, r1) =>
        let s1 := set_np_random r1 s in
        match _compute_dqn_loss s1 samples with
        | Raise e => (Raise e, s1)
        | Ok loss =>
            let loss_of θ :=
              match _compute_dqn_loss (set_dqn (Network.load_state_dict θ (dqn s1)) s1) samples with
              | Ok v => v
              | Raise _ => 0%Q
              end in
            let (θ', o') := optimizer_step loss_of (Network.params (dqn s1)) (optimizer s1) in
            (Ok loss, set_optimizer o' (set_dqn (Network.load_state_dict θ' (dqn s1)) s1))
        end
    end.
Proof.
  unfold update_model. msimpl. cbn -[_compute_dqn_loss].
  destruct (ReplayBuffer.sample_batch (memory s) (np_random s)) as [[samples|e] r1];
    cbn -[_compute_dqn_loss]; [|done].
  destruct (_compute_dqn_loss _ samples) as [loss|e]; cbn -[_compute_dqn_loss]; [|done].
  by destruct (optimizer_step _ _ _).
Qed.

(** X10: an [update_model] call that raises has changed nothing but
    numpy's random state: networks, optimizer, buffer, epsilon and
    environment are as before.  With fewer than [batch_size] transitions
    stored the exception is [ValueError] and the random state is untouched
    as well. *)
Theorem update_model_failure_is_clean s e :
  (update_model s).1 = Raise e ->
  let s' := (update_model s).2 in
  s' = set_np_random (np_random s') s /\
  (Z.of_nat (ReplayBuffer.len (memory s)) < ReplayBuffer.batch_size (memory s) ->
   e = ValueError /\ s' = s).
Proof.
  rewrite update_model_run. cbv zeta.
  destruct (decide (Z.of_nat (ReplayBuffer.len (memory s)) < ReplayBuffer.batch_size (memory s)))
    as [Hshort|Hlong].
  - unfold ReplayBuffer.sample_batch. msimpl. rewrite choice_short by done. cbn.
    intros [= <-]. split; [by destruct s|]. intros _. split; [done|]. by destruct s.
  - destruct (ReplayBuffer.sample_batch _ _) as [[samples|e'] r1]; cbn -[_compute_dqn_loss].
    + destruct (_compute_dqn_loss _ samples) as [loss|e']; cbn -[_compute_dqn_loss].
      * by destruct (optimizer_step _ _ _).
      * intros _. split; [done|]. lia.
    + intros _. split; [done|]. lia.
Qed.

(** X11: with [atom_size = 1] no [update_model] call ever returns a loss:
    once a batch can be sampled, [delta_z] divides by [atom_size - 1 = 0]
    and the call raises [ZeroDivisionError]. *)
Theorem single_atom_cannot_update s :
  atom_size (hp s) = 1 ->
  (forall loss, (update_model s).1 <> Ok loss) /\
  (buffer_inv (memory s) ->
   0 <= ReplayBuffer.batch_size (memory s) <= Z.of_nat (ReplayBuffer.len (memory s)) ->
   (update_model s).1 = Raise ZeroDivisionError).
Proof.
  intros Hone. rewrite update_model_run.
  assert (Hloss : forall s1 samples, hp s1 = hp s ->
            _compute_dqn_loss s1 samples = Raise ZeroDivisionError).
  { intros s1 samples Hh. unfold _compute_dqn_loss, Projection.delta_z.
    rewrite Hh, Hone. done. }
  split.
  - intros loss.
    destruct (ReplayBuffer.sample_batch _ _) as [[samples|e'] r1]; cbn -[_compute_dqn_loss];
      [|done].
    by rewrite Hloss.
  - intros Hinv Hk.
    destruct (ReplayBuffer.sample_batch _ _) as [[samples|e'] r1] eqn:Hs;
      cbn -[_compute_dqn_loss].
    + by rewrite Hloss.
    + destruct (sample_batch_ok (memory s) (np_random s) Hinv Hk) as (? & ? & Hok).
      congruence.
Qed.

(** X12: the update block of [train], once [update_model] has returned.
    The online network and the optimizer are the updated ones and epsilon
    has decayed, in every case.  With [target_update = 0] the block then
    raises [ZeroDivisionError], the target network unchanged.  Otherwise it
    returns with one more update counted and the loss appended, and the
    target network takes the online parameters exactly when the new count
    is a multiple of [target_update]; at any other count it is left
    alone. *)
Theorem target_sync_cadence loc s loss s1 :
  update_model s = (Ok loss, s1) ->
  let r := (train_update loc s).1 in
  let s' := (train_update loc s).2 in
  let tu := target_update (hp s) in
  dqn s' = dqn s1 /\ optimizer s' = optimizer s1 /\
  epsilon s' = decayed (hp s) (epsilon s) /\
  (tu = 0 -> r = Raise ZeroDivisionError /\ dqn_target s' = dqn_target s) /\
  (tu <> 0 ->
   (exists loc', r = Ok loc' /\ update_cnt loc' = update_cnt loc + 1 /\
                 losses loc' = losses loc ++ [loss]) /\
   ((update_cnt loc + 1) mod tu = 0 ->
      Network.params (dqn_target s') = Network.params (dqn s')) /\
   ((update_cnt loc + 1) mod tu <> 0 -> dqn_target s' = dqn_target s)).
Proof.
  intros Hup. cbv zeta.
  pose proof (update_model_frame s) as (Hh & _ & He & Ht & _). cbv zeta in *.
  unfold train_update, _target_hard_update. msimpl. rewrite Hup in *.
  cbn [fst snd] in *. cbn. rewrite Hh, He.
  destruct (Z.eqb_spec (target_update (hp s)) 0) as [Hz|Hnz]; cbn.
  { split_and!; done. }
  destruct (Z.eqb_spec ((update_cnt loc + 1) `mod` target_update (hp s)) 0) as [Hm|Hm];
    cbn; split_and!; try done; intros _; split_and!; try done; eauto.
Qed.

Lemma train_frame_zero_interval idx loc s :
  exists e, (train_frame 0 idx loc s).1 = Raise e.
Proof.
  unfold train_frame. msimpl.
  destruct (select_action (state loc) s) as [[a|e] s1]; [|by eexists].
  destruct (step a s1) as [[[[o rew] d]|e] s2]; [|by eexists].
  destruct d; [destruct (env_reset (env s2)) as [st e2]|]; cbn.
  all: destruct (batch_size (hp _) <=? _); cbn; [|by eexists].
  all: match goal with |- context [train_update ?l ?s3] =>
         destruct (train_update l s3) as [[l2|e] s4] end; cbn; by eexists.
Qed.

(** X17: [train] with [plotting_interval = 0] and at least one frame never
    returns and never gets beyond its first frame, where
    [frame_idx % plotting_interval] divides by zero at the latest: the call
    ends in an exception, and in the same way and state as a call for one
    frame. *)
Theorem zero_plotting_interval_never_returns num_frames s :
  1 <= num_frames ->
  (exists e, (train num_frames 0 s).1 = Raise e) /\
  train num_frames 0 s = train 1 0 s.
Proof.
  intros Hn. rewrite !train_run. destruct (env_reset (env s)) as [st e1].
  unfold range. replace (Z.to_nat (num_frames + 1 - 1)) with (S (Z.to_nat (num_frames - 1)))
    by lia.
  replace (Z.to_nat (1 + 1 - 1)) with 1%nat by lia.
  cbn [seq map train_loop]. rewrite !bind_run.
  destruct (train_frame_zero_interval (1 + Z.of_nat 0)
              (mkLocals st 0 [] [] [] 0%Q []) (set_env e1 (set_is_test false s)))
    as [e He].
  destruct (train_frame _ _ _ _) as [[l|e'] s1]; cbn in He; [done|].
  split; [by exists e'|done].
Qed.

(** X9: the agent that [__init__] returns starts at [max_epsilon], in
    training mode, with no pending transition, an empty buffer of capacity
    [memory_size] and a target network equal to the online one.  On it
    [step] raises [TypeError] for every action, and with a positive
    [batch_size] [update_model] raises [ValueError] and changes nothing. *)
Theorem fresh_agent_must_act_and_fill_first
    env0 ms bs tu ed maxe mine gam vmin vmax A (g : G) (r : R) s :
  init env0 ms bs tu ed maxe mine gam vmin vmax A g r = Ok s ->
  epsilon s = maxe /\ is_test s = false /\ transition s = [] /\
  env s = env0 /\ np_random s = r /\
  ReplayBuffer.len (memory s) = 0%nat /\
  ReplayBuffer.max_size (memory s) = Z.to_nat ms /\
  ReplayBuffer.batch_size (memory s) = bs /\
  dqn_target s = dqn s /\
  (forall a, (step a s).1 = Raise TypeError) /\
  (0 < bs -> update_model s = (Raise ValueError, s)).
Proof.
  intros Hinit.
  destruct (init_state _ _ _ _ _ _ _ _ _ _ _ _ _ _ Hinit)
    as (He & _ & _ & _ & _ & Ht & Htr & Hinv & Hlen).
  destruct (init_same_arch _ _ _ _ _ _ _ _ _ _ _ _ _ _ Hinit) as [_ Hsame].
  assert (Hrest : env s = env0 /\ np_random s = r /\
                  ReplayBuffer.max_size (memory s) = Z.to_nat ms /\
                  ReplayBuffer.batch_size (memory s) = bs).
  { unfold init in Hinit.
    destruct (ReplayBuffer.init _ _ _) as [m|e] eqn:Hm; [|done]. cbn in Hinit.
    destruct (linspace vmin vmax A) as [sup|e]; [|done]. cbn in Hinit.
    destruct (Network.init _ _ _ _ g) as [[d1 g1]|e]; [|done]. cbn in Hinit.
    destruct (Network.init _ _ _ _ g1) as [[d2 g2]|e]; [|done]. cbn in Hinit.
    injection Hinit as <-. cbn.
    destruct (init_inv _ _ _ _ Hm) as (_ & Hmax & Hbs & _). done. }
  destruct Hrest as (Henv & Hr & Hmax & Hbs).
  split_and!; try done.
  - intros a. unfold step. msimpl. cbn.
    destruct (env_step a (env s)) as [[[o' rew] d] e1]. cbn. rewrite Ht. cbn.
    by rewrite Htr.
  - intros Hpos. rewrite update_model_run.
    unfold ReplayBuffer.sample_batch. msimpl.
    rewrite choice_short by (unfold ReplayBuffer.len in Hlen; rewrite Hlen, Hbs; cbn; lia).
    cbn. by destruct s.
Qed.

End UpdateProps.

(** ** How often [train] updates, and its episode statistics *)

Section TrainCounts.
Context {Obs E P O G R : Type}.
Context `{Observation Obs} `{Env Obs E} `{Torch Obs P O G} `{RandomState R}.
Implicit Types (s : DQNAgent.t Obs E P O R) (loc : DQNAgent.locals Obs).

Import DQNAgent.

(** The buffer after a frame of [train] that returns. *)
Lemma train_frame_len pi idx loc s loc' s' :
  is_test s = false -> buffer_inv (memory s) ->
  train_frame pi idx loc s = (Ok loc', s') ->
  is_test s' = false /\ buffer_inv (memory s') /\
  ReplayBuffer.max_size (memory s') = ReplayBuffer.max_size (memory s) /\
  ReplayBuffer.len (memory s')
  = Nat.min (ReplayBuffer.len (memory s) + 1) (ReplayBuffer.max_size (memory s)).
Proof.
  intros Ht Hinv Hrun.
  destruct (train_frame_run _ _ _ _ _ _ Ht Hrun)
    as (a & s1 & o' & rew & d & e2 & _ & _ & Hst & Ht' & _).
  assert (Hpos : (0 < ReplayBuffer.max_size (memory s))%nat).
  { destruct (decide (0 < ReplayBuffer.max_size (memory s))%nat) as [|Hz]; [done|].
    rewrite store_empty in Hst by (done || lia). done. }
  rewrite store_ok in Hst by done. injection Hst as Hm. rewrite <- Hm.
  split; [done|]. split; [by apply after_store_inv|]. done.
Qed.

(** The number of updates that [n] frames make, from a buffer that holds
    [len] of at most [cap] transitions. *)
Lemma update_count_step (bs : Z) (cap len n : nat) :
  (len <= cap)%nat ->
  let len' := Nat.min (len + 1) cap in
  let count (l m : nat) :=
    if Z.of_nat cap <? bs then 0
    else Z.max 0 (Z.of_nat m - Z.max 0 (bs - Z.of_nat l - 1)) in
  count len (S n) = (if bs <=? Z.of_nat len' then 1 else 0) + count len' n.
Proof.
  intros Hle. cbv zeta.
  destruct (Z.ltb_spec (Z.of_nat cap) bs); destruct (Z.leb_spec bs (Z.of_nat (Nat.min (len + 1) cap)));
    lia.
Qed.

Lemma train_loop_updates pi frames : forall loc s loc' s',
  is_test s = false -> buffer_inv (memory s) ->
  train_loop pi frames loc s = (Ok loc', s') ->
  let cap := ReplayBuffer.max_size (memory s) in
  let n := if Z.of_nat cap <? batch_size (hp s) then 0
           else Z.max 0 (Z.of_nat (length frames)
                         - Z.max 0 (batch_size (hp s) - Z.of_nat (ReplayBuffer.len (memory s)) - 1)) in
  update_cnt loc' = update_cnt loc + n /\
  length (losses loc') = (length (losses loc) + Z.to_nat n)%nat /\
  length (epsilons loc') = (length (epsilons loc) + Z.to_nat n)%nat /\
  (n = 0 -> epsilon s' = epsilon s /\ dqn s' = dqn s /\ dqn_target s' = dqn_target s /\
            optimizer s' = optimizer s).
Proof.
  induction frames as [|idx frames IH]; intros loc s loc' s' Ht Hinv Hrun.
  - cbn in Hrun. assert (Hr : (Ok loc, s) = (Ok loc', s')) by exact Hrun. simplify_eq.
    cbn [length]. cbv zeta.
    assert ((if Z.of_nat (ReplayBuffer.max_size (memory s')) <? batch_size (hp s') then 0
             else Z.max 0 (Z.of_nat 0 - Z.max 0 (batch_size (hp s')
                     - Z.of_nat (ReplayBuffer.len (memory s')) - 1))) = 0) as ->
      by (destruct (_ <? _); lia).
    cbn. split_and!; try done; lia.
  - cbn [train_loop] in Hrun. rewrite bind_run in Hrun.
    destruct (train_frame pi idx loc s) as [[loc1|e] s1] eqn:Hframe; [|done].
    destruct (train_frame_len _ _ _ _ _ _ Ht Hinv Hframe) as (Ht1 & Hinv1 & Hcap & Hlen).
    pose proof (train_frame_spec pi idx loc s) as (Hh & _ & Hno & Hyes).
    cbv zeta in Hh, Hno, Hyes. rewrite Hframe in Hh, Hno, Hyes. cbn [fst snd] in *.
    specialize (IH loc1 s1 loc' s' Ht1 Hinv1 Hrun). cbv zeta in IH.
    rewrite Hh, Hcap, Hlen in IH.
    assert (Hle : (ReplayBuffer.len (memory s) <= ReplayBuffer.max_size (memory s))%nat)
      by apply Hinv.
    pose proof (update_count_step (batch_size (hp s)) _ _ (length frames) Hle) as Hstep.
    cbv zeta in Hstep. cbn [length]. cbv zeta. rewrite Hstep. clear Hstep.
    destruct IH as (Ic & Il & Ie & Iz).
    set (rest := if Z.of_nat (ReplayBuffer.max_size (memory s)) <? batch_size (hp s) then 0
                 else _) in *.
    assert (Hrest : 0 <= rest) by (unfold rest; destruct (_ <? _); lia).
    clearbody rest.
    destruct (Z.leb_spec (batch_size (hp s))
                (Z.of_nat (Nat.min (ReplayBuffer.len (memory s) + 1)
                                   (ReplayBuffer.max_size (memory s))))) as [Hgate|Hgate].
    + destruct (Hyes loc1 eq_refl ltac:(rewrite Hlen; lia)) as (Uc & _ & Ue & Ul).
      rewrite Ic, Il, Ie, Uc, Ue, Ul, length_app. cbn [length].
      split_and!; try lia.
    + destruct (Hno ltac:(rewrite Hlen; lia)) as (Ne & Nd & Nt & No & Nl).
      destruct (Nl loc1 eq_refl) as (Nc & Nes & Nls).
      rewrite Ic, Il, Ie, Nc, Nes, Nls.
      split_and!; try lia.
      intros Hz. destruct (Iz ltac:(lia)) as (Z1 & Z2 & Z3 & Z4).
      split_and!; congruence.
Qed.

(** X15: the number of model updates of a [train] call that returns.
    Updates start with the frame at which the buffer holds [batch_size]
    transitions and then happen at every frame, so their number is
    [max (0, num_frames - max (0, batch_size - len - 1))]; [losses] and
    [epsilons] have one entry per update.  With [batch_size] above the
    capacity there is no update at all, and whenever there is none the
    networks, the optimizer and epsilon are what they were. *)
Theorem train_update_count num_frames pi s loc' s' :
  buffer_inv (memory s) ->
  train num_frames pi s = (Ok loc', s') ->
  let cap := ReplayBuffer.max_size (memory s) in
  let n := if Z.of_nat cap <? batch_size (hp s) then 0
           else Z.max 0 (Z.max 0 num_frames
                         - Z.max 0 (batch_size (hp s) - Z.of_nat (ReplayBuffer.len (memory s)) - 1)) in
  update_cnt loc' = n /\
  length (losses loc') = Z.to_nat n /\ length (epsilons loc') = Z.to_nat n /\
  (n = 0 -> epsilon s' = epsilon s /\ dqn s' = dqn s /\ dqn_target s' = dqn_target s /\
            optimizer s' = optimizer s).
Proof.
  intros Hinv Hrun. rewrite train_run in Hrun.
  destruct (env_reset (env s)) as [st e1].
  destruct (train_loop _ _ _ _) as [[loc1|e] s1] eqn:Hloop; [|done].
  simplify_eq.
  assert (Ht0 : is_test (set_env e1 (set_is_test false s)) = false) by done.
  assert (Hinv0 : buffer_inv (memory (set_env e1 (set_is_test false s)))) by done.
  pose proof (train_loop_updates _ _ _ _ _ _ Ht0 Hinv0 Hloop) as Hup.
  cbv zeta in Hup. cbn [memory hp set_env set_is_test epsilon dqn dqn_target optimizer] in Hup.
  assert (Hn : Z.of_nat (length (range 1 (num_frames + 1))) = Z.max 0 num_frames).
  { unfold range. rewrite length_map, length_seq. lia. }
  rewrite Hn in Hup. cbn [update_cnt losses epsilons length Nat.add] in Hup.
  cbv zeta. cbn [memory hp set_env set_is_test epsilon dqn dqn_target optimizer].
  destruct Hup as (Hc & Hl & He & Hz). rewrite Z.add_0_l in Hc. done.
Qed.

(** [mov_avg] follows [scores]: one entry per finished episode, the mean of
    the last five scores at that time. *)
Lemma mov_avg_snoc (sc : list Q) (x : Q) :
  map (fun i => mean (last_n 5 (take (S i) (sc ++ [x])))) (seq 0 (length (sc ++ [x])))
  = map (fun i => mean (last_n 5 (take (S i) sc))) (seq 0 (length sc))
    ++ [mean (last_n 5 (sc ++ [x]))].
Proof.
  rewrite length_app. cbn [length]. rewrite Nat.add_1_r, seq_S, map_app. cbn [map Nat.add].
  f_equal.
  - apply map_ext_in. intros i Hi. apply in_seq in Hi.
    by rewrite take_app_le by lia.
  - rewrite take_ge by (rewrite length_app; cbn; lia). done.
Qed.

Lemma train_loop_mov_avg pi frames : forall loc s loc' s',
  is_test s = false ->
  train_loop pi frames loc s = (Ok loc', s') ->
  mov_avg loc = map (fun i => mean (last_n 5 (take (S i) (scores loc))))
                    (seq 0 (length (scores loc))) ->
  mov_avg loc' = map (fun i => mean (last_n 5 (take (S i) (scores loc'))))
                     (seq 0 (length (scores loc'))) /\
  (length (scores loc) <= length (scores loc') <= length (scores loc) + length frames)%nat.
Proof.
  induction frames as [|idx frames IH]; intros loc s loc' s' Ht Hrun Hinv.
  - cbn in Hrun. assert (Hr : (Ok loc, s) = (Ok loc', s')) by exact Hrun. simplify_eq.
    split; [done|]. cbn. lia.
  - cbn [train_loop] in Hrun. rewrite bind_run in Hrun.
    destruct (train_frame pi idx loc s) as [[loc1|e] s1] eqn:Hframe; [|done].
    destruct (train_frame_run _ _ _ _ _ _ Ht Hframe)
      as (a & s0 & o' & rew & d & e2 & _ & _ & _ & Ht1 & Hd0 & Hd1).
    assert (Hinv1 : mov_avg loc1 = map (fun i => mean (last_n 5 (take (S i) (scores loc1))))
                                       (seq 0 (length (scores loc1))) /\
                    (length (scores loc) <= length (scores loc1) <= length (scores loc) + 1)%nat).
    { destruct d.
      - destruct (Hd1 eq_refl) as (_ & _ & Hs & Hm). rewrite Hs, Hm, mov_avg_snoc, Hinv.
        split; [done|]. rewrite length_app. cbn. lia.
      - destruct (Hd0 eq_refl) as (_ & _ & Hs & Hm). rewrite Hs, Hm. split; [done|lia]. }
    destruct Hinv1 as [Hinv1 Hl1].
    destruct (IH _ _ _ _ Ht1 Hrun Hinv1) as [Hfin Hl]. split; [done|]. cbn [length]. lia.
Qed.

(** X16: the episode statistics of a [train] call that returns: [mov_avg]
    has one entry per finished episode, entry [i] is the mean of the last
    five scores among the first [i + 1], and no more episodes finish than
    there are frames. *)
Theorem train_moving_average num_frames pi s loc' s' :
  train num_frames pi s = (Ok loc', s') ->
  length (mov_avg loc') = length (scores loc') /\
  (length (scores loc') <= Z.to_nat num_frames)%nat /\
  forall i m, mov_avg loc' !! i = Some m ->
    m = mean (last_n 5 (take (S i) (scores loc'))).
Proof.
  intros Hrun. rewrite train_run in Hrun.
  destruct (env_reset (env s)) as [st e1].
  destruct (train_loop _ _ _ _) as [[loc1|e] s1] eqn:Hloop; [|done].
  simplify_eq.
  assert (Ht0 : is_test (set_env e1 (set_is_test false s)) = false) by done.
  destruct (train_loop_mov_avg _ _ _ _ _ _ Ht0 Hloop eq_refl) as [Hm Hl].
  cbn [scores length Nat.add] in Hl.
  assert (Hn : length (range 1 (num_frames + 1)) = Z.to_nat num_frames).
  { unfold range. rewrite length_map, length_seq. f_equal. lia. }
  rewrite Hn in Hl.
  split; [by rewrite Hm, length_map, length_seq|]. split; [lia|].
  intros i m Hi. rewrite Hm, list_lookup_fmap in Hi.
  destruct (seq 0 (length (scores loc')) !! i) as [k|] eqn:Hk; [|done].
  apply lookup_seq in Hk as [-> _]. cbn in Hi. by simplify_eq.
Qed.

End TrainCounts.

(** ** [test] *)

Section EvaluationProps.
Context {Obs E P O G R F : Type}.
Context `{Observation Obs} `{Env Obs E} `{Torch Obs P O G} `{RandomState R} `{Render E F}.
Implicit Types (s : DQNAgent.t Obs E P O R).
Import DQNAgent Evaluation.

Lemma test_loop_frame fuel : forall x sc fr s,
  is_test s = true ->
  learning_state (test_loop fuel x sc fr s).2 = learning_state s.
Proof.
  induction fuel as [|fuel IH]; intros x sc fr s Ht; [done|].
  cbn [test_loop]. rewrite bind_run. unfold zoom at 1, call at 1.
  destruct (env_render (env s)) as [frame e1]. cbn [fst snd].
  set (s0 := set_env e1 s).
  assert (L0 : learning_state s0 = learning_state s) by done.
  assert (T0 : is_test s0 = true) by done.
  clearbody s0. rewrite bind_run.
  pose proof (select_action_frame x s0) as (Sh & Sm & Se & Sd & St & So & Sts & Str).
  cbv zeta in *. specialize (Str T0).
  destruct (select_action x s0) as [[a|e] s1]; cbn [fst snd] in *.
  2: { rewrite <- L0. unfold learning_state. congruence. }
  rewrite bind_run.
  assert (T1 : is_test s1 = true) by congruence.
  pose proof (step_frame a s1) as (Th & Te & Td & Tt & To & Tts & Ttr).
  cbv zeta in *. destruct (Ttr T1) as [Ttr1 Tm].
  assert (L2 : learning_state (step a s1).2 = learning_state s).
  { rewrite <- L0. unfold learning_state. congruence. }
  destruct (step a s1) as [[[[o rew] d]|e] s2]; cbn [fst snd] in *; [|done].
  destruct d; [done|]. rewrite IH; [done|congruence].
Qed.

Lemma test_run (fuel : nat) s :
  test fuel s
  = let (st, e1) := env_reset (env s) in
    match test_loop fuel st 0%Q [] (set_env e1 (set_is_test true s)) with
    | (Ok (Some frames), s1) => (Ok (Some frames), set_env (env_close (env s1)) s1)
    | (Ok None, s1) => (Ok None, s1)
    | (Raise e, s1) => (Raise e, s1)
    end.
Proof.
  unfold test. msimpl. cbn. destruct (env_reset (env s)) as [st e1].
  by destruct (test_loop _ _ _ _ _) as [[[?|]|?] ?].
Qed.

(** X21: [test], for however many steps and whether or not it returns,
    touches nothing the agent learns from: hyper-parameters, buffer,
    epsilon, both networks, optimizer and pending transition are what they
    were; the agent is left in test mode. *)
Theorem test_leaves_the_learner_alone (fuel : nat) s :
  let s' := (test fuel s).2 in
  hp s' = hp s /\ memory s' = memory s /\ epsilon s' = epsilon s /\
  dqn s' = dqn s /\ dqn_target s' = dqn_target s /\ optimizer s' = optimizer s /\
  transition s' = transition s /\ is_test s' = true.
Proof.
  cbv zeta. rewrite test_run. destruct (env_reset (env s)) as [st e1].
  set (s0 := set_env e1 (set_is_test true s)).
  assert (T0 : is_test s0 = true) by done.
  pose proof (test_loop_frame fuel st 0%Q [] s0 T0) as L.
  assert (L' : learning_state (test_loop fuel st 0%Q [] s0).2
               = (hp s, memory s, epsilon s, dqn s, dqn_target s, optimizer s,
                  transition s, true)) by (by rewrite L).
  clear L. clearbody s0.
  destruct (test_loop fuel st 0%Q [] s0) as [[[frames|]|e] s1]; cbn [fst snd] in *;
    unfold learning_state in L'; by simplify_eq.
Qed.

(** The loop of [test], one pass unfolded. *)
Lemma test_loop_S (fuel : nat) x sc fr s :
  test_loop (S fuel) x sc fr s
  = match test_iteration x s with
    | (Ok (frame, (o, rew, d)), s1) =>
        if d : bool then (Ok (Some (fr ++ [frame])), s1)
        else test_loop fuel o (sc + rew)%Q (fr ++ [frame]) s1
    | (Raise e, s1) => (Raise e, s1)
    end.
Proof.
  cbn [test_loop]. unfold test_iteration. rewrite !bind_run.
  destruct (zoom env set_env (call env_render) s) as [[frame|e] s0]; [|done].
  rewrite !bind_run. destruct (select_action x s0) as [[a|e] s1]; [|done].
  rewrite !bind_run. destruct (step a s1) as [[[[o rew] d]|e] s2]; [|done].
  by destruct d.
Qed.

Lemma test_loop_episode (fuel : nat) : forall x sc fr s frames s',
  test_loop fuel x sc fr s = (Ok (Some frames), s') ->
  exists its, episode x s its s' /\ (length its <= fuel)%nat /\
    frames = fr ++ map fst its.
Proof.
  induction fuel as [|fuel IH]; intros x sc fr s frames s' Hrun; [done|].
  rewrite test_loop_S in Hrun.
  destruct (test_iteration x s) as [[[frame [[o rew] d]]|e] s1] eqn:Hit; [|done].
  destruct d.
  - simplify_eq. exists [(frame, (o, rew, true))].
    split; [by constructor|]. split; [cbn; lia|done].
  - destruct (IH _ _ _ _ _ _ Hrun) as (its & Hep & Hlen & ->).
    exists ((frame, (o, rew, false)) :: its).
    split; [by econstructor|]. split; [cbn; lia|]. cbn. by rewrite <- app_assoc.
Qed.

Lemma episode_test_loop x s its s' :
  episode x s its s' ->
  forall fuel sc fr, (length its <= fuel)%nat ->
    test_loop fuel x sc fr s = (Ok (Some (fr ++ map fst its)), s').
Proof.
  induction 1 as [x s frame o rew s1 Hit|x s frame o rew s1 its s2 Hit Hep IH];
    intros [|fuel] sc fr Hlen; cbn in Hlen; try lia.
  - by rewrite test_loop_S, Hit.
  - rewrite test_loop_S, Hit, IH by lia. cbn. by rewrite <- app_assoc.
Qed.

(** X22: [test] returns exactly when the episode ends: its loop then makes
    a sequence of passes, each of which renders one frame and takes one
    step, none of which raises and only the last of which reports [done].
    The list returned holds the frames of these passes, one per step and in
    order, and the agent returned is the one the last pass left, with the
    environment closed.  (The loop of [test] has no bound of its own; the
    model's bound only has to be at least the number of passes.) *)
Theorem test_renders_one_frame_per_step (fuel : nat) s frames s' :
  test fuel s = (Ok (Some frames), s') <->
  exists its s1,
    episode (env_reset (env s)).1
            (set_env (env_reset (env s)).2 (set_is_test true s)) its s1 /\
    (length its <= fuel)%nat /\
    frames = map fst its /\
    s' = set_env (env_close (env s1)) s1.
Proof.
  rewrite test_run. destruct (env_reset (env s)) as [st e1]. cbn [fst snd]. split.
  - intros Hrun.
    destruct (test_loop fuel st 0%Q [] _) as [[[fr|]|e] s1] eqn:Hloop; try done.
    destruct (test_loop_episode _ _ _ _ _ _ _ Hloop) as (its & Hep & Hlen & ->).
    simplify_eq. by exists its, s1.
  - intros (its & s1 & Hep & Hlen & -> & ->).
    by rewrite (episode_test_loop _ _ _ _ Hep fuel 0%Q [] Hlen).
Qed.

End EvaluationProps.

(** ** The properties above, on the small concrete world *)

Lemma buffer_invariant_witness :
  0 <= 3 /\
  exists b0, ReplayBuffer.init (Obs := Q) 1 3 2 = Ok b0 /\
    buffer_inv (stores ToyEpisode.transitions b0).2 /\
    (ReplayBuffer.len (stores ToyEpisode.transitions b0).2 <= 3)%nat.
Proof.
  split; [lia|].
  destruct (proj2 (buffer_invariant (Obs := Q) 1 3 2 ToyEpisode.transitions) ltac:(lia))
    as (b0 & Hi & _ & Hinv & Hm & _ & _ & Hle).
  exists b0. rewrite Hm in Hle. done.
Defined.

Lemma fresh_buffer_fills_in_order_witness :
  exists b0, ReplayBuffer.init (Obs := Q) 1 5 2 = Ok b0 /\
    (length ToyEpisode.transitions <= Z.to_nat 5)%nat /\
    exists b, stores ToyEpisode.transitions b0 = (Ok tt, b) /\
      ReplayBuffer.len b = 4%nat /\ ReplayBuffer.ptr b = 4%nat.
Proof.
  eexists. split; [reflexivity|].
  assert (Hlen : (length ToyEpisode.transitions <= Z.to_nat 5)%nat) by (cbn; lia).
  split; [exact Hlen|].
  destruct (fresh_buffer_fills_in_order (Obs := Q) 1 5 2 ToyEpisode.transitions _ eq_refl Hlen)
    as (b & Hrun & Hl & Hp & _).
  exists b. split; [exact Hrun|]. split; [exact Hl|]. rewrite Hp. reflexivity.
Defined.

Lemma sample_returns_stored_transitions_witness :
  exists b0 b batch r',
    ReplayBuffer.init (Obs := Q) 1 3 2 = Ok b0 /\
    stores ToyEpisode.transitions b0 = (Ok tt, b) /\
    ReplayBuffer.sample_batch b (5%nat : nat) = (Ok batch, r') /\
    forall k, (k < 2)%nat ->
      exists x, x ∈ ToyEpisode.transitions /\ batch_at batch k = Some (stored x).
Proof.
  eexists _, _, _, _. split; [reflexivity|]. split; [vm_compute; reflexivity|].
  split; [vm_compute; reflexivity|].
  match goal with |- context [batch_at ?batch] =>
    refine (proj2 (sample_returns_stored_transitions (Obs := Q) (R := nat) 1 3 2
                     ToyEpisode.transitions _ _ (5%nat : nat) batch _
                     eq_refl _ _)) end.
  all: vm_compute; reflexivity.
Defined.

Lemma full_sample_is_a_shuffle_witness :
  buffer_inv Toy.buffer2 /\
  ReplayBuffer.batch_size Toy.buffer2 = Z.of_nat (ReplayBuffer.size Toy.buffer2) /\
  exists batch r',
    ReplayBuffer.sample_batch Toy.buffer2 (5%nat : nat) = (Ok batch, r') /\
    exists idxs, idxs ≡ₚ seq 0 2 /\
      forall k, batch_at batch k = idxs !! k ≫= transition_at Toy.buffer2.
Proof.
  assert (Hinv : buffer_inv Toy.buffer2) by (unfold buffer_inv; cbn; repeat split; lia).
  split; [exact Hinv|]. split; [reflexivity|].
  eexists _, _. split; [vm_compute; reflexivity|].
  eapply (full_sample_is_a_shuffle Toy.buffer2 (5%nat : nat) _ _ Hinv eq_refl).
  vm_compute; reflexivity.
Defined.

Lemma step_stores_pending_transition_witness :
  exists a s o' rew d e1,
    Toy.agent 4 2 2 (1 # 4) 1 (1 # 10) (99 # 100) 0 2 3 = Ok a /\
    DQNAgent.select_action 0%Q a = (Ok 0, s) /\
    DQNAgent.is_test s = false /\
    DQNAgent.transition s = [DQNAgent.IObs 0%Q; DQNAgent.IAct 0] /\
    buffer_inv (DQNAgent.memory s) /\
    (0 < ReplayBuffer.max_size (DQNAgent.memory s))%nat /\
    env_step 0 (DQNAgent.env s) = ((o', rew, d), e1) /\
    (DQNAgent.step 0 s).1 = Ok (o', rew, d) /\
    transition_at (DQNAgent.memory (DQNAgent.step 0 s).2) 0
      = Some (0%Q, float 0, rew, o', float_of_bool d).
Proof.
  eexists _, _, _, _, _, _. split; [vm_compute; reflexivity|].
  split; [vm_compute; reflexivity|].
  match goal with |- DQNAgent.is_test ?s = _ /\ DQNAgent.transition ?s = _ /\ ?I /\ ?C /\ _ =>
    assert (Ht : DQNAgent.is_test s = false) by reflexivity;
    assert (Htr : DQNAgent.transition s = [DQNAgent.IObs 0%Q; DQNAgent.IAct 0]) by reflexivity;
    assert (Hinv : I) by (unfold buffer_inv; cbn; repeat split; lia);
    assert (Hpos : C) by (cbn; lia)
  end.
  split; [exact Ht|]. split; [exact Htr|]. split; [exact Hinv|]. split; [exact Hpos|].
  match goal with |- ?S /\ _ => assert (Hstep : S) by (vm_compute; reflexivity) end.
  split; [exact Hstep|].
  destruct (step_stores_pending_transition _ _ _ _ _ _ _ _ Ht Htr Hinv Hpos Hstep)
    as (Hres & _ & Hrow & _).
  split; [exact Hres|exact Hrow].
Defined.

Lemma step_without_pending_pair_raises_witness :
  exists a,
    Toy.agent 4 2 2 (1 # 4) 1 (1 # 10) (99 # 100) 0 2 3 = Ok a /\
    DQNAgent.is_test a = false /\
    length (DQNAgent.transition a) <> 2%nat /\
    (DQNAgent.step 1 a).1 = Raise TypeError /\
    DQNAgent.memory (DQNAgent.step 1 a).2 = DQNAgent.memory a.
Proof.
  eexists. split; [vm_compute; reflexivity|].
  match goal with |- DQNAgent.is_test ?s = _ /\ ?N /\ _ =>
    assert (Ht : DQNAgent.is_test s = false) by reflexivity;
    assert (Hne : N) by (cbn; lia)
  end.
  split; [exact Ht|]. split; [exact Hne|].
  match goal with |- context [DQNAgent.step 1 ?s] =>
    destruct (step_without_pending_pair_raises 1 s Ht Hne) as (Hres & Hm & _) end.
  split; [exact Hres|exact Hm].
Defined.

Lemma train_frame_stores_experience_witness :
  exists a loc' s',
    Toy.agent 4 2 2 (1 # 4) 1 (1 # 10) (99 # 100) 0 2 3 = Ok a /\
    DQNAgent.is_test a = false /\ buffer_inv (DQNAgent.memory a) /\
    DQNAgent.train_frame 200 1 (DQNAgent.mkLocals 0%Q 0 [] [] [] 0%Q []) a = (Ok loc', s') /\
    ReplayBuffer.len (DQNAgent.memory s') = 1%nat.
Proof.
  eexists _, _, _. split; [vm_compute; reflexivity|].
  match goal with |- DQNAgent.is_test ?s = _ /\ ?I /\ _ =>
    assert (Ht : DQNAgent.is_test s = false) by reflexivity;
    assert (Hinv : I) by (unfold buffer_inv; cbn; repeat split; lia)
  end.
  split; [exact Ht|]. split; [exact Hinv|].
  match goal with |- ?T /\ _ => assert (Hrun : T) by (vm_compute; reflexivity) end.
  split; [exact Hrun|].
  destruct (train_frame_stores_experience _ _ _ _ _ _ Ht Hinv Hrun)
    as (? & ? & ? & ? & ? & ? & _ & _ & _ & _ & _ & Hl & _).
  exact Hl.
Defined.

Lemma train_fills_buffer_witness :
  exists a loc' s',
    Toy.agent 4 2 2 (1 # 4) 1 (1 # 10) (99 # 100) 0 2 3 = Ok a /\
    DQNAgent.train 6 200 a = (Ok loc', s') /\
    DQNAgent.is_test s' = false /\
    exists xs : list (Q * Z * Q * Q * bool),
      length xs = 6%nat /\ stores xs (DQNAgent.memory a) = (Ok tt, DQNAgent.memory s').
Proof.
  eexists _, _, _. split; [vm_compute; reflexivity|].
  match goal with |- ?T /\ _ => assert (Hrun : T) by (vm_compute; reflexivity) end.
  split; [exact Hrun|].
  destruct (train_fills_buffer _ _ _ _ _ Hrun) as (Ht & xs & Hlen & Hxs & _).
  split; [exact Ht|]. exists xs. split; [exact Hlen|exact Hxs].
Defined.


Lemma select_action_epsilon_greedy_witness :
  exists a q act,
    Toy.agent 4 2 2 (1 # 4) 1 (1 # 10) (99 # 100) 0 2 3 = Ok a /\
    Network.forward (DQNAgent.dqn a) [0%Q] = Ok [q] /\
    (DQNAgent.select_action 0%Q a).1 = Ok act /\
    (DQNAgent.is_test a = false ->
     DQNAgent.transition (DQNAgent.select_action 0%Q a).2
       = [DQNAgent.IObs 0%Q; DQNAgent.IAct act]).
Proof.
  eexists _, _. 
  assert (Ha : Toy.agent 4 2 2 (1 # 4) 1 (1 # 10) (99 # 100) 0 2 3 = Ok _)
    by (vm_compute; reflexivity).
  match type of Ha with _ = Ok ?a =>
    assert (Hq : Network.forward (DQNAgent.dqn a) [0%Q] = Ok [_])
      by (vm_compute; reflexivity);
    destruct (select_action_epsilon_greedy 0%Q a _ Hq) as (act & Hres & _ & Htr & _)
  end.
  exists act. split; [exact Ha|]. split; [exact Hq|]. split; [exact Hres|exact Htr].
Defined.

Lemma update_model_failure_is_clean_witness :
  exists a,
    Toy.agent 4 2 2 (1 # 4) 1 (1 # 10) (99 # 100) 0 2 3 = Ok a /\
    (DQNAgent.update_model a).1 = Raise ValueError /\
    (DQNAgent.update_model a).2 = a.
Proof.
  eexists. split; [vm_compute; reflexivity|].
  match goal with |- ?T /\ _ => assert (Hr : T) by (vm_compute; reflexivity) end.
  split; [exact Hr|].
  destruct (update_model_failure_is_clean _ _ Hr) as [_ Hshort].
  apply Hshort. cbn. lia.
Defined.

Lemma single_atom_cannot_update_witness :
  exists a s,
    Toy.agent 4 2 2 (1 # 4) 1 (1 # 10) (99 # 100) 0 2 1 = Ok a /\
    (run_calls [SelectAction 0%Q; Step 0; SelectAction 1%Q; Step 1] a) = (Ok tt, s) /\
    DQNAgent.atom_size (DQNAgent.hp s) = 1 /\
    buffer_inv (DQNAgent.memory s) /\
    0 <= ReplayBuffer.batch_size (DQNAgent.memory s)
      <= Z.of_nat (ReplayBuffer.len (DQNAgent.memory s)) /\
    (forall loss, (DQNAgent.update_model s).1 <> Ok loss) /\
    (DQNAgent.update_model s).1 = Raise ZeroDivisionError.
Proof.
  eexists _, _. split; [vm_compute; reflexivity|].
  split; [vm_compute; reflexivity|].
  match goal with |- ?T /\ ?I /\ ?K /\ _ =>
    assert (Hone : T) by reflexivity;
    assert (Hinv : I) by (unfold buffer_inv; cbn; repeat split; lia);
    assert (Hk : K) by (cbn; lia)
  end.
  split; [exact Hone|]. split; [exact Hinv|]. split; [exact Hk|].
  destruct (single_atom_cannot_update _ Hone) as [Hnever Hzero].
  split; [exact Hnever|exact (Hzero Hinv Hk)].
Defined.

Lemma target_sync_cadence_witness :
  exists a loc s loss s1,
    Toy.agent 4 2 2 (1 # 4) 1 (1 # 10) (99 # 100) 0 2 3 = Ok a /\
    DQNAgent.train 3 200 a = (Ok loc, s) /\
    DQNAgent.update_model s = (Ok loss, s1) /\
    DQNAgent.dqn (DQNAgent.train_update loc s).2 = DQNAgent.dqn s1.
Proof.
  eexists _, _, _, _, _. split; [vm_compute; reflexivity|].
  split; [vm_compute; reflexivity|].
  match goal with |- ?T /\ _ => assert (Hup : T) by (vm_compute; reflexivity) end.
  split; [exact Hup|].
  exact (proj1 (target_sync_cadence _ _ _ _ Hup)).
Defined.

Lemma zero_plotting_interval_never_returns_witness :
  exists a,
    Toy.agent 4 2 2 (1 # 4) 1 (1 # 10) (99 # 100) 0 2 3 = Ok a /\
    1 <= 3 /\ exists e, (DQNAgent.train 3 0 a).1 = Raise e.
Proof.
  eexists. split; [vm_compute; reflexivity|].
  assert (Hn : 1 <= 3) by lia. split; [exact Hn|].
  exact (proj1 (zero_plotting_interval_never_returns 3 _ Hn)).
Defined.

Lemma fresh_agent_must_act_and_fill_first_witness :
  exists a,
    Toy.agent 4 2 2 (1 # 4) 1 (1 # 10) (99 # 100) 0 2 3 = Ok a /\
    forall act, (DQNAgent.step act a).1 = Raise TypeError.
Proof.
  eexists.
  assert (Ha : Toy.agent 4 2 2 (1 # 4) 1 (1 # 10) (99 # 100) 0 2 3 = Ok _)
    by (vm_compute; reflexivity).
  split; [exact Ha|].
  destruct (fresh_agent_must_act_and_fill_first _ _ _ _ _ _ _ _ _ _ _ _ _ _ Ha)
    as (_ & _ & _ & _ & _ & _ & _ & _ & _ & Hstep & _).
  exact Hstep.
Defined.

Lemma test_renders_one_frame_per_step_witness :
  exists a frames s',
    Toy.agent 4 2 2 (1 # 4) 1 (1 # 10) (99 # 100) 0 2 3 = Ok a /\
    Evaluation.test (F := nat) 5 a = (Ok (Some frames), s') /\
    exists its s1,
      Evaluation.episode (env_reset (DQNAgent.env a)).1
        (DQNAgent.set_env (env_reset (DQNAgent.env a)).2 (DQNAgent.set_is_test true a))
        its s1 /\
      length its = 3%nat /\ frames = map fst its.
Proof.
  eexists _, _, _. split; [vm_compute; reflexivity|].
  match goal with |- ?T /\ _ => assert (Hrun : T) by (vm_compute; reflexivity) end.
  split; [exact Hrun|].
  destruct (proj1 (test_renders_one_frame_per_step _ _ _ _) Hrun)
    as (its & s1 & Hep & _ & Hfr & _).
  exists its, s1. split; [exact Hep|]. split; [|exact Hfr].
  apply (f_equal length) in Hfr. rewrite length_map in Hfr. symmetry. exact Hfr.
Defined.

Lemma train_update_count_witness :
  exists a loc' s',
    Toy.agent 4 2 2 (1 # 4) 1 (1 # 10) (99 # 100) 0 2 3 = Ok a /\
    buffer_inv (DQNAgent.memory a) /\
    DQNAgent.train 6 200 a = (Ok loc', s') /\
    DQNAgent.update_cnt loc' = 5 /\ length (DQNAgent.losses loc') = 5%nat.
Proof.
  eexists _, _, _. split; [vm_compute; reflexivity|].
  match goal with |- ?I /\ _ =>
    assert (Hinv : I) by (unfold buffer_inv; cbn; repeat split; lia) end.
  split; [exact Hinv|].
  match goal with |- ?T /\ _ => assert (Hrun : T) by (vm_compute; reflexivity) end.
  split; [exact Hrun|].
  destruct (train_update_count _ _ _ _ _ Hinv Hrun) as (Hc & Hl & _).
  split; [exact Hc|exact Hl].
Defined.

Lemma train_moving_average_witness :
  exists a loc' s',
    Toy.agent 4 2 2 (1 # 4) 1 (1 # 10) (99 # 100) 0 2 3 = Ok a /\
    DQNAgent.train 6 200 a = (Ok loc', s') /\
    length (DQNAgent.mov_avg loc') = length (DQNAgent.scores loc').
Proof.
  eexists _, _, _. split; [vm_compute; reflexivity|].
  match goal with |- ?T /\ _ => assert (Hrun : T) by (vm_compute; reflexivity) end.
  split; [exact Hrun|].
  exact (proj1 (train_moving_average _ _ _ _ _ Hrun)).
Defined.
